(** * oz-landing: itinerary synthesis and map orchestration

    A shallow embedding of [YH_ver/js/parseTravel.js] (the itinerary
    synthesizer) and of the map controller module ([initMap], [clearMap],
    [addMarkersToMap], [highlightMarker]) together with the properties the
    specification states about them.

    Conventions of the embedding:
    - a JavaScript string is a [string] holding its UTF-8 bytes; substring
      search and the date pattern only look at ASCII digits, ASCII
      punctuation and whole literals, so bytes and UTF-16 code units agree
      on every operation used here;
    - a JavaScript number that is an array length or an index is a [nat];
      coordinates, distances and [Math.random()] results are rationals
      ([Q]): a double is the rational it is equal to, and a decimal literal
      is kept as written and stands for the double nearest to it.  Where
      the source adds and multiplies fractions (the coordinates of a
      location) every operation rounds to the nearest double, as
      [Js.double] writes out; where it only reads the sign or the integer
      part of a result the exact value is used;
    - [Math.random()] reads the next element of an explicit stream of
      samples of the half-open unit interval;
    - [undefined] is [None]; a thrown exception is the [Throw] completion. *)

From Stdlib Require Import List String Ascii ZArith QArith Qround Lia.
From Stdlib Require Import Permutation Bool Arith DecimalString.
From Stdlib Require Import Lqa DecimalNat Qabs Qpower.
Import ListNotations.

Close Scope Q_scope.
Open Scope string_scope.
Open Scope list_scope.
Open Scope nat_scope.

(* ------------------------------------------------------------------ *)
(** ** JavaScript primitives used by the sources                       *)
(* ------------------------------------------------------------------ *)

Module Js.

(** *** Strings *)

(** [s.includes(t)]: [t] occurs in [s] at some offset. *)
Fixpoint includes (s t : string) : bool :=
  String.prefix t s ||
  match s with
  | EmptyString => false
  | String _ s' => includes s' t
  end.

(** [String(n)] for a non-negative integer. *)
Definition ofNat (n : nat) : string :=
  NilEmpty.string_of_uint (Nat.to_uint n).

(** The first [n] bytes of [s]. *)
Fixpoint take (n : nat) (s : string) : string :=
  match n, s with
  | S k, String c s' => String c (take k s')
  | _, _ => EmptyString
  end.

(** [s] without the prefix [p], when [p] is a prefix of [s]. *)
Fixpoint strip (p s : string) : option string :=
  match p, s with
  | EmptyString, _ => Some s
  | String a p', String b s' => if Ascii.eqb a b then strip p' s' else None
  | String _ _, EmptyString => None
  end.

Definition ofBytes (l : list nat) : string :=
  string_of_list_ascii (map ascii_of_nat l).

(** *** Regular expressions

    The fragment of the RegExp syntax the sources use, with the matching
    discipline of a backtracking engine: alternatives are tried left to
    right and quantifiers are greedy.  [ends r s] lists, in the order the
    engine would try them, the inputs left after a match of [r] at the
    start of [s]; the engine's answer is the first one. *)

Inductive regex : Type :=
| Lit (p : string)          (* literal text *)
| Digit                     (* \d *)
| Space                     (* \s *)
| Seq (r1 r2 : regex)
| Alt (r1 r2 : regex)       (* r1|r2 *)
| Opt (r : regex)           (* r? *)
| Star (r : regex).         (* r* *)

(** [r{n}] and [r{n,n+k}]. *)
Fixpoint times (n : nat) (r : regex) : regex :=
  match n with
  | 0 => Lit ""
  | 1 => r
  | S k => Seq r (times k r)
  end.

Fixpoint upto (k : nat) (r : regex) : regex :=
  match k with
  | 0 => Lit ""
  | 1 => Opt r
  | S j => Opt (Seq r (upto j r))
  end.

Definition range (n m : nat) (r : regex) : regex :=
  match n, m - n with
  | 0, _ => upto m r
  | _, 0 => times n r
  | _, k => Seq (times n r) (upto k r)
  end.

Definition isDigit (c : ascii) : bool :=
  let n := nat_of_ascii c in (48 <=? n) && (n <=? 57).

(** The white space and line terminator characters of [\s], as UTF-8:
    TAB LF VT FF CR SP, U+00A0, U+1680, U+2000..U+200A, U+2028, U+2029,
    U+202F, U+205F, U+3000, U+FEFF. *)
Definition whiteSpace : list string :=
  map ofBytes
    ([ [9]; [10]; [11]; [12]; [13]; [32]; [194; 160]; [225; 154; 128] ]
     ++ map (fun k => [226; 128; 128 + k]) (seq 0 11)
     ++ [ [226; 128; 168]; [226; 128; 169]; [226; 128; 175];
          [226; 129; 159]; [227; 128; 128]; [239; 187; 191] ]).

Fixpoint firstStrip (ps : list string) (s : string) : list string :=
  match ps with
  | [] => []
  | p :: ps' =>
      match strip p s with
      | Some s' => [s']
      | None => firstStrip ps' s
      end
  end.

(** The iterations of [r*], [step] being one match of [r]: as many as
    possible first; an iteration that consumes nothing is not repeated. *)
Fixpoint iterate (step : string -> list string) (fuel : nat) (s : string)
  : list string :=
  match fuel with
  | 0 => [s]
  | S fuel' =>
      flat_map
        (fun s' =>
           if String.length s' <? String.length s
           then iterate step fuel' s' else [])
        (step s)
      ++ [s]
  end.

Fixpoint ends (r : regex) (s : string) : list string :=
  match r with
  | Lit p => firstStrip [p] s
  | Digit =>
      match s with
      | String c s' => if isDigit c then [s'] else []
      | EmptyString => []
      end
  | Space => firstStrip whiteSpace s
  | Seq r1 r2 => flat_map (ends r2) (ends r1 s)
  | Alt r1 r2 => ends r1 s ++ ends r2 s
  | Opt r1 => ends r1 s ++ [s]
  | Star r1 => iterate (ends r1) (String.length s) s
  end.

(** Whether a match of [r] always consumes some input. *)
Fixpoint consuming (r : regex) : bool :=
  match r with
  | Lit p => negb (String.eqb p "")
  | Digit | Space => true
  | Seq r1 r2 => consuming r1 || consuming r2
  | Alt r1 r2 => consuming r1 && consuming r2
  | Opt _ | Star _ => false
  end.

(** The text matched by [r] at the start of [s], if any. *)
Definition exec (r : regex) (s : string) : option string :=
  match ends r s with
  | rest :: _ => Some (take (String.length s - String.length rest) s)
  | [] => None
  end.

(** [s.match(r)] for a global [r]: successive leftmost matches, each
    search resuming where the previous match stopped ([skip] counts the
    bytes of the current match still to step over); an empty match moves
    on by one position.  [null] (no match) is the empty list, as in
    [s.match(r) || []]. *)
Fixpoint matchAll (r : regex) (skip : nat) (s : string) : list string :=
  match s with
  | EmptyString =>
      match skip, exec r s with
      | 0, Some m => [m]
      | _, _ => []
      end
  | String _ s' =>
      match skip with
      | S k => matchAll r k s'
      | 0 =>
          match exec r s with
          | Some m => m :: matchAll r (String.length m - 1) s'
          | None => matchAll r 0 s'
          end
      end
  end.

Definition matchGlobal (s : string) (r : regex) : list string :=
  matchAll r 0 s.

(** *** Numbers *)

(** [Math.floor] and [Math.round] (halves round up). *)
Definition floor (x : Q) : Z := Qfloor x.
Definition round (x : Q) : Z := Qfloor (x + (1 # 2))%Q.

(** **** Doubles

    The binary64 format with the default rounding, to the nearest value
    and to the even significand on a tie.  A finite double is an integer
    of at most 53 bits times a power of two; [double x] is the one nearest
    to [x].  Magnitudes of 2^1024 and more, which become [Infinity], and
    the sign of zero are outside of what is modelled. *)

Definition pow2 (e : Z) : Q := (2 ^ e)%Q.

(** The exponent of a positive number: [2^e <= x < 2^(e+1)]. *)
Definition ilog2 (x : Q) : Z :=
  let e := (Z.log2 (Qnum x) - Z.log2 (Zpos (Qden x)))%Z in
  if Qle_bool (pow2 e) x then e else (e - 1)%Z.

Definition roundEven (x : Q) : Z :=
  let n := Qfloor x in
  match (x - inject_Z n ?= 1 # 2)%Q with
  | Lt => n
  | Gt => (n + 1)%Z
  | Eq => if Z.even n then n else (n + 1)%Z
  end.

(** The spacing of the doubles around [x] is [2^(e-52)], [e] being the
    exponent of [x] and at least -1022 (below that the doubles are
    subnormal and evenly spaced). *)
Definition double (x : Q) : Q :=
  match Qnum x with
  | Z0 => 0%Q
  | _ =>
      let e := Z.max (ilog2 (Qabs x)) (-1022) in
      let ulp := pow2 (e - 52) in
      Qred (inject_Z (roundEven (x / ulp)) * ulp)
  end.

(** The value of a numeric literal and the operators [+], [-] and [*] on
    numbers. *)
Definition number (x : Q) : Q := double x.
Definition fadd (x y : Q) : Q := double (x + y).
Definition fsub (x y : Q) : Q := double (x - y).
Definition fmul (x y : Q) : Q := double (x * y).

(** *** Arrays

    An array that may have holes: [None] is an index that was never
    assigned.  Assigning past the end extends the array. *)

Fixpoint assign {A : Type} (l : list (option A)) (i : nat) (v : A)
  : list (option A) :=
  match i, l with
  | 0, [] => [Some v]
  | 0, _ :: l' => Some v :: l'
  | S k, [] => None :: assign [] k v
  | S k, x :: l' => x :: assign l' k v
  end.

(** [l[i]], [undefined] for a hole or past the end. *)
Definition get {A : Type} (l : list (option A)) (i : nat) : option A :=
  match nth_error l i with
  | Some (Some v) => Some v
  | _ => None
  end.

(** [l.find(p)]. *)
Definition find {A : Type} (p : A -> bool) (l : list A) : option A :=
  List.find p l.

(** *** Randomness *)

(** A result of [Math.random()]: a number of the interval [0, 1). *)
Record unit01 : Type := Unit01 {
  sample : Q;
  sample_range : Qle_bool 0%Q sample && negb (Qle_bool 1%Q sample) = true
}.

(** The results of the successive calls of [Math.random()]. *)
Definition rng : Type := nat -> unit01.

Definition Rand (A : Type) : Type := rng -> A * rng.

Definition retR {A : Type} (a : A) : Rand A := fun g => (a, g).

Definition bindR {A B : Type} (m : Rand A) (k : A -> Rand B) : Rand B :=
  fun g => let (a, g') := m g in k a g'.

Definition random : Rand Q :=
  fun g => (sample (g 0), fun n => g (S n)).

Fixpoint mapiR {A B : Type} (f : A -> nat -> Rand B) (i : nat) (l : list A)
  : Rand (list B) :=
  match l with
  | [] => retR []
  | x :: l' =>
      bindR (f x i) (fun y =>
      bindR (mapiR f (S i) l') (fun ys => retR (y :: ys)))
  end.

(** *** Sorting with a comparison function

    [Array.prototype.sort] belongs to the host.  What every host
    guarantees, whatever the comparison function answers, is that the
    result holds the elements of the array, each as often as before. *)
Record Host : Type := {
  sort : forall A : Type, (A -> A -> Rand Q) -> list A -> Rand (list A);
  sort_permutes :
    forall (A : Type) (cmp : A -> A -> Rand Q) (l : list A) (g : rng),
      Permutation (fst (sort A cmp l g)) l
}.

(** A host that sorts by straight insertion: each element is moved left
    past the elements the comparison function puts after it. *)
Fixpoint insertBack {A : Type} (cmp : A -> A -> Rand Q) (x : A)
    (before : list A) : Rand (list A) :=
  (* [before] is the sorted prefix, last element first *)
  match before with
  | [] => retR [x]
  | y :: before' =>
      bindR (cmp y x) (fun order =>
        if Qle_bool order 0%Q then retR (x :: y :: before')
        else bindR (insertBack cmp x before') (fun l => retR (y :: l)))
  end.

Fixpoint insertionSortFrom {A : Type} (cmp : A -> A -> Rand Q)
    (before : list A) (l : list A) : Rand (list A) :=
  match l with
  | [] => retR (rev before)
  | x :: l' =>
      bindR (insertBack cmp x before) (fun before' =>
        insertionSortFrom cmp before' l')
  end.

Definition insertionSort {A : Type} (cmp : A -> A -> Rand Q) (l : list A)
  : Rand (list A) :=
  insertionSortFrom cmp [] l.

End Js.

(* ------------------------------------------------------------------ *)
(** ** The data model                                                  *)
(* ------------------------------------------------------------------ *)

Module City.
Record t : Type := Make { name : string; lat : Q; lng : Q }.
End City.

(** The value of [attractions[cityName]]. *)
Module CityData.
Record t : Type := Make { spots : list string; foods : list string }.
End CityData.

(** The module [data/attractions.js] exports the two tables [cities] and
    [attractions]; its text is not part of the sources at hand, so the
    synthesizer takes the tables as an argument.  [attractions] is an
    object used as a map from city names to their data. *)
Module Catalog.
Record t : Type := Make {
  cities : list City.t;
  attractions : list (string * CityData.t)
}.

Fixpoint lookup (table : list (string * CityData.t)) (key : string)
  : option CityData.t :=
  match table with
  | [] => None
  | (k, v) :: table' => if String.eqb k key then Some v else lookup table' key
  end.
End Catalog.

Inductive LocType : Type := spot | food.

(** [type === "food"]. *)
Definition isFood (t : LocType) : bool :=
  match t with food => true | spot => false end.

Module Loc.
Record t : Type := Make {
  name : string;
  lat : Q;
  lng : Q;
  time : string;
  city : string;
  type : LocType
}.
End Loc.

Module Day.
Record t : Type := Make {
  day : nat;
  date : string;
  city : string;
  locations : list Loc.t;
  distance : Q;
  duration : Q
}.
End Day.

Module Itinerary.
Record t : Type := Make {
  cities : list City.t;
  primaryCity : option City.t;
  itinerary : list Day.t
}.
End Itinerary.

(* ------------------------------------------------------------------ *)
(** ** parseTravel.js                                                  *)
(* ------------------------------------------------------------------ *)

Module ParseTravel.
Import Js.

Inductive error : Type :=
| TypeError                 (* a property read on [undefined] *)
| Error (message : string). (* [throw new Error(message)] *)

Inductive completion (A : Type) : Type :=
| Normal (a : A)
| Throw (e : error).
Arguments Normal {A} a.
Arguments Throw {A} e.

(** Code that draws random numbers and may throw. *)
Definition M (A : Type) : Type := rng -> completion A * rng.

Definition ret {A : Type} (a : A) : M A := fun g => (Normal a, g).

Definition throw {A : Type} (e : error) : M A := fun g => (Throw e, g).

Definition bind {A B : Type} (m : M A) (k : A -> M B) : M B :=
  fun g =>
    match m g with
    | (Normal a, g') => k a g'
    | (Throw e, g') => (Throw e, g')
    end.

Definition lift {A : Type} (m : Rand A) : M A :=
  fun g => let (a, g') := m g in (Normal a, g').

Notation "x <- m ;; k" := (bind m (fun x => k))
  (at level 61, m at next level, right associativity).
Notation "x <~ m ;; k" := (bindR m (fun x => k))
  (at level 61, m at next level, right associativity).

Section WithHost.
Variable host : Host.

(** [arr.slice().sort(() => 0.5 - Math.random())], then [slice(0, count)]. *)
Definition getRandomItems {A : Type} (arr : list A) (count : nat)
  : Rand (list A) :=
  shuffled <~ sort host A
                (fun _ _ => r <~ random ;; retR ((1 # 2) - r)%Q) arr ;;
  retR (firstn count shuffled).

(** The pattern
    [/(\d{1,2}월?\s*\d{1,2}일?)|(\d{4}-\d{1,2}-\d{1,2})|(\d{1,2}\/\d{1,2})/g]. *)
Definition datePattern : regex :=
  Alt (Seq (range 1 2 Digit)
        (Seq (Opt (Lit "월"))
          (Seq (Star Space)
            (Seq (range 1 2 Digit) (Opt (Lit "일"))))))
 (Alt (Seq (times 4 Digit)
        (Seq (Lit "-")
          (Seq (range 1 2 Digit)
            (Seq (Lit "-") (range 1 2 Digit)))))
      (Seq (range 1 2 Digit)
        (Seq (Lit "/") (range 1 2 Digit)))).

Definition defaultDates : list string :=
  ["7월 25일"; "7월 26일"; "7월 27일"; "7월 28일"; "7월 29일"].

(** The cities whose name occurs in the input, in the order of the table. *)
Definition detectCities (cities : list City.t) (input : string)
  : list City.t :=
  filter (fun city => includes input (City.name city)) cities.

(** [cities[3]] stands in when nothing was detected.  Were the table
    shorter, the array would hold [undefined] and the next statement, which
    reads [c.name] of every element, would throw. *)
Definition detectedOrDefault (cities : list City.t) (input : string)
  : M (list City.t) :=
  match detectCities cities input with
  | [] =>
      match nth_error cities 3 with
      | Some city => ret [city]
      | None => throw TypeError
      end
  | detected => ret detected
  end.

(** [input.match(datePattern) || []], replaced by the default dates when
    fewer than two were found. *)
Definition detectDates (input : string) : list string :=
  let dates := matchGlobal input datePattern in
  if List.length dates <? 2 then defaultDates else dates.

Definition maxDays (dates : list string) (detectedCities : list City.t)
  : nat :=
  Nat.min (List.length dates)
          (if 1 <? List.length detectedCities then 5 else 3).

(** [2 + Math.floor(Math.random() * 2)] and its sibling. *)
Definition randomCount (base : nat) : Rand nat :=
  r <~ random ;; retR (base + Z.to_nat (floor (r * 2)%Q)).

(** One element of [spots] or [foods]; [hour] is 9 for a spot and 11 for a
    food stop, [minutes] the text after the hour. *)
Definition makeLocation (currentCity : City.t) (type : LocType)
    (hour : nat) (minutes : string) (name : string) (idx : nat)
  : Rand Loc.t :=
  r1 <~ random ;;
  r2 <~ random ;;
  retR {| Loc.name := name;
          Loc.lat := fadd (number (City.lat currentCity))
                       (fmul (fsub r1 (1 # 2)) (number (2 # 100)));
          Loc.lng := fadd (number (City.lng currentCity))
                       (fmul (fsub r2 (1 # 2)) (number (2 # 100)));
          Loc.time := (ofNat (hour + idx * 2) ++ minutes)%string;
          Loc.city := City.name currentCity;
          Loc.type := type |}.

(** [dates[i] || `${i + 1}일차`]: the label stands in when [dates[i]] is
    [undefined] or the empty string. *)
Definition dateOrLabel (dates : list string) (i : nat) : string :=
  match nth_error dates i with
  | Some d => if String.eqb d "" then (ofNat (i + 1) ++ "일차")%string else d
  | None => (ofNat (i + 1) ++ "일차")%string
  end.

Definition emptyData : CityData.t :=
  {| CityData.spots := []; CityData.foods := [] |}.

Definition cityDataOf (catalog : Catalog.t) (cityName : string)
  : CityData.t :=
  match Catalog.lookup (Catalog.attractions catalog) cityName with
  | Some data => data
  | None => emptyData
  end.

(** The body of the [for] loop for one value of [i]. *)
Definition generateDay (catalog : Catalog.t) (detectedCities : list City.t)
    (dates : list string) (i : nat) : M Day.t :=
  let cityIndex := i mod List.length detectedCities in
  match nth_error detectedCities cityIndex with
  | None => throw TypeError
  | Some currentCity =>
      let cityData := cityDataOf catalog (City.name currentCity) in
      lift (
        n2 <~ randomCount 2 ;;
        let numSpots := Nat.min (List.length (CityData.spots cityData)) n2 in
        n1 <~ randomCount 1 ;;
        let numFoods := Nat.min (List.length (CityData.foods cityData)) n1 in
        chosenSpots <~ getRandomItems (CityData.spots cityData) numSpots ;;
        spots <~ mapiR (makeLocation currentCity spot 9 ":00") 0 chosenSpots ;;
        chosenFoods <~ getRandomItems (CityData.foods cityData) numFoods ;;
        foods <~ mapiR (makeLocation currentCity food 11 ":30") 0 chosenFoods ;;
        locations <~ sort host Loc.t
                       (fun _ _ => r <~ random ;; retR ((1 # 2) - r)%Q)
                       (spots ++ foods) ;;
        retR {| Day.day := i + 1;
                Day.date := dateOrLabel dates i;
                Day.city := City.name currentCity;
                Day.locations := locations;
                Day.distance := 0%Q;
                Day.duration := 0%Q |})
  end.

(** [for (let i = 0; i < maxDays; i++) { ...; itinerary.push(day) }],
    [todo] being the values of [i] still to run. *)
Fixpoint generateDays (catalog : Catalog.t) (detectedCities : list City.t)
    (dates : list string) (todo : list nat) (itinerary : list Day.t)
  : M (list Day.t) :=
  match todo with
  | [] => ret itinerary
  | i :: todo' =>
      d <- generateDay catalog detectedCities dates i ;;
      generateDays catalog detectedCities dates todo' (itinerary ++ [d])
  end.

(** The [try] block. *)
Definition parseTravelTry (catalog : Catalog.t) (input : string)
  : M Itinerary.t :=
  detectedCities <- detectedOrDefault (Catalog.cities catalog) input ;;
  let dates := detectDates input in
  let maxDays := maxDays dates detectedCities in
  itinerary <- generateDays catalog detectedCities dates (seq 0 maxDays) [] ;;
  let result :=
    {| Itinerary.cities := detectedCities;
       Itinerary.primaryCity := nth_error detectedCities 0;
       Itinerary.itinerary := itinerary |} in
  if List.length (Itinerary.itinerary result) =? 0
  then throw (Error "일정이 생성되지 않았습니다")
  else ret result.

(** The value of the [catch] block. *)
Definition gangneung : City.t :=
  {| City.name := "강릉";
     City.lat := (377519 # 10000)%Q;
     City.lng := (1288761 # 10000)%Q |}.

Definition fallbackLocation (name time : string) : Loc.t :=
  {| Loc.name := name;
     Loc.lat := (377519 # 10000)%Q;
     Loc.lng := (1288761 # 10000)%Q;
     Loc.time := time;
     Loc.city := "강릉";
     Loc.type := spot |}.

Definition fallback : Itinerary.t :=
  {| Itinerary.cities := [gangneung];
     Itinerary.primaryCity := Some gangneung;
     Itinerary.itinerary :=
       [ {| Day.day := 1;
            Day.date := "여행 1일차";
            Day.city := "강릉";
            Day.locations :=
              [ fallbackLocation "경포해변" "09:00";
                fallbackLocation "오죽헌" "11:00" ];
            Day.distance := 0%Q;
            Day.duration := 0%Q |} ] |}.

Definition parseTravel (catalog : Catalog.t) (input : string) (g : rng)
  : Itinerary.t :=
  match parseTravelTry catalog input g with
  | (Normal result, _) => result
  | (Throw _, _) => fallback
  end.

End WithHost.
End ParseTravel.

(* ------------------------------------------------------------------ *)
(** ** The map controller                                              *)
(* ------------------------------------------------------------------ *)

Module MapControl.
Import Js.

Definition LatLng : Type := (Q * Q)%type.

(** A marker as the module creates it: position, whether it carries the
    food icon, the popup text, and the two tags written on it. *)
Record Marker : Type := {
  position : LatLng;
  foodIcon : bool;
  popup : string;
  _dayIndex : nat;
  _locIndex : nat
}.

(** A routing control: its way points, the colour of its line, and the
    [dayIndex] its event handlers closed over. *)
Record Router : Type := {
  waypoints : list LatLng;
  color : string;
  routedDay : nat
}.

Record DayStat : Type := { distance : Q; duration : Q }.

(** [e.routes[0].summary] of a [routesfound] event. *)
Record Summary : Type := { totalDistance : Q; totalTime : Q }.

(** What the module does to the outside, in the order it does it: calls
    of the Leaflet interface and of the caller's callback.  Adding a
    routing control to the map is what issues its route request; the
    answer comes back later as a [routesfound] event.  A callback is
    recorded with the content of [dayStats] at the time of the call. *)
Inductive Call : Type :=
| removeMarker (m : Marker)            (* map.removeLayer(marker) *)
| removeRouter (r : Router)            (* map.removeLayer(layer) *)
| addMarker (m : Marker)               (* L.marker(..).addTo(map).bindPopup(..) *)
| addRouting (r : Router)              (* L.Routing.control(..).addTo(map) *)
| fitBounds (bounds : list LatLng)     (* map.fitBounds(bounds, ..) *)
| openPopup (m : Marker)               (* marker.openPopup() *)
| setView (center : LatLng) (zoom : nat)  (* map.setView(.., zoom, ..) *)
| onRouteStats (dayStats : list (option DayStat)).  (* the callback *)

(** The module's variables and its surroundings. *)
Record World : Type := {
  leaflet : bool;              (* [typeof L !== "undefined"] *)
  routing : bool;              (* [L.Routing] is there *)
  map : bool;                  (* [map] holds a map *)
  markers : list Marker;
  routeLayers : list Router;
  calls : list Call            (* everything done so far, oldest first *)
}.

Definition call (c : Call) (w : World) : World :=
  {| leaflet := leaflet w; routing := routing w; map := map w;
     markers := markers w; routeLayers := routeLayers w;
     calls := calls w ++ [c] |}.

Definition pushMarker (m : Marker) (w : World) : World :=
  {| leaflet := leaflet w; routing := routing w; map := map w;
     markers := markers w ++ [m]; routeLayers := routeLayers w;
     calls := calls w |}.

Definition pushRouter (r : Router) (w : World) : World :=
  {| leaflet := leaflet w; routing := routing w; map := map w;
     markers := markers w; routeLayers := routeLayers w ++ [r];
     calls := calls w |}.

(** [initMap]: without Leaflet nothing is created. *)
Definition initMap (w : World) : World :=
  if leaflet w
  then {| leaflet := leaflet w; routing := routing w; map := true;
          markers := markers w; routeLayers := routeLayers w;
          calls := calls w |}
  else w.

Definition clearMap (w : World) : World :=
  let w1 :=
    if leaflet w && map w
    then
      let w' := fold_left (fun w m => call (removeMarker m) w) (markers w) w in
      fold_left (fun w r => call (removeRouter r) w) (routeLayers w) w'
    else w in
  {| leaflet := leaflet w1; routing := routing w1; map := map w1;
     markers := []; routeLayers := [];
     calls := calls w1 |}.

Definition colors : list string :=
  ["red"; "blue"; "green"; "orange"; "violet"].

Definition newline : string := String (ascii_of_nat 10) EmptyString.

Definition popupText (day : Day.t) (location : Loc.t) : string :=
  (newline ++ "            <b>Day " ++ ofNat (Day.day day) ++ ": "
     ++ Loc.name location ++ "</b><br>"
   ++ newline ++ "            시간: " ++ Loc.time location ++ "<br>"
   ++ newline ++ "            날짜: " ++ Day.date day ++ "<br>"
   ++ newline ++ "            도시: " ++ Loc.city location
   ++ newline ++ "          ")%string.

Definition latLng (location : Loc.t) : LatLng :=
  (Loc.lat location, Loc.lng location).

Definition markerFor (day : Day.t) (dayIndex : nat) (location : Loc.t)
    (locIndex : nat) : Marker :=
  {| position := latLng location;
     foodIcon := isFood (Loc.type location);
     popup := popupText day location;
     _dayIndex := dayIndex;
     _locIndex := locIndex |}.

(** The variables one run of [addMarkersToMap] shares with the event
    handlers it installs. *)
Record Run : Type := {
  total : nat;                          (* [itinerary.length] *)
  callback : bool;                      (* [typeof onRouteStats === "function"] *)
  dayStats : list (option DayStat);
  routingCount : nat
}.

(** The statements that end both the [routesfound] handler and the
    [else] branch: store the day's statistics, count the day, and call
    back when the count reaches the number of days. *)
Definition recordStat (dayIndex : nat) (stat : DayStat) (s : World * Run)
  : World * Run :=
  let (w, r) := s in
  let r' := {| total := total r; callback := callback r;
               dayStats := assign (dayStats r) dayIndex stat;
               routingCount := S (routingCount r) |} in
  if (routingCount r' =? total r') && callback r'
  then (call (onRouteStats (dayStats r')) w, r')
  else (w, r').

Definition zeroStat : DayStat := {| distance := 0%Q; duration := 0%Q |}.

Definition routeStat (route : Summary) : DayStat :=
  {| distance := (inject_Z (round (totalDistance route / 100)) / 10)%Q;
     duration := inject_Z (round (totalTime route / 60)%Q) |}.

(** The handler of [routesfound] installed for the day [dayIndex]. *)
Definition routesfound (dayIndex : nat) (route : Summary) (s : World * Run)
  : World * Run :=
  recordStat dayIndex (routeStat route) s.

(** [day.locations.forEach((location, locIndex) => ..)]. *)
Fixpoint placeMarkers (day : Day.t) (dayIndex : nat) (locations : list Loc.t)
    (locIndex : nat) (s : World * list LatLng) : World * list LatLng :=
  match locations with
  | [] => s
  | location :: locations' =>
      let (w, bounds) := s in
      let marker := markerFor day dayIndex location locIndex in
      placeMarkers day dayIndex locations' (S locIndex)
        (pushMarker marker (call (addMarker marker) w),
         bounds ++ [latLng location])
  end.

Definition routable (w : World) (day : Day.t) : bool :=
  leaflet w && routing w && (1 <? List.length (Day.locations day)).

Definition routerFor (day : Day.t) (dayIndex : nat) : Router :=
  {| waypoints := List.map latLng (Day.locations day);
     color := nth (dayIndex mod List.length colors) colors "";
     routedDay := dayIndex |}.

(** [itinerary.forEach((day, dayIndex) => ..)]. *)
Fixpoint forEachDay (days : list Day.t) (dayIndex : nat)
    (s : World * list LatLng * Run) : World * list LatLng * Run :=
  match days with
  | [] => s
  | day :: days' =>
      let '(w, bounds, r) := s in
      let (w1, bounds1) :=
        placeMarkers day dayIndex (Day.locations day) 0 (w, bounds) in
      let (w2, r2) :=
        if routable w1 day
        then
          let router := routerFor day dayIndex in
          (pushRouter router (call (addRouting router) w1), r)
        else recordStat dayIndex zeroStat (w1, r) in
      forEachDay days' (S dayIndex) (w2, bounds1, r2)
  end.

(** [addMarkersToMap(itinerary, onRouteStats)]; [hasCallback] tells
    whether [onRouteStats] is a function.  The result holds the run's
    shared variables when the body ran.  The Leaflet calls are taken to
    succeed, so the [catch] block, which only logs, is never entered. *)
Definition addMarkersToMap (itinerary : list Day.t) (hasCallback : bool)
    (w : World) : World * option Run :=
  if negb (leaflet w) || negb (map w)
  then (w, None)
  else
    let w0 := clearMap w in
    let r0 := {| total := List.length itinerary; callback := hasCallback;
                 dayStats := []; routingCount := 0 |} in
    let '(w1, bounds, r1) := forEachDay itinerary 0 (w0, [], r0) in
    let w2 :=
      if 0 <? List.length bounds then call (fitBounds bounds) w1 else w1 in
    (w2, Some r1).

(** [highlightMarker(dayIndex, locIndex)]. *)
Definition highlightMarker (dayIndex locIndex : nat) (w : World) : World :=
  match nth_error (markers w) (dayIndex * 10 + locIndex) with
  | None => w
  | Some _ =>
      match find (fun m => (_dayIndex m =? dayIndex)
                           && (_locIndex m =? locIndex)) (markers w) with
      | Some marker =>
          call (setView (position marker) 14) (call (openPopup marker) w)
      | None => w
      end
  end.

(** *** Runs of the whole protocol *)

(** The days for which a routing control is created. *)
Fixpoint routedDays (w : World) (days : list Day.t) (dayIndex : nat)
  : list nat :=
  match days with
  | [] => []
  | day :: days' =>
      (if routable w day then [dayIndex] else [])
      ++ routedDays w days' (S dayIndex)
  end.

(** The [routesfound] events of a run, in the order they arrive. *)
Definition deliver (events : list (nat * Summary)) (s : World * Run)
  : World * Run :=
  fold_left (fun s e => routesfound (fst e) (snd e) s) events s.

(** The arguments of the callback's invocations, oldest first. *)
Fixpoint callbacks (log : list Call) : list (list (option DayStat)) :=
  match log with
  | [] => []
  | onRouteStats stats :: log' => stats :: callbacks log'
  | _ :: log' => callbacks log'
  end.

End MapControl.

(* ------------------------------------------------------------------ *)
(** ** Properties of the primitives                                    *)
(* ------------------------------------------------------------------ *)

Module JsFacts.
Import Js.

(** *** Strings and patterns *)

Lemma strip_length (p s s' : string) :
  strip p s = Some s' ->
  String.length s = String.length p + String.length s'.
Proof.
  revert s. induction p as [|a p IH]; intros s H; simpl in *.
  - now inversion H.
  - destruct s as [|b s]; [discriminate|].
    destruct (Ascii.eqb a b); [|discriminate].
    simpl. now rewrite (IH _ H).
Qed.

Lemma firstStrip_length (ps : list string) (s s' : string) :
  In s' (firstStrip ps s) ->
  exists p, In p ps /\ String.length s = String.length p + String.length s'.
Proof.
  induction ps as [|p ps IH]; simpl; [tauto|].
  destruct (strip p s) as [t|] eqn:E.
  - intros [<-|[]]. exists p. split; [now left|]. now apply strip_length.
  - intros H. destruct (IH H) as (q & Hq & L). exists q. split; [now right|exact L].
Qed.

Lemma whiteSpace_nonempty (p : string) :
  In p whiteSpace -> 0 < String.length p.
Proof.
  assert (A : forallb (fun p => 0 <? String.length p) whiteSpace = true)
    by reflexivity.
  rewrite forallb_forall in A. intros H. now apply Nat.ltb_lt, A.
Qed.

Lemma iterate_le (step : string -> list string) (fuel : nat) (s s' : string) :
  In s' (iterate step fuel s) -> String.length s' <= String.length s.
Proof.
  revert s. induction fuel as [|fuel IH]; intros s; simpl.
  - intros [<-|[]]. lia.
  - rewrite in_app_iff, in_flat_map. intros [(t & _ & Ht)|[<-|[]]]; [|lia].
    destruct (Nat.ltb_spec (String.length t) (String.length s)); [|contradiction].
    specialize (IH _ Ht). lia.
Qed.

(** The fuel [ends] gives to [iterate] is enough: any larger amount
    yields the same iterations. *)
Lemma iterate_enough (step : string -> list string) (fuel fuel' : nat)
    (s : string) :
  String.length s <= fuel -> String.length s <= fuel' ->
  iterate step fuel s = iterate step fuel' s.
Proof.
  revert fuel' s. induction fuel as [|fuel IH]; intros fuel' s L L'.
  - destruct fuel' as [|fuel']; [reflexivity|]. simpl. f_equal.
    induction (step s) as [|t l IHl]; simpl; [reflexivity|].
    destruct (Nat.ltb_spec (String.length t) (String.length s)); [lia|].
    exact IHl.
  - destruct fuel' as [|fuel'].
    + simpl. f_equal.
      induction (step s) as [|t l IHl]; simpl; [reflexivity|].
      destruct (Nat.ltb_spec (String.length t) (String.length s)); [lia|].
      exact IHl.
    + simpl. f_equal.
      induction (step s) as [|t l IHl]; simpl; [reflexivity|].
      rewrite IHl.
      destruct (Nat.ltb_spec (String.length t) (String.length s));
        [|reflexivity].
      f_equal. apply IH; lia.
Qed.

Lemma ends_le (r : regex) (s s' : string) :
  In s' (ends r s) -> String.length s' <= String.length s.
Proof.
  revert s s'. induction r as [p| | |r1 IH1 r2 IH2|r1 IH1 r2 IH2|r IH|r IH];
    intros s s'; cbn [ends].
  - intros H. destruct (firstStrip_length _ _ _ H) as (q & _ & L). lia.
  - destruct s as [|c s]; [simpl; tauto|]. destruct (isDigit c); simpl; [|tauto].
    intros [<-|[]]. lia.
  - intros H. destruct (firstStrip_length _ _ _ H) as (q & _ & L). lia.
  - rewrite in_flat_map. intros (t & Ht & Hs').
    specialize (IH1 _ _ Ht). specialize (IH2 _ _ Hs'). lia.
  - rewrite in_app_iff. intros [H|H]; eauto.
  - rewrite in_app_iff. intros [H|[<-|[]]]; eauto.
  - apply iterate_le.
Qed.

Lemma ends_consuming (r : regex) (s s' : string) :
  consuming r = true ->
  In s' (ends r s) -> String.length s' < String.length s.
Proof.
  revert s s'. induction r as [p| | |r1 IH1 r2 IH2|r1 IH1 r2 IH2|r IH|r IH];
    intros s s'; cbn [ends consuming]; try discriminate.
  - intros C H. destruct (firstStrip_length _ _ _ H) as (q & [<-|[]] & L).
    destruct p; [discriminate|]. simpl in L. lia.
  - intros _. destruct s as [|c s]; [simpl; tauto|].
    destruct (isDigit c); simpl; [|tauto].
    intros [<-|[]]. lia.
  - intros _ H. destruct (firstStrip_length _ _ _ H) as (q & Hq & L).
    apply whiteSpace_nonempty in Hq. lia.
  - rewrite in_flat_map. intros C (t & Ht & Hs').
    apply orb_true_iff in C. destruct C as [C|C].
    + specialize (IH1 _ _ C Ht). apply ends_le in Hs'. lia.
    + specialize (IH2 _ _ C Hs'). apply ends_le in Ht. lia.
  - rewrite in_app_iff. intros C. apply andb_true_iff in C. destruct C.
    intros [H'|H']; eauto.
Qed.

Lemma take_length (n : nat) (s : string) :
  String.length (take n s) = Nat.min n (String.length s).
Proof.
  revert s. induction n as [|n IH]; intros [|c s]; simpl; auto.
Qed.

Lemma exec_nonempty (r : regex) (s m : string) :
  consuming r = true -> exec r s = Some m -> m <> "".
Proof.
  unfold exec. intros C. destruct (ends r s) as [|rest l] eqn:E; [discriminate|].
  intros [= <-] Hm.
  assert (L : String.length rest < String.length s).
  { apply (ends_consuming r); [exact C|]. rewrite E. now left. }
  apply (f_equal String.length) in Hm. rewrite take_length in Hm.
  simpl in Hm. lia.
Qed.

Lemma matchAll_nonempty (r : regex) (skip : nat) (s m : string) :
  consuming r = true -> In m (matchAll r skip s) -> m <> "".
Proof.
  intros C. revert skip. induction s as [|c s IH]; intros skip; simpl.
  - destruct skip; [|tauto]. destruct (exec r "") as [m'|] eqn:E; [|tauto].
    intros [<-|[]]. now apply (exec_nonempty r "").
  - destruct skip as [|k]; [|apply IH].
    destruct (exec r (String c s)) as [m'|] eqn:E; [|apply IH].
    intros [<-|H]; [now apply (exec_nonempty r (String c s))|now apply (IH _ H)].
Qed.

(** The date pattern of [parseTravel] on a few inputs.  The first
    alternative comes first: it takes "2024" out of an ISO date before the
    second alternative is tried. *)
Example dates_korean :
  matchGlobal "강릉과 속초 7월 25일 7월 26일 7월 27일" ParseTravel.datePattern
  = ["7월 25일"; "7월 26일"; "7월 27일"].
Proof. reflexivity. Qed.

Example dates_iso_slash :
  matchGlobal "2024-07-25, 7/26" ParseTravel.datePattern
  = ["2024"; "07"; "25"; "7/26"].
Proof. reflexivity. Qed.

Example dates_single_numbers :
  matchGlobal "3박 4일, 2명" ParseTravel.datePattern = [].
Proof. reflexivity. Qed.

Example includes_city : includes "강릉과 속초" "속초" = true.
Proof. reflexivity. Qed.

(** *** Arrays with holes *)

Lemma assign_length {A : Type} (l : list (option A)) (i : nat) (v : A) :
  List.length (assign l i v) = Nat.max (List.length l) (S i).
Proof.
  revert l. induction i as [|i IH]; intros [|x l]; simpl;
    try rewrite IH; simpl; lia.
Qed.

Lemma get_assign_same {A : Type} (l : list (option A)) (i : nat) (v : A) :
  get (assign l i v) i = Some v.
Proof.
  unfold get. revert l. induction i as [|i IH]; intros [|x l]; simpl; auto.
Qed.

Lemma get_nil {A : Type} (j : nat) : get (@nil (option A)) j = None.
Proof. unfold get. now destruct j. Qed.

Lemma get_assign_other {A : Type} (l : list (option A)) (i j : nat) (v : A) :
  i <> j -> get (assign l i v) j = get l j.
Proof.
  unfold get. revert l j. induction i as [|i IH]; intros [|x l] [|j] N;
    simpl; try congruence; try reflexivity.
  - now destruct j.
  - specialize (IH [] j). simpl in IH.
    rewrite IH by congruence. now destruct j.
  - apply IH. congruence.
Qed.

(** *** Random numbers *)

Lemma sample_bounds (u : unit01) : (0 <= sample u)%Q /\ (sample u < 1)%Q.
Proof.
  destruct u as [q H]. simpl. apply andb_true_iff in H. destruct H as [H0 H1].
  split.
  - now apply Qle_bool_iff.
  - apply Qnot_le_lt. intros L. apply Qle_bool_iff in L.
    rewrite L in H1. discriminate.
Qed.

Lemma random_floor2 (g : rng) :
  Z.to_nat (floor (fst (random g) * 2)%Q) <= 1.
Proof.
  unfold random, floor. cbn [fst].
  destruct (sample_bounds (g 0)) as [L U].
  assert (H : (Qfloor (sample (g 0%nat) * 2)%Q < 2)%Z).
  { rewrite Zlt_Qlt. apply Qle_lt_trans with (sample (g 0%nat) * 2)%Q.
    - apply Qfloor_le.
    - change (inject_Z 2) with (1 * 2)%Q. apply Qmult_lt_compat_r; [reflexivity|exact U]. }
  lia.
Qed.

(** *** Sorting *)

Lemma insertBack_permutes {A : Type} (cmp : A -> A -> Rand Q) (x : A)
    (before : list A) (g : rng) :
  Permutation (fst (insertBack cmp x before g)) (x :: before).
Proof.
  revert g. induction before as [|y before IH]; intros g; simpl.
  - reflexivity.
  - unfold bindR. destruct (cmp y x g) as [order g1].
    destruct (Qle_bool order 0); simpl.
    + reflexivity.
    + specialize (IH g1). destruct (insertBack cmp x before g1) as [l g2].
      simpl in *. rewrite IH. apply perm_swap.
Qed.

Lemma insertionSortFrom_permutes {A : Type} (cmp : A -> A -> Rand Q)
    (before l : list A) (g : rng) :
  Permutation (fst (insertionSortFrom cmp before l g)) (before ++ l).
Proof.
  revert before g. induction l as [|x l IH]; intros before g; simpl.
  - rewrite app_nil_r. symmetry. apply Permutation_rev.
  - unfold bindR. pose proof (insertBack_permutes cmp x before g) as P.
    destruct (insertBack cmp x before g) as [before' g1]. simpl in P.
    rewrite IH, P. simpl. apply Permutation_middle.
Qed.

Lemma insertionSort_permutes (A : Type) (cmp : A -> A -> Rand Q)
    (l : list A) (g : rng) :
  Permutation (fst (insertionSort cmp l g)) l.
Proof. apply (insertionSortFrom_permutes cmp [] l g). Qed.

(** *** Doubles *)

Lemma pow2_pos (e : Z) : (0 < pow2 e)%Q.
Proof. apply Qpower_0_lt. reflexivity. Qed.

Lemma pow2_le (a b : Z) : (a <= b)%Z -> (pow2 a <= pow2 b)%Q.
Proof. intros H. apply Qpower_le_compat_l; [exact H|discriminate]. Qed.

Lemma pow2_plus (a b : Z) : (pow2 (a + b) == pow2 a * pow2 b)%Q.
Proof. apply Qpower_plus. discriminate. Qed.

Lemma roundEven_error (x : Q) :
  (Qabs (inject_Z (roundEven x) - x) <= 1 # 2)%Q.
Proof.
  unfold roundEven.
  pose proof (Qfloor_le x) as L. pose proof (Qlt_floor x) as U.
  rewrite inject_Z_plus in U. change (inject_Z 1) with 1%Q in U.
  apply Qabs_Qle_condition.
  destruct (Qcompare_spec (x - inject_Z (Qfloor x)) (1 # 2)) as [E|E|E].
  - destruct (Z.even (Qfloor x)); rewrite ?inject_Z_plus;
      change (inject_Z 1) with 1%Q; split; lra.
  - split; lra.
  - rewrite inject_Z_plus. change (inject_Z 1) with 1%Q. split; lra.
Qed.

(** [ilog2] does not overshoot. *)
Lemma ilog2_le (x : Q) (m : Z) :
  (0 < x)%Q -> (x <= pow2 m)%Q -> (ilog2 x <= m)%Z.
Proof.
  intros P H. unfold ilog2.
  set (la := Z.log2 (Qnum x)). set (lb := Z.log2 (Z.pos (Qden x))).
  destruct (Qle_bool (pow2 (la - lb)) x) eqn:T.
  - apply Qle_bool_iff in T.
    apply (Qpower_le_compat_l_inv 2); [|reflexivity].
    fold (pow2 (la - lb)) (pow2 m). lra.
  - assert (N : (0 < Qnum x)%Z).
    { destruct x as [a b]. unfold Qlt in P. simpl in *. lia. }
    destruct (Z.log2_spec (Qnum x) N) as [A _].
    destruct (Z.log2_spec (Z.pos (Qden x)) eq_refl) as [_ B].
    fold la in A. fold lb in B.
    assert (La : (0 <= la)%Z) by apply Z.log2_nonneg.
    assert (Lb : (0 <= lb)%Z) by apply Z.log2_nonneg.
    assert (S : (pow2 (la - lb - 1) < x)%Q).
    { assert (QA : (pow2 la <= inject_Z (Qnum x))%Q).
      { unfold pow2. rewrite <- (Zpower_Qpower 2 la La).
        rewrite <- Zle_Qle. exact A. }
      assert (QB : (inject_Z (Z.pos (Qden x)) < pow2 (lb + 1))%Q).
      { unfold pow2. rewrite <- (Zpower_Qpower 2 (lb + 1)) by lia.
        rewrite <- Zlt_Qlt. exact B. }
      assert (D : (x == inject_Z (Qnum x) / inject_Z (Z.pos (Qden x)))%Q).
      { destruct x as [a b]. apply Qmake_Qdiv. }
      rewrite D. apply Qlt_shift_div_l; [reflexivity|].
      pose proof (pow2_plus (la - lb - 1) (lb + 1)) as Pl.
      replace (la - lb - 1 + (lb + 1))%Z with la in Pl by lia.
      pose proof (pow2_pos (la - lb - 1)) as Pp.
      apply Qlt_le_trans with (pow2 (la - lb - 1) * pow2 (lb + 1))%Q.
      - apply Qmult_lt_l; assumption.
      - rewrite <- Pl. exact QA. }
    assert (S' : (pow2 (la - lb - 1) < pow2 m)%Q) by lra.
    apply Qpower_lt_compat_l_inv in S'; [lia|reflexivity].
Qed.

(** Rounding moves a number of magnitude at most [2^m] by at most half the
    spacing of the doubles below [2^m]. *)
Lemma double_error (x : Q) (m : Z) :
  (Qabs x <= pow2 m)%Q -> (-1022 <= m)%Z ->
  (Qabs (double x - x) <= pow2 (m - 53))%Q.
Proof.
  intros H M.
  destruct (Qeq_dec x 0) as [Z0|NZ].
  - assert (D : double x = 0%Q).
    { unfold double. destruct x as [a b]. unfold Qeq in Z0. simpl in *.
      now replace a with 0%Z by lia. }
    rewrite D, Z0. pose proof (pow2_pos (m - 53)).
    apply Qabs_Qle_condition. split; lra.
  - assert (D : (double x
                 == inject_Z
                      (roundEven
                         (x / pow2 (Z.max (ilog2 (Qabs x)) (-1022) - 52)))
                    * pow2 (Z.max (ilog2 (Qabs x)) (-1022) - 52))%Q).
    { unfold double. destruct (Qnum x) eqn:N.
      - destruct NZ. destruct x as [a b]. unfold Qeq. simpl in *. lia.
      - apply Qred_correct.
      - apply Qred_correct. }
    rewrite D. clear D.
    set (e := Z.max (ilog2 (Qabs x)) (-1022)).
    set (ulp := pow2 (e - 52)).
    assert (P : (0 < Qabs x)%Q).
    { pose proof (Qabs_nonneg x). destruct (Qeq_dec (Qabs x) 0) as [A|A].
      - destruct NZ. revert A. apply Qabs_case; intros; lra.
      - lra. }
    assert (Ee : (e <= m)%Z).
    { apply Z.max_lub; [now apply ilog2_le|exact M]. }
    assert (U : (0 < ulp)%Q) by apply pow2_pos.
    pose proof (roundEven_error (x / ulp)) as R.
    set (n := inject_Z (roundEven (x / ulp))) in *.
    assert (F : (n * ulp - x == (n - x / ulp) * ulp)%Q) by (field; lra).
    rewrite F, Qabs_Qmult, (Qabs_pos ulp) by lra.
    assert (Hf : (pow2 (e - 53) == (1 # 2) * ulp)%Q).
    { replace (e - 53)%Z with (-1 + (e - 52))%Z by lia.
      rewrite pow2_plus. reflexivity. }
    pose proof (pow2_le (e - 53) (m - 53) ltac:(lia)) as Mo.
    apply Qle_trans with ((1 # 2) * ulp)%Q; [|lra].
    apply Qmult_le_compat_r; lra.
Qed.

(** The doubles of some literals and sums, as a browser prints them:
    [0.1 + 0.2] is 0.30000000000000004, 2^53 + 1 is 2^53,
    and 1/3 is 6004799503160661 / 2^54. *)
Example double_tenth_and_fifth :
  fadd (number (1 # 10)) (number (2 # 10))
  = (1351079888211149 # 4503599627370496)%Q
  /\ ((3 # 10) < fadd (number (1 # 10)) (number (2 # 10)))%Q
  /\ number (3 # 10) = (5404319552844595 # 18014398509481984)%Q.
Proof. now vm_compute. Qed.

Example double_ties_to_even :
  number 9007199254740993 = 9007199254740992%Q
  /\ number 9007199254740995 = 9007199254740996%Q
  /\ number (1 # 3) = (6004799503160661 # 18014398509481984)%Q
  /\ number (-1 # 3) = (-6004799503160661 # 18014398509481984)%Q.
Proof. now vm_compute. Qed.

(** A double is its own nearest double: rounding again changes nothing. *)
Example double_of_a_double :
  number (number (2 # 100)) = number (2 # 100)
  /\ number (number (126978 # 1000)) = number (126978 # 1000)
  /\ number (number (1 # 3)) = number (1 # 3).
Proof. now vm_compute. Qed.

(** [c + (r - 0.5) * 0.02] stays within a hundredth of [c], up to what
    four roundings add when [c] is a number of degrees. *)
Lemma jitter_error (c r : Q) :
  (Qabs c <= 180)%Q -> (0 <= r)%Q -> (r < 1)%Q ->
  (Qabs (fadd (number c) (fmul (fsub r (1 # 2)) (number (2 # 100))) - c)
   <= (1 # 100) + (1 # 1000000000000))%Q.
Proof.
  intros Hc L U. unfold fadd, fmul, fsub, number.
  pose proof (double_error c 8) as E1.
  pose proof (double_error (r - (1 # 2)) (-1)) as E2.
  set (c' := double c) in *. set (t1 := double (r - (1 # 2))) in *.
  set (k := double (2 # 100)).
  assert (K : (k == 5764607523034235 # 288230376151711744)%Q)
    by (vm_compute; reflexivity).
  pose proof (double_error (t1 * k) (-5)) as E3.
  set (t2 := double (t1 * k)) in *.
  pose proof (double_error (c' + t2) 8) as E4.
  set (s := double (c' + t2)) in *.
  change (pow2 8) with 256%Q in *.
  change (pow2 (8 - 53)) with (1 # 35184372088832)%Q in *.
  change (pow2 (-1)) with (1 # 2)%Q in *.
  change (pow2 (-1 - 53)) with (1 # 18014398509481984)%Q in *.
  change (pow2 (-5)) with (1 # 32)%Q in *.
  change (pow2 (-5 - 53)) with (1 # 288230376151711744)%Q in *.
  rewrite Qabs_Qle_condition in *.
  assert (A1 : (- (1 # 35184372088832) <= c' - c <= 1 # 35184372088832)%Q)
    by (apply Qabs_Qle_condition, E1; [split; lra|lia]).
  assert (A2 : (- (1 # 18014398509481984) <= t1 - (r - (1 # 2))
                <= 1 # 18014398509481984)%Q)
    by (apply Qabs_Qle_condition, E2; [split; lra|lia]).
  assert (B : (- (1 # 90) <= t1 * k <= 1 # 90)%Q).
  { rewrite K. split; lra. }
  assert (A3 : (- (1 # 288230376151711744) <= t2 - t1 * k
                <= 1 # 288230376151711744)%Q)
    by (apply Qabs_Qle_condition, E3; [split; lra|lia]).
  assert (A4 : (- (1 # 35184372088832) <= s - (c' + t2)
                <= 1 # 35184372088832)%Q)
    by (apply Qabs_Qle_condition, E4; [split; lra|lia]).
  rewrite K in A3. split; lra.
Qed.

End JsFacts.

(* ------------------------------------------------------------------ *)
(** ** A host, a catalog and inputs to run the model on                *)
(* ------------------------------------------------------------------ *)

Module Sample.
Import Js.

Definition insertionHost : Host :=
  {| sort := @insertionSort;
     sort_permutes := JsFacts.insertionSort_permutes |}.

Definition quarter : unit01 := Unit01 (1 # 4)%Q eq_refl.
Definition threeQuarters : unit01 := Unit01 (3 # 4)%Q eq_refl.

(** [Math.random()] answering 0.25, 0.75, 0.25, 0.75, ... *)
Definition alternating : rng :=
  fun n => if Nat.even n then quarter else threeQuarters.

(** The [cities] table as the earlier, single-file version of the page
    ([YH_ver/script.js]) spells it out; 강릉 is its element 3.  The
    [attractions] entries are illustrative: 강릉 has an entry, the other
    cities have none. *)
Definition cities : list City.t :=
  [ City.Make "서울" (375665 # 10000)%Q (126978 # 1000)%Q;
    City.Make "부산" (351796 # 10000)%Q (1290756 # 10000)%Q;
    City.Make "제주도" (334996 # 10000)%Q (1265312 # 10000)%Q;
    City.Make "강릉" (377519 # 10000)%Q (1288761 # 10000)%Q;
    City.Make "속초" (38207 # 1000)%Q (1285918 # 10000)%Q;
    City.Make "양양" (380754 # 10000)%Q (128619 # 1000)%Q;
    City.Make "전주" (358242 # 10000)%Q (127148 # 1000)%Q;
    City.Make "경주" (358562 # 10000)%Q (1292247 # 10000)%Q;
    City.Make "여수" (347604 # 10000)%Q (1276622 # 10000)%Q ].

Definition catalog : Catalog.t :=
  {| Catalog.cities := cities;
     Catalog.attractions :=
       [ ("강릉",
          CityData.Make
            ["경포해변"; "오죽헌"; "안목해변"; "정동진"; "강릉 커피거리"]
            ["초당순두부"; "중앙시장 닭강정"]) ] |}.

(** A catalog whose [cities] table has fewer than four elements. *)
Definition shortCatalog : Catalog.t :=
  {| Catalog.cities := firstn 2 cities; Catalog.attractions := [] |}.

End Sample.

(* ------------------------------------------------------------------ *)
(** ** Properties of the synthesizer                                   *)
(* ------------------------------------------------------------------ *)

Module ParseTravelFacts.
Import Js ParseTravel.

(** The names of the attractions and of the food stops of a day, in the
    order of its [locations]. *)
Definition spotNames (d : Day.t) : list string :=
  map Loc.name (filter (fun l => negb (isFood (Loc.type l))) (Day.locations d)).

Definition foodNames (d : Day.t) : list string :=
  map Loc.name (filter (fun l => isFood (Loc.type l)) (Day.locations d)).

(** [selected] was drawn from [pool] without replacement. *)
Definition drawnFrom (selected pool : list string) : Prop :=
  exists rest, Permutation (selected ++ rest) pool.

(** What the loop body for [i] establishes about the day it pushes. *)
Record generated (catalog : Catalog.t) (detectedCities : list City.t)
    (dates : list string) (i : nat) (d : Day.t) : Prop := {
  gen_city :
    exists c, nth_error detectedCities (i mod List.length detectedCities) = Some c
              /\ Day.city d = City.name c;
  gen_day : Day.day d = i + 1;
  gen_date : Day.date d = dateOrLabel dates i;
  gen_stats : Day.distance d = 0%Q /\ Day.duration d = 0%Q;
  gen_spots :
    let pool := CityData.spots (cityDataOf catalog (Day.city d)) in
    Nat.min (List.length pool) 2 <= List.length (spotNames d)
      <= Nat.min (List.length pool) 3
    /\ drawnFrom (spotNames d) pool;
  gen_foods :
    let pool := CityData.foods (cityDataOf catalog (Day.city d)) in
    Nat.min (List.length pool) 1 <= List.length (foodNames d)
      <= Nat.min (List.length pool) 2
    /\ drawnFrom (foodNames d) pool
}.

Section WithHost.
Variable host : Host.

Lemma randomCount_range (base : nat) (g : rng) :
  base <= fst (randomCount base g) <= base + 1.
Proof.
  unfold randomCount, bindR, retR.
  pose proof (JsFacts.random_floor2 g) as H.
  destruct (random g) as [r g']. simpl in *. lia.
Qed.

Lemma getRandomItems_spec {A : Type} (arr : list A) (count : nat) (g : rng) :
  List.length (fst (getRandomItems host arr count g))
    = Nat.min count (List.length arr)
  /\ exists rest, Permutation (fst (getRandomItems host arr count g) ++ rest) arr.
Proof.
  unfold getRandomItems, bindR, retR.
  pose proof (sort_permutes host A
                (fun _ _ g => let (r, g') := random g in ((1 # 2) - r, g')%Q)
                arr g) as P.
  destruct (sort host A _ arr g) as [shuffled g']. simpl in *.
  split.
  - rewrite length_firstn. now rewrite (Permutation_length P).
  - exists (skipn count shuffled). now rewrite firstn_skipn.
Qed.

Lemma makeLocation_spec (c : City.t) (t : LocType) (hour : nat)
    (minutes name : string) (idx : nat) (g : rng) :
  let l := fst (makeLocation c t hour minutes name idx g) in
  Loc.name l = name /\ Loc.type l = t /\ Loc.city l = City.name c.
Proof. now unfold makeLocation, bindR, retR, random. Qed.

Lemma mapiR_makeLocation (c : City.t) (t : LocType) (hour : nat)
    (minutes : string) (names : list string) (i : nat) (g : rng) :
  let ls := fst (mapiR (makeLocation c t hour minutes) i names g) in
  map Loc.name ls = names /\ Forall (fun l => Loc.type l = t) ls.
Proof.
  revert i g. induction names as [|n names IH]; intros i g; simpl.
  - split; [reflexivity|constructor].
  - unfold bindR, retR.
    pose proof (makeLocation_spec c t hour minutes n i g) as (Hn & Ht & _).
    destruct (makeLocation c t hour minutes n i g) as [y g1].
    specialize (IH (S i) g1).
    destruct (mapiR (makeLocation c t hour minutes) (S i) names g1) as [ys g2].
    simpl in *. destruct IH as [IH1 IH2]. split.
    + now rewrite Hn, IH1.
    + constructor; [exact Ht|exact IH2].
Qed.

Lemma Permutation_filter {A : Type} (f : A -> bool) (l l' : list A) :
  Permutation l l' -> Permutation (filter f l) (filter f l').
Proof.
  induction 1 as [|x l l' _ IH|x y l|l l' l'' _ IH1 _ IH2]; simpl.
  - constructor.
  - destruct (f x); [now constructor|exact IH].
  - destruct (f x), (f y); try reflexivity. apply perm_swap.
  - now transitivity (filter f l').
Qed.

Lemma filter_all {A : Type} (f : A -> bool) (l : list A) :
  Forall (fun x => f x = true) l -> filter f l = l.
Proof.
  induction 1 as [|x l H _ IH]; simpl; [reflexivity|]. now rewrite H, IH.
Qed.

Lemma filter_none {A : Type} (f : A -> bool) (l : list A) :
  Forall (fun x => f x = false) l -> filter f l = [].
Proof.
  induction 1 as [|x l H _ IH]; simpl; [reflexivity|]. now rewrite H.
Qed.

Lemma names_of_kind (keep : Loc.t -> bool) (locations mine others : list Loc.t) :
  Permutation locations (mine ++ others) ->
  Forall (fun l => keep l = true) mine ->
  Forall (fun l => keep l = false) others ->
  Permutation (map Loc.name (filter keep locations)) (map Loc.name mine).
Proof.
  intros P Hm Ho. apply Permutation_map.
  rewrite (Permutation_filter keep _ _ P), filter_app.
  rewrite (filter_all _ _ Hm), (filter_none _ _ Ho), app_nil_r. reflexivity.
Qed.

Lemma drawnFrom_length (selected chosen pool : list string) (count : nat) :
  Permutation selected chosen ->
  List.length chosen = Nat.min count (List.length pool) ->
  (exists rest, Permutation (chosen ++ rest) pool) ->
  List.length selected = Nat.min count (List.length pool)
  /\ drawnFrom selected pool.
Proof.
  intros P L [rest D]. split.
  - now rewrite (Permutation_length P).
  - exists rest. now rewrite P.
Qed.

Lemma generateDay_spec (catalog : Catalog.t) (detectedCities : list City.t)
    (dates : list string) (i : nat) (g : rng) (c : City.t) :
  nth_error detectedCities (i mod List.length detectedCities) = Some c ->
  exists d g',
    generateDay host catalog detectedCities dates i g = (Normal d, g')
    /\ generated catalog detectedCities dates i d.
Proof.
  intros Hc. unfold generateDay. rewrite Hc. unfold lift, bindR.
  set (data := cityDataOf catalog (City.name c)).
  pose proof (randomCount_range 2 g) as R2.
  destruct (randomCount 2 g) as [n2 g1].
  pose proof (randomCount_range 1 g1) as R1.
  destruct (randomCount 1 g1) as [n1 g2]. simpl in R1, R2.
  match goal with |- context [getRandomItems host ?arr ?n g2] =>
    pose proof (getRandomItems_spec arr n g2) as [LS DS];
    destruct (getRandomItems host arr n g2) as [chosenSpots g3] end.
  pose proof (mapiR_makeLocation c spot 9 ":00" chosenSpots 0 g3) as [NS TS].
  destruct (mapiR (makeLocation c spot 9 ":00") 0 chosenSpots g3) as [spots g4].
  match goal with |- context [getRandomItems host ?arr ?n g4] =>
    pose proof (getRandomItems_spec arr n g4) as [LF DF];
    destruct (getRandomItems host arr n g4) as [chosenFoods g5] end.
  pose proof (mapiR_makeLocation c food 11 ":30" chosenFoods 0 g5) as [NF TF].
  destruct (mapiR (makeLocation c food 11 ":30") 0 chosenFoods g5) as [foods g6].
  match goal with |- context [sort host Loc.t ?cmp ?l g6] =>
    pose proof (sort_permutes host Loc.t cmp l g6) as PL;
    destruct (sort host Loc.t cmp l g6) as [locations g7] end.
  unfold retR. simpl in *. eexists. eexists. split; [reflexivity|].
  assert (PS : Permutation
                 (map Loc.name
                    (filter (fun l => negb (isFood (Loc.type l))) locations))
                 chosenSpots).
  { rewrite <- NS. apply (names_of_kind _ locations spots foods PL).
    - eapply Forall_impl; [|exact TS]. intros l ->. reflexivity.
    - eapply Forall_impl; [|exact TF]. intros l ->. reflexivity. }
  assert (PF : Permutation
                 (map Loc.name
                    (filter (fun l => isFood (Loc.type l)) locations))
                 chosenFoods).
  { rewrite <- NF.
    apply (names_of_kind _ locations foods spots).
    - rewrite PL. apply Permutation_app_comm.
    - eapply Forall_impl; [|exact TF]. intros l ->. reflexivity.
    - eapply Forall_impl; [|exact TS]. intros l ->. reflexivity. }
  constructor; unfold spotNames, foodNames; simpl; fold data.
  - exists c. now split.
  - reflexivity.
  - reflexivity.
  - split; reflexivity.
  - destruct (drawnFrom_length _ _ _ _ PS LS DS) as [L D].
    split; [rewrite L; lia|exact D].
  - destruct (drawnFrom_length _ _ _ _ PF LF DF) as [L D].
    split; [rewrite L; lia|exact D].
Qed.

Lemma round_robin_defined (detectedCities : list City.t) (i : nat) :
  detectedCities <> [] ->
  exists c,
    nth_error detectedCities (i mod List.length detectedCities) = Some c.
Proof.
  intros N.
  destruct (nth_error detectedCities (i mod List.length detectedCities))
    as [c|] eqn:E; [now exists c|].
  apply nth_error_None in E.
  assert (List.length detectedCities <> 0) by (destruct detectedCities; simpl; congruence).
  pose proof (Nat.mod_upper_bound i (List.length detectedCities)). lia.
Qed.

Lemma generateDays_spec (catalog : Catalog.t) (detectedCities : list City.t)
    (dates : list string) (todo : list nat) (itinerary : list Day.t) (g : rng) :
  detectedCities <> [] ->
  exists ds g',
    generateDays host catalog detectedCities dates todo itinerary g
      = (Normal (itinerary ++ ds), g')
    /\ Forall2 (generated catalog detectedCities dates) todo ds.
Proof.
  intros N. revert itinerary g.
  induction todo as [|i todo IH]; intros itinerary g; simpl.
  - exists [], g. rewrite app_nil_r. split; [reflexivity|constructor].
  - destruct (round_robin_defined detectedCities i N) as [c Hc].
    destruct (generateDay_spec catalog detectedCities dates i g c Hc)
      as (d & g1 & E & G).
    unfold bind. rewrite E.
    destruct (IH (itinerary ++ [d]) g1) as (ds & g2 & E2 & F).
    exists (d :: ds), g2. rewrite E2, <- app_assoc. simpl.
    split; [reflexivity|now constructor].
Qed.

Lemma Forall2_nth_error {A B : Type} (R : A -> B -> Prop) (l : list A)
    (l' : list B) (i : nat) (b : B) :
  Forall2 R l l' -> nth_error l' i = Some b ->
  exists a, nth_error l i = Some a /\ R a b.
Proof.
  intros F. revert i. induction F as [|x y l l' H _ IH]; intros [|i]; simpl;
    try discriminate.
  - intros [= <-]. now exists x.
  - apply IH.
Qed.

(** The dates in effect are at least two. *)
Lemma detectDates_length (input : string) :
  2 <= List.length (detectDates input).
Proof.
  unfold detectDates.
  destruct (Nat.ltb_spec (List.length (matchGlobal input datePattern)) 2);
    simpl; lia.
Qed.

Lemma maxDays_bounds (dates : list string) (detectedCities : list City.t) :
  2 <= List.length dates ->
  2 <= maxDays dates detectedCities <= List.length dates.
Proof.
  unfold maxDays. destruct (1 <? List.length detectedCities); lia.
Qed.

(** The cities the loop runs over, when the [try] block gets that far. *)
Definition effectiveCities (catalog : Catalog.t) (input : string)
  : option (list City.t) :=
  match detectCities (Catalog.cities catalog) input with
  | [] => option_map (fun c => [c]) (nth_error (Catalog.cities catalog) 3)
  | detected => Some detected
  end.

Lemma effectiveCities_nonempty (catalog : Catalog.t) (input : string)
    (detectedCities : list City.t) :
  effectiveCities catalog input = Some detectedCities -> detectedCities <> [].
Proof.
  unfold effectiveCities.
  destruct (detectCities (Catalog.cities catalog) input) as [|c l].
  - destruct (nth_error (Catalog.cities catalog) 3); simpl; [|discriminate].
    intros [= <-]. discriminate.
  - intros [= <-]. discriminate.
Qed.

Lemma detectedOrDefault_spec (catalog : Catalog.t) (input : string) (g : rng) :
  detectedOrDefault (Catalog.cities catalog) input g
  = (match effectiveCities catalog input with
     | Some detected => Normal detected
     | None => Throw TypeError
     end, g).
Proof.
  unfold detectedOrDefault, effectiveCities.
  destruct (detectCities (Catalog.cities catalog) input) as [|c l];
    [|reflexivity].
  now destruct (nth_error (Catalog.cities catalog) 3).
Qed.

(** The [try] block throws exactly when no city was detected and the
    table has no element 3; otherwise it returns one generated day for
    each [i] below [maxDays]. *)
Lemma parseTravelTry_throws (catalog : Catalog.t) (input : string) (g : rng) :
  effectiveCities catalog input = None ->
  parseTravelTry host catalog input g = (Throw TypeError, g).
Proof.
  intros E. unfold parseTravelTry, bind.
  now rewrite detectedOrDefault_spec, E.
Qed.

Lemma parseTravelTry_returns (catalog : Catalog.t) (input : string) (g : rng)
    (detectedCities : list City.t) :
  effectiveCities catalog input = Some detectedCities ->
  exists ds g',
    parseTravelTry host catalog input g
      = (Normal {| Itinerary.cities := detectedCities;
                   Itinerary.primaryCity := nth_error detectedCities 0;
                   Itinerary.itinerary := ds |}, g')
    /\ Forall2 (generated catalog detectedCities (detectDates input))
         (seq 0 (maxDays (detectDates input) detectedCities)) ds.
Proof.
  intros E. unfold parseTravelTry, bind.
  rewrite detectedOrDefault_spec, E.
  pose proof (effectiveCities_nonempty _ _ _ E) as N.
  destruct (generateDays_spec catalog detectedCities (detectDates input)
              (seq 0 (maxDays (detectDates input) detectedCities)) [] g N)
    as (ds & g' & E2 & F).
  rewrite E2. simpl. exists ds, g'. split; [|exact F].
  pose proof (Forall2_length F) as L. rewrite length_seq in L.
  pose proof (maxDays_bounds (detectDates input) detectedCities
                (detectDates_length input)) as B.
  destruct (Nat.eqb_spec (List.length ds) 0); [lia|reflexivity].
Qed.

Lemma parseTravelTry_cases (catalog : Catalog.t) (input : string) (g : rng)
    (r : Itinerary.t) (g' : rng) :
  parseTravelTry host catalog input g = (Normal r, g') ->
  exists detectedCities,
    effectiveCities catalog input = Some detectedCities
    /\ Itinerary.cities r = detectedCities
    /\ Forall2 (generated catalog detectedCities (detectDates input))
         (seq 0 (maxDays (detectDates input) detectedCities))
         (Itinerary.itinerary r).
Proof.
  intros E. destruct (effectiveCities catalog input) as [detected|] eqn:C.
  - destruct (parseTravelTry_returns catalog input g detected C)
      as (ds & g1 & E1 & F).
    rewrite E1 in E. injection E as <- _. exists detected. now repeat split.
  - rewrite (parseTravelTry_throws catalog input g C) in E. discriminate.
Qed.

Lemma detectDates_nonempty (input d : string) :
  In d (detectDates input) -> d <> "".
Proof.
  unfold detectDates.
  destruct (List.length (matchGlobal input datePattern) <? 2).
  - simpl. intros [<-|[<-|[<-|[<-|[<-|[]]]]]]; discriminate.
  - apply JsFacts.matchAll_nonempty. reflexivity.
Qed.

Lemma dateOrLabel_defined (dates : list string) (i : nat) :
  (forall d, In d dates -> d <> "") -> i < List.length dates ->
  nth_error dates i = Some (dateOrLabel dates i).
Proof.
  intros N L. unfold dateOrLabel.
  destruct (nth_error dates i) as [d|] eqn:E.
  - destruct (String.eqb_spec d ""); [|reflexivity].
    exfalso. apply (N d); [|assumption]. eapply nth_error_In; eassumption.
  - apply nth_error_None in E. lia.
Qed.

Lemma nth_error_seq0 (n i a : nat) :
  nth_error (seq 0 n) i = Some a -> a = i /\ i < n.
Proof.
  rewrite nth_error_seq. destruct (Nat.ltb_spec i n); [|discriminate].
  intros [= <-]. split; [reflexivity|assumption].
Qed.

(** The days of a successful run, by position. *)
Lemma generated_at (catalog : Catalog.t) (detectedCities : list City.t)
    (dates : list string) (n : nat) (ds : list Day.t) (i : nat) (d : Day.t) :
  Forall2 (generated catalog detectedCities dates) (seq 0 n) ds ->
  nth_error ds i = Some d ->
  generated catalog detectedCities dates i d /\ i < n.
Proof.
  intros F E. destruct (Forall2_nth_error _ _ _ _ _ F E) as (a & Ha & G).
  apply nth_error_seq0 in Ha. destruct Ha as [-> L]. now split.
Qed.

Lemma filter_split_length {A : Type} (f : A -> bool) (l : list A) :
  List.length l
  = List.length (filter (fun x => negb (f x)) l) + List.length (filter f l).
Proof.
  induction l as [|x l IH]; simpl; [reflexivity|].
  destruct (f x); simpl; lia.
Qed.

Lemma locations_length (d : Day.t) :
  List.length (Day.locations d)
  = List.length (spotNames d) + List.length (foodNames d).
Proof.
  unfold spotNames, foodNames. rewrite !length_map.
  apply (filter_split_length (fun l => isFood (Loc.type l))).
Qed.

(** *** The claims about [parseTravel] *)

(** Claim C4, as the code has it.  An input that names no city of the
    table and holds no date yields three days, not one: the five default
    dates are capped at three for a single city.  With 강릉 as element 3
    of the table, every day is in 강릉 and the days carry the first three
    default dates in order. *)
Theorem parseTravel_no_tokens (catalog : Catalog.t) (input : string)
    (g : rng) (c : City.t) :
  detectCities (Catalog.cities catalog) input = [] ->
  matchGlobal input datePattern = [] ->
  nth_error (Catalog.cities catalog) 3 = Some c ->
  City.name c = "강릉" ->
  let r := parseTravel host catalog input g in
  Itinerary.cities r = [c]
  /\ map Day.city (Itinerary.itinerary r) = ["강릉"; "강릉"; "강릉"]
  /\ map Day.date (Itinerary.itinerary r) = firstn 3 defaultDates.
Proof.
  intros HC HD H3 Hn r.
  assert (E : effectiveCities catalog input = Some [c]).
  { unfold effectiveCities. now rewrite HC, H3. }
  destruct (parseTravelTry_returns catalog input g [c] E) as (ds & g' & T & F).
  assert (R : r = {| Itinerary.cities := [c];
                     Itinerary.primaryCity := nth_error [c] 0;
                     Itinerary.itinerary := ds |}).
  { unfold r, parseTravel. now rewrite T. }
  rewrite R. simpl. split; [reflexivity|].
  assert (DD : detectDates input = defaultDates).
  { unfold detectDates. now rewrite HD. }
  rewrite DD in F. change (maxDays defaultDates [c]) with 3 in F.
  simpl in F.
  inversion F as [|i0 d0 t0 ds0 G0 F0]; subst.
  inversion F0 as [|i1 d1 t1 ds1 G1 F1]; subst.
  inversion F1 as [|i2 d2 t2 ds2 G2 F2]; subst.
  inversion F2; subst. simpl.
  destruct G0 as [(c0 & C0 & N0) _ D0 _ _ _].
  destruct G1 as [(c1 & C1 & N1) _ D1 _ _ _].
  destruct G2 as [(c2 & C2 & N2) _ D2 _ _ _].
  simpl in C0, C1, C2.
  injection C0 as <-. injection C1 as <-. injection C2 as <-.
  rewrite N0, N1, N2, D0, D1, D2, Hn. split; reflexivity.
Qed.

(** Claim C5.  When the input names at least one city of the table and
    holds at least two dates, the itinerary has min(number of dates, 5 if
    more than one city was detected, else 3) days, and day [i] is in the
    detected city number [i mod count], the detected cities being in the
    order of the table. *)
Theorem parseTravel_day_count_round_robin (catalog : Catalog.t)
    (input : string) (g : rng) :
  let detected := detectCities (Catalog.cities catalog) input in
  let dates := matchGlobal input datePattern in
  detected <> [] ->
  2 <= List.length dates ->
  let r := parseTravel host catalog input g in
  Itinerary.cities r = detected
  /\ List.length (Itinerary.itinerary r)
     = Nat.min (List.length dates) (if 1 <? List.length detected then 5 else 3)
  /\ forall i d,
       nth_error (Itinerary.itinerary r) i = Some d ->
       exists c, nth_error detected (i mod List.length detected) = Some c
                 /\ Day.city d = City.name c.
Proof.
  intros detected dates HC HD r.
  assert (E : effectiveCities catalog input = Some detected).
  { unfold effectiveCities. fold detected. destruct detected; congruence. }
  destruct (parseTravelTry_returns catalog input g detected E)
    as (ds & g' & T & F).
  assert (R : r = {| Itinerary.cities := detected;
                     Itinerary.primaryCity := nth_error detected 0;
                     Itinerary.itinerary := ds |}).
  { unfold r, parseTravel. now rewrite T. }
  assert (DD : detectDates input = dates).
  { unfold detectDates. fold dates.
    destruct (Nat.ltb_spec (List.length dates) 2); [lia|reflexivity]. }
  rewrite DD in F. rewrite R. simpl. split; [reflexivity|]. split.
  - rewrite <- (Forall2_length F), length_seq. reflexivity.
  - intros i d Hd. destruct (generated_at _ _ _ _ _ _ _ F Hd) as [G _].
    exact (gen_city _ _ _ _ _ G).
Qed.

(** Claim C6, as the code has it.  Every itinerary [parseTravel] returns,
    the fallback included, has at least one day, and its days are
    numbered 1, 2, ... in order.  A day has at least one location when
    the data of its city list a spot or a food; a generated day whose
    city has no entry in [attractions] (both lists taken as empty) has no
    location at all. *)
Theorem parseTravel_invariants (catalog : Catalog.t) (input : string)
    (g : rng) :
  let r := parseTravel host catalog input g in
  1 <= List.length (Itinerary.itinerary r)
  /\ (forall i d,
        nth_error (Itinerary.itinerary r) i = Some d -> Day.day d = i + 1)
  /\ (forall d,
        In d (Itinerary.itinerary r) ->
        CityData.spots (cityDataOf catalog (Day.city d)) <> []
        \/ CityData.foods (cityDataOf catalog (Day.city d)) <> [] ->
        1 <= List.length (Day.locations d))
  /\ (forall r' g' d,
        parseTravelTry host catalog input g = (Normal r', g') ->
        In d (Itinerary.itinerary r') ->
        CityData.spots (cityDataOf catalog (Day.city d)) = [] ->
        CityData.foods (cityDataOf catalog (Day.city d)) = [] ->
        Day.locations d = []).
Proof.
  intros r. unfold r, parseTravel.
  destruct (effectiveCities catalog input) as [detected|] eqn:E.
  - destruct (parseTravelTry_returns catalog input g detected E)
      as (ds & g1 & T & F).
    rewrite T. simpl.
    pose proof (Forall2_length F) as L. rewrite length_seq in L.
    pose proof (maxDays_bounds (detectDates input) detected
                  (detectDates_length input)) as B.
    split; [lia|]. split; [|split].
    + intros i d Hd. destruct (generated_at _ _ _ _ _ _ _ F Hd) as [G _].
      exact (gen_day _ _ _ _ _ G).
    + intros d Hd Hdata. apply In_nth_error in Hd. destruct Hd as [i Hd].
      destruct (generated_at _ _ _ _ _ _ _ F Hd) as [G _].
      rewrite locations_length.
      destruct (gen_spots _ _ _ _ _ G) as [[LS _] _].
      destruct (gen_foods _ _ _ _ _ G) as [[LF _] _].
      destruct Hdata as [Hs|Hf].
      * destruct (CityData.spots (cityDataOf catalog (Day.city d)));
          [congruence|]. simpl in LS. lia.
      * destruct (CityData.foods (cityDataOf catalog (Day.city d)));
          [congruence|]. simpl in LF. lia.
    + intros r' g' d [= <- _] Hd Hs Hf. simpl in Hd.
      apply In_nth_error in Hd. destruct Hd as [i Hd].
      destruct (generated_at _ _ _ _ _ _ _ F Hd) as [G _].
      destruct (gen_spots _ _ _ _ _ G) as [[_ US] _].
      destruct (gen_foods _ _ _ _ _ G) as [[_ UF] _].
      rewrite Hs in US. rewrite Hf in UF. simpl in US, UF.
      apply length_zero_iff_nil. rewrite locations_length. lia.
  - rewrite (parseTravelTry_throws catalog input g E). simpl.
    split; [lia|]. split; [|split].
    + intros [|[|i]] d; simpl; try discriminate. now intros [= <-].
    + intros d [<-|[]] _. simpl. lia.
    + intros r' g' d [=].
Qed.

(** [parseTravel] returns what the [try] block returns, or else the
    fallback. *)
Lemma parseTravel_returns (catalog : Catalog.t) (input : string) (g : rng) :
  (exists r g', parseTravelTry host catalog input g = (Normal r, g')
                /\ parseTravel host catalog input g = r)
  \/ (effectiveCities catalog input = None
      /\ parseTravel host catalog input g = fallback).
Proof.
  unfold parseTravel.
  destruct (effectiveCities catalog input) as [detected|] eqn:E.
  - left. destruct (parseTravelTry_returns catalog input g detected E)
      as (ds & g' & T & _).
    rewrite T. now eexists; eexists.
  - right. now rewrite (parseTravelTry_throws catalog input g E).
Qed.

(** Claim C7.  [parseTravel] is total, and whenever the [try] block
    throws, whatever the input and the exception, it returns one and the
    same itinerary: a single day in 강릉 with exactly two locations, both
    spots, and zero distance and duration. *)
Theorem parseTravel_fallback (catalog : Catalog.t) (input : string)
    (g : rng) (e : error) (g' : rng) :
  parseTravelTry host catalog input g = (Throw e, g') ->
  parseTravel host catalog input g = fallback
  /\ exists d,
       Itinerary.itinerary fallback = [d]
       /\ Day.day d = 1 /\ Day.city d = "강릉"
       /\ map Loc.name (Day.locations d) = ["경포해변"; "오죽헌"]
       /\ map Loc.type (Day.locations d) = [spot; spot]
       /\ Day.distance d = 0%Q /\ Day.duration d = 0%Q.
Proof.
  intros T. split.
  - unfold parseTravel. now rewrite T.
  - eexists. repeat split.
Qed.

(** Claim C8.  For a day generated for a city whose entry in
    [attractions] is [data]: between min(len(spots),2) and
    min(len(spots),3) spots and between min(len(foods),1) and
    min(len(foods),2) foods are selected, and each selection is drawn from
    its list without replacement, position by position.  The selected spot
    names are pairwise distinct when the spots of [data] name no place
    twice, and the selected food names when its foods name none twice; a
    name listed twice can be selected twice. *)
Theorem parseTravel_selection (catalog : Catalog.t) (input : string)
    (g : rng) (r : Itinerary.t) (g' : rng) (d : Day.t) (data : CityData.t) :
  parseTravelTry host catalog input g = (Normal r, g') ->
  In d (Itinerary.itinerary r) ->
  Catalog.lookup (Catalog.attractions catalog) (Day.city d) = Some data ->
  (Nat.min (List.length (CityData.spots data)) 2 <= List.length (spotNames d)
     <= Nat.min (List.length (CityData.spots data)) 3)
  /\ (Nat.min (List.length (CityData.foods data)) 1 <= List.length (foodNames d)
       <= Nat.min (List.length (CityData.foods data)) 2)
  /\ drawnFrom (spotNames d) (CityData.spots data)
  /\ drawnFrom (foodNames d) (CityData.foods data)
  /\ (NoDup (CityData.spots data) -> NoDup (spotNames d))
  /\ (NoDup (CityData.foods data) -> NoDup (foodNames d)).
Proof.
  intros T Hd Hdata.
  destruct (parseTravelTry_cases catalog input g r g' T)
    as (detected & _ & _ & F).
  apply In_nth_error in Hd. destruct Hd as [i Hd].
  destruct (generated_at _ _ _ _ _ _ _ F Hd) as [G _].
  pose proof (gen_spots _ _ _ _ _ G) as [LS DS].
  pose proof (gen_foods _ _ _ _ _ G) as [LF DF].
  unfold cityDataOf in LS, DS, LF, DF. rewrite Hdata in LS, DS, LF, DF.
  repeat split; try tauto.
  - intros NS. destruct DS as [rest P]. symmetry in P.
    exact (NoDup_app_remove_r _ _ (Permutation_NoDup P NS)).
  - intros NF. destruct DF as [rest P]. symmetry in P.
    exact (NoDup_app_remove_r _ _ (Permutation_NoDup P NF)).
Qed.

(** Claim C10.  In an itinerary the [try] block returns, day [i] carries
    [dates[i]] of the list in effect, which is the list of the dates
    detected in the input when there are at least two of them, and the
    list of the five default dates otherwise: the number of days never
    exceeds the length of that list and no element of it is empty, so the
    label "{i+1}일차" is never substituted. *)
Theorem parseTravel_dates_in_effect (catalog : Catalog.t) (input : string)
    (g : rng) (r : Itinerary.t) (g' : rng) :
  parseTravelTry host catalog input g = (Normal r, g') ->
  parseTravel host catalog input g = r
  /\ (2 <= List.length (matchGlobal input datePattern) ->
      List.length (Itinerary.itinerary r)
      <= List.length (matchGlobal input datePattern)
      /\ forall i d,
           nth_error (Itinerary.itinerary r) i = Some d ->
           nth_error (matchGlobal input datePattern) i = Some (Day.date d))
  /\ (List.length (matchGlobal input datePattern) < 2 ->
      List.length (Itinerary.itinerary r) <= 5
      /\ forall i d,
           nth_error (Itinerary.itinerary r) i = Some d ->
           nth_error ["7월 25일"; "7월 26일"; "7월 27일"; "7월 28일"; "7월 29일"] i
           = Some (Day.date d)).
Proof.
  intros T. split; [unfold parseTravel; now rewrite T|].
  destruct (parseTravelTry_cases catalog input g r g' T)
    as (detected & _ & _ & F).
  pose proof (maxDays_bounds (detectDates input) detected
                (detectDates_length input)) as B.
  assert (L : List.length (Itinerary.itinerary r)
              <= List.length (detectDates input)).
  { rewrite <- (Forall2_length F), length_seq. lia. }
  assert (D : forall i d,
             nth_error (Itinerary.itinerary r) i = Some d ->
             nth_error (detectDates input) i = Some (Day.date d)).
  { intros i d Hd. destruct (generated_at _ _ _ _ _ _ _ F Hd) as [G Li].
    rewrite (gen_date _ _ _ _ _ G).
    apply dateOrLabel_defined; [apply detectDates_nonempty|lia]. }
  clear F B. unfold detectDates in L, D.
  split; intros H.
  - destruct (Nat.ltb_spec (List.length (matchGlobal input datePattern)) 2);
      [lia|]. now split.
  - destruct (Nat.ltb_spec (List.length (matchGlobal input datePattern)) 2);
      [|lia]. now split.
Qed.

End WithHost.

(** *** The claims on concrete inputs *)

Import Sample.

Definition plainInput : string := "동해안 여행".
Definition datedInput : string := "강릉과 속초 7월 25일 7월 26일 7월 27일".
Definition sokchoInput : string := "속초 여행".
Definition augustInput : string := "강릉 8월 3일 8월 4일".
Definition oneDateInput : string := "강릉 8월 3일 하루".

(** The input of claim C4 on the sample catalog: three days, not one. *)
Lemma no_tokens_not_one_day :
  detectCities (Catalog.cities catalog) plainInput = []
  /\ matchGlobal plainInput datePattern = []
  /\ List.length
       (Itinerary.itinerary
          (parseTravel insertionHost catalog plainInput alternating)) <> 1.
Proof. repeat split. vm_compute. discriminate. Qed.

Lemma parseTravel_no_tokens_witness :
  (detectCities (Catalog.cities catalog) plainInput = []
   /\ matchGlobal plainInput datePattern = []
   /\ option_map City.name (nth_error (Catalog.cities catalog) 3) = Some "강릉")
  /\ map Day.date
       (Itinerary.itinerary
          (parseTravel insertionHost catalog plainInput alternating))
     = ["7월 25일"; "7월 26일"; "7월 27일"].
Proof.
  split; [repeat split|].
  apply (parseTravel_no_tokens insertionHost catalog plainInput alternating
           gangneung); reflexivity.
Defined.

Lemma parseTravel_day_count_round_robin_witness :
  (List.length (detectCities (Catalog.cities catalog) datedInput) = 2
   /\ List.length (matchGlobal datedInput datePattern) = 3)
  /\ List.length
       (Itinerary.itinerary
          (parseTravel insertionHost catalog datedInput alternating))
     = 3.
Proof.
  split; [split; reflexivity|].
  apply (parseTravel_day_count_round_robin insertionHost catalog datedInput
           alternating).
  - vm_compute. discriminate.
  - vm_compute. lia.
Defined.

(** The input of claim C6 for a city without an entry: its days have no
    location. *)
Lemma absent_entry_day_without_location :
  Catalog.lookup (Catalog.attractions catalog) "속초" = None
  /\ ~ (forall d,
          In d (Itinerary.itinerary
                  (parseTravel insertionHost catalog sokchoInput alternating)) ->
          1 <= List.length (Day.locations d)).
Proof.
  split; [reflexivity|]. intros H.
  specialize (H (Day.Make 1 "7월 25일" "속초" [] 0%Q 0%Q)).
  assert (L : 1 <= 0); [|lia].
  apply H. vm_compute. left. reflexivity.
Qed.

Lemma parseTravel_invariants_witness :
  1 <= List.length
         (Itinerary.itinerary
            (parseTravel insertionHost catalog datedInput alternating))
  /\ exists d,
       nth_error
         (Itinerary.itinerary
            (parseTravel insertionHost catalog datedInput alternating)) 0
       = Some d
       /\ Day.day d = 1 /\ 1 <= List.length (Day.locations d).
Proof.
  destruct (parseTravel_invariants insertionHost catalog datedInput alternating)
    as (L & N & P & _).
  split; [exact L|]. eexists. split; [reflexivity|]. split.
  - apply (N 0). reflexivity.
  - apply P.
    + vm_compute. left. reflexivity.
    + left. vm_compute. discriminate.
Defined.

Lemma parseTravel_fallback_witness :
  parseTravelTry insertionHost shortCatalog plainInput alternating
    = (Throw TypeError, alternating)
  /\ parseTravel insertionHost shortCatalog plainInput alternating = fallback.
Proof.
  split; [reflexivity|].
  apply (parseTravel_fallback insertionHost shortCatalog plainInput alternating
           TypeError alternating). reflexivity.
Defined.

Definition gangneungData : CityData.t :=
  CityData.Make
    ["경포해변"; "오죽헌"; "안목해변"; "정동진"; "강릉 커피거리"]
    ["초당순두부"; "중앙시장 닭강정"].

Ltac distinct_names :=
  repeat (constructor; [simpl; intuition discriminate|]); constructor.

(** A catalog whose entry of 강릉 names a spot twice. *)
Definition repeatedCatalog : Catalog.t :=
  {| Catalog.cities := cities;
     Catalog.attractions :=
       [ ("강릉",
          CityData.Make ["경포해변"; "경포해변"] ["초당순두부"]) ] |}.

(** The input of claim C8 on that catalog: [getRandomItems] selects
    positions of the list, and both are taken whatever the shuffle, so the
    first day, generated by the [try] block, visits 경포해변 twice. *)
Lemma repeated_name_selected_twice :
  fst (parseTravelTry insertionHost repeatedCatalog plainInput alternating)
  = Normal (parseTravel insertionHost repeatedCatalog plainInput alternating)
  /\ exists d,
       nth_error
         (Itinerary.itinerary
            (parseTravel insertionHost repeatedCatalog plainInput
               alternating)) 0 = Some d
       /\ Catalog.lookup (Catalog.attractions repeatedCatalog) (Day.city d)
          = Some (CityData.Make ["경포해변"; "경포해변"] ["초당순두부"])
       /\ spotNames d = ["경포해변"; "경포해변"]
       /\ ~ NoDup (spotNames d).
Proof.
  split; [reflexivity|]. eexists. split; [reflexivity|].
  split; [reflexivity|]. split; [reflexivity|].
  intros N. inversion N as [|x l Hx _]. apply Hx. left. reflexivity.
Qed.

Lemma parseTravel_selection_witness :
  exists d,
    nth_error
      (Itinerary.itinerary
         (parseTravel insertionHost catalog datedInput alternating)) 0 = Some d
    /\ Catalog.lookup (Catalog.attractions catalog) (Day.city d)
       = Some gangneungData
    /\ 2 <= List.length (spotNames d) <= 3
    /\ 1 <= List.length (foodNames d) <= 2
    /\ NoDup (spotNames d) /\ NoDup (foodNames d).
Proof.
  eexists. split; [reflexivity|]. split; [reflexivity|].
  destruct
    (parseTravel_selection insertionHost catalog datedInput alternating
       (parseTravel insertionHost catalog datedInput alternating)
       (snd (parseTravelTry insertionHost catalog datedInput alternating))
       _ gangneungData eq_refl (or_introl eq_refl) eq_refl)
    as (LS & LF & _ & _ & DS & DF).
  simpl in LS, LF. split; [exact LS|]. split; [exact LF|]. split.
  - apply DS. distinct_names.
  - apply DF. distinct_names.
Defined.

Lemma parseTravel_dates_in_effect_witness :
  (matchGlobal augustInput datePattern = ["8월 3일"; "8월 4일"]
   /\ map Day.date
        (Itinerary.itinerary
           (parseTravel insertionHost catalog augustInput alternating))
      = ["8월 3일"; "8월 4일"]
   /\ forall i d,
        nth_error
          (Itinerary.itinerary
             (parseTravel insertionHost catalog augustInput alternating)) i
        = Some d ->
        nth_error (matchGlobal augustInput datePattern) i
        = Some (Day.date d))
  /\ (matchGlobal oneDateInput datePattern = ["8월 3일"]
      /\ map Day.date
           (Itinerary.itinerary
              (parseTravel insertionHost catalog oneDateInput alternating))
         = ["7월 25일"; "7월 26일"; "7월 27일"]
      /\ forall i d,
           nth_error
             (Itinerary.itinerary
                (parseTravel insertionHost catalog oneDateInput alternating))
             i = Some d ->
           nth_error ["7월 25일"; "7월 26일"; "7월 27일"; "7월 28일"; "7월 29일"] i
           = Some (Day.date d)).
Proof.
  split; (split; [reflexivity|]); (split; [reflexivity|]).
  - destruct
      (parseTravel_dates_in_effect insertionHost catalog augustInput
         alternating
         (parseTravel insertionHost catalog augustInput alternating)
         (snd (parseTravelTry insertionHost catalog augustInput alternating))
         eq_refl) as (_ & A & _).
    apply A. vm_compute. lia.
  - destruct
      (parseTravel_dates_in_effect insertionHost catalog oneDateInput
         alternating
         (parseTravel insertionHost catalog oneDateInput alternating)
         (snd (parseTravelTry insertionHost catalog oneDateInput alternating))
         eq_refl) as (_ & _ & A).
    apply A. vm_compute. lia.
Defined.

End ParseTravelFacts.

(* ------------------------------------------------------------------ *)
(** ** Properties of the map controller                                *)
(* ------------------------------------------------------------------ *)

Module MapControlFacts.
Import Js MapControl.

(** *** What is observed of a run *)

(** [c1] is called, and later [c2]. *)
Definition happensBefore (log : list Call) (c1 c2 : Call) : Prop :=
  exists l1 l2 l3, log = l1 ++ c1 :: l2 ++ c2 :: l3.

(** The calls that build the base layer: marker placement and the fitting
    of the viewport. *)
Definition isBase (c : Call) : bool :=
  match c with
  | addMarker _ | fitBounds _ => true
  | _ => false
  end.

(** [markers] of the days [day :: ..] from [dayIndex] on. *)
Fixpoint markersFrom (day : Day.t) (dayIndex : nat) (locations : list Loc.t)
    (locIndex : nat) : list Marker :=
  match locations with
  | [] => []
  | location :: locations' =>
      markerFor day dayIndex location locIndex
      :: markersFrom day dayIndex locations' (S locIndex)
  end.

(** Worlds that differ by calls only. *)
Definition sameSetup (w w' : World) : Prop :=
  leaflet w' = leaflet w /\ routing w' = routing w /\ map w' = map w.

(** The statistics of one day with the number of that day. *)
Definition Settled : Type := (nat * DayStat)%type.

(** [recordStat] on the variables of the run and the callback's
    invocations so far. *)
Definition settle (s : Run * list (list (option DayStat))) (p : Settled)
  : Run * list (list (option DayStat)) :=
  let (r, fired) := s in
  let r' := {| total := total r; callback := callback r;
               dayStats := assign (dayStats r) (fst p) (snd p);
               routingCount := S (routingCount r) |} in
  (r', if (routingCount r' =? total r') && callback r'
       then fired ++ [dayStats r'] else fired).

(** The days no routing control is created for. *)
Fixpoint unroutedDays (w : World) (days : list Day.t) (dayIndex : nat)
  : list nat :=
  match days with
  | [] => []
  | day :: days' =>
      (if routable w day then [] else [dayIndex])
      ++ unroutedDays w days' (S dayIndex)
  end.

(** The calls of [forEachDay]: for each day its markers, then either its
    routing control or, for the day that completes the count, the
    callback. *)
Inductive dayCalls : nat -> list Day.t -> list Call -> Prop :=
| dayCalls_nil (k : nat) : dayCalls k [] []
| dayCalls_cons (k : nat) (day : Day.t) (days : list Day.t)
    (ending rest : list Call) :
    ending = [addRouting (routerFor day k)]
    \/ (forall c, In c ending -> exists stats, c = onRouteStats stats) ->
    dayCalls (S k) days rest ->
    dayCalls k (day :: days)
      (List.map addMarker (markersFrom day k (Day.locations day) 0)
       ++ ending ++ rest).

(** *** Elementary steps *)

Lemma callbacks_app (l l' : list Call) :
  callbacks (l ++ l') = callbacks l ++ callbacks l'.
Proof.
  induction l as [|c l IH]; simpl; [reflexivity|].
  destruct c; simpl; now rewrite ?IH.
Qed.

Lemma sameSetup_refl (w : World) : sameSetup w w.
Proof. now repeat split. Qed.

Lemma sameSetup_trans (w1 w2 w3 : World) :
  sameSetup w1 w2 -> sameSetup w2 w3 -> sameSetup w1 w3.
Proof. unfold sameSetup. intuition congruence. Qed.

Lemma routable_sameSetup (w w' : World) (day : Day.t) :
  sameSetup w w' -> routable w' day = routable w day.
Proof. unfold sameSetup, routable. intros (-> & -> & _). reflexivity. Qed.

Lemma placeMarkers_spec (day : Day.t) (dayIndex : nat) (locations : list Loc.t)
    (locIndex : nat) (w : World) (bounds : list LatLng) :
  let s := placeMarkers day dayIndex locations locIndex (w, bounds) in
  let ms := markersFrom day dayIndex locations locIndex in
  sameSetup w (fst s)
  /\ calls (fst s) = calls w ++ List.map addMarker ms
  /\ markers (fst s) = markers w ++ ms
  /\ routeLayers (fst s) = routeLayers w
  /\ snd s = bounds ++ List.map latLng locations.
Proof.
  revert locIndex w bounds.
  induction locations as [|location locations IH]; intros locIndex w bounds;
    simpl.
  - rewrite !app_nil_r. repeat split.
  - destruct (IH (S locIndex)
                (pushMarker (markerFor day dayIndex location locIndex)
                   (call (addMarker (markerFor day dayIndex location locIndex)) w))
                (bounds ++ [latLng location]))
      as (S1 & C & M & R & B).
    simpl in *. rewrite C, M, R, B, <- !app_assoc. simpl.
    repeat split; apply S1.
Qed.

Lemma recordStat_spec (dayIndex : nat) (stat : DayStat) (w : World) (r : Run) :
  let s := recordStat dayIndex stat (w, r) in
  sameSetup w (fst s)
  /\ markers (fst s) = markers w
  /\ routeLayers (fst s) = routeLayers w
  /\ (exists ending,
        calls (fst s) = calls w ++ ending
        /\ forall c, In c ending -> exists stats, c = onRouteStats stats)
  /\ (snd s, callbacks (calls (fst s)))
     = settle (r, callbacks (calls w)) (dayIndex, stat).
Proof.
  unfold recordStat, settle. cbn [fst snd total callback routingCount dayStats].
  destruct ((S (routingCount r) =? total r) && callback r); simpl.
  - repeat split.
    + eexists. split; [reflexivity|]. intros c [<-|[]]. now eexists.
    + now rewrite callbacks_app.
  - repeat split. exists []. rewrite app_nil_r. split; [reflexivity|].
    intros c [].
Qed.

Lemma callbacks_markers (ms : list Marker) :
  callbacks (List.map addMarker ms) = [].
Proof. induction ms; simpl; auto. Qed.

Lemma unroutedDays_sameSetup (w w' : World) (days : list Day.t) (k : nat) :
  sameSetup w w' -> unroutedDays w' days k = unroutedDays w days k.
Proof.
  intros S. revert k. induction days as [|day days IH]; intros k; simpl;
    [reflexivity|].
  now rewrite (routable_sameSetup w w' day S), IH.
Qed.

(** All markers of the days [days], numbered from [k]. *)
Fixpoint allMarkers (days : list Day.t) (k : nat) : list Marker :=
  match days with
  | [] => []
  | day :: days' =>
      markersFrom day k (Day.locations day) 0 ++ allMarkers days' (S k)
  end.

Definition settleZero (i : nat) : Settled := (i, zeroStat).

Lemma forEachDay_spec (days : list Day.t) (k : nat) (w : World)
    (bounds : list LatLng) (r : Run) :
  let s := forEachDay days k (w, bounds, r) in
  let w' := fst (fst s) in
  sameSetup w w'
  /\ (exists log, calls w' = calls w ++ log /\ dayCalls k days log)
  /\ markers w' = markers w ++ allMarkers days k
  /\ snd (fst s)
     = bounds ++ flat_map (fun day => List.map latLng (Day.locations day)) days
  /\ (snd s, callbacks (calls w'))
     = fold_left settle (List.map settleZero (unroutedDays w days k))
         (r, callbacks (calls w)).
Proof.
  revert k w bounds r.
  induction days as [|day days IH]; intros k w bounds r.
  - simpl. rewrite !app_nil_r. repeat split.
    exists []. rewrite app_nil_r. split; [reflexivity|constructor].
  - cbn [forEachDay].
    pose proof (placeMarkers_spec day k (Day.locations day) 0 w bounds)
      as (S1 & C1 & M1 & _ & B1).
    destruct (placeMarkers day k (Day.locations day) 0 (w, bounds))
      as [w1 bounds1]. cbn [fst snd] in S1, C1, M1, B1.
    cbn [unroutedDays allMarkers].
    rewrite (routable_sameSetup w w1 day S1).
    destruct (routable w day) eqn:Rt.
    + set (w2 := pushRouter (routerFor day k)
                   (call (addRouting (routerFor day k)) w1)).
      assert (S2 : sameSetup w w2) by (unfold w2; simpl; exact S1).
      specialize (IH (S k) w2 bounds1 r).
      destruct (forEachDay days (S k) (w2, bounds1, r)) as [[w3 bounds3] r3].
      cbn [fst snd] in *.
      destruct IH as (S3 & (log & C3 & D3) & M3 & B3 & A3).
      split; [exact (sameSetup_trans _ _ _ S2 S3)|]. split; [|split; [|split]].
      * exists (List.map addMarker (markersFrom day k (Day.locations day) 0)
                ++ [addRouting (routerFor day k)] ++ log).
        split.
        -- rewrite C3. unfold w2. simpl. rewrite C1, <- !app_assoc. reflexivity.
        -- constructor; [now left|exact D3].
      * rewrite M3. unfold w2. simpl. now rewrite M1, app_assoc.
      * rewrite B3, B1. simpl. now rewrite app_assoc.
      * rewrite A3, (unroutedDays_sameSetup w w2 _ _ S2). simpl.
        unfold w2. simpl. rewrite C1, !callbacks_app, callbacks_markers.
        simpl. now rewrite !app_nil_r.
    + pose proof (recordStat_spec k zeroStat w1 r) as (S2 & M2 & _ & E2 & A2).
      destruct (recordStat k zeroStat (w1, r)) as [w2 r2].
      cbn [fst snd] in S2, M2, E2, A2.
      assert (S2' : sameSetup w w2) by exact (sameSetup_trans _ _ _ S1 S2).
      specialize (IH (S k) w2 bounds1 r2).
      destruct (forEachDay days (S k) (w2, bounds1, r2)) as [[w3 bounds3] r3].
      cbn [fst snd] in *.
      destruct IH as (S3 & (log & C3 & D3) & M3 & B3 & A3).
      destruct E2 as (ending & C2 & E2).
      split; [exact (sameSetup_trans _ _ _ S2' S3)|]. split; [|split; [|split]].
      * exists (List.map addMarker (markersFrom day k (Day.locations day) 0)
                ++ ending ++ log).
        split.
        -- rewrite C3, C2, C1, <- !app_assoc. reflexivity.
        -- constructor; [now right|exact D3].
      * now rewrite M3, M2, M1, app_assoc.
      * rewrite B3, B1. simpl. now rewrite app_assoc.
      * rewrite A3, (unroutedDays_sameSetup w w2 _ _ S2'). simpl.
        rewrite A2, C1, callbacks_app, callbacks_markers, app_nil_r.
        reflexivity.
Qed.

(** *** The completion count *)

Definition assignAll (l : list Settled) (stats : list (option DayStat))
  : list (option DayStat) :=
  fold_left (fun stats p => assign stats (fst p) (snd p)) l stats.

Lemma settleAll_run (l : list Settled) (r : Run)
    (fired : list (list (option DayStat))) :
  fst (fold_left settle l (r, fired))
  = {| total := total r; callback := callback r;
       dayStats := assignAll l (dayStats r);
       routingCount := routingCount r + List.length l |}.
Proof.
  revert r fired. induction l as [|p l IH]; intros r fired; simpl.
  - destruct r; simpl. now rewrite Nat.add_0_r.
  - rewrite IH. simpl. f_equal. lia.
Qed.

Definition counted (r : Run) (p : Settled) : Run :=
  {| total := total r; callback := callback r;
     dayStats := assign (dayStats r) (fst p) (snd p);
     routingCount := S (routingCount r) |}.

Lemma settle_silent (r : Run) (fired : list (list (option DayStat)))
    (p : Settled) :
  S (routingCount r) <> total r ->
  settle (r, fired) p = (counted r p, fired).
Proof.
  intros N. unfold settle, counted. cbn [routingCount total callback].
  destruct (Nat.eqb_spec (S (routingCount r)) (total r)); [lia|reflexivity].
Qed.

Lemma settle_fires (r : Run) (fired : list (list (option DayStat)))
    (p : Settled) :
  S (routingCount r) = total r -> callback r = true ->
  settle (r, fired) p
  = (counted r p, fired ++ [assign (dayStats r) (fst p) (snd p)]).
Proof.
  intros E C. unfold settle, counted. cbn [routingCount total callback dayStats].
  destruct (Nat.eqb_spec (S (routingCount r)) (total r)); [|lia].
  now rewrite C.
Qed.

Lemma settleAll_silent (l : list Settled) (r : Run)
    (fired : list (list (option DayStat))) :
  routingCount r + List.length l < total r ->
  snd (fold_left settle l (r, fired)) = fired.
Proof.
  revert r fired. induction l as [|p l IH]; intros r fired; cbn [fold_left];
    [reflexivity|].
  intros L. simpl in L. rewrite settle_silent by lia.
  apply IH. simpl. lia.
Qed.

Lemma settleAll_last (l : list Settled) (p : Settled) (r : Run)
    (fired : list (list (option DayStat))) :
  callback r = true ->
  routingCount r + List.length l + 1 = total r ->
  snd (fold_left settle (l ++ [p]) (r, fired))
  = fired ++ [assignAll (l ++ [p]) (dayStats r)].
Proof.
  intros C T. rewrite fold_left_app. cbn [fold_left].
  pose proof (settleAll_run l r fired) as R.
  pose proof (settleAll_silent l r fired ltac:(lia)) as F.
  destruct (fold_left settle l (r, fired)) as [r1 fired1].
  cbn [fst snd] in R, F. subst r1 fired1.
  rewrite settle_fires; cbn [routingCount total callback dayStats snd];
    [|lia|exact C].
  unfold assignAll. now rewrite fold_left_app.
Qed.

Lemma assignAll_length_mono (l : list Settled) (stats : list (option DayStat)) :
  List.length stats <= List.length (assignAll l stats).
Proof.
  revert stats. induction l as [|p l IH]; intros stats; simpl; [lia|].
  specialize (IH (assign stats (fst p) (snd p))).
  rewrite JsFacts.assign_length in IH. lia.
Qed.

Lemma assignAll_length_le (l : list Settled) (stats : list (option DayStat))
    (n : nat) :
  (forall p, In p l -> fst p < n) -> List.length stats <= n ->
  List.length (assignAll l stats) <= n.
Proof.
  revert stats. induction l as [|p l IH]; intros stats B L; simpl; [exact L|].
  apply IH.
  - intros q Hq. apply B. now right.
  - rewrite JsFacts.assign_length. specialize (B p (or_introl eq_refl)). lia.
Qed.

Lemma assignAll_length_gt (l : list Settled) (stats : list (option DayStat))
    (p : Settled) :
  In p l -> fst p < List.length (assignAll l stats).
Proof.
  revert stats. induction l as [|q l IH]; intros stats; simpl; [tauto|].
  intros [->|H]; [|now apply IH].
  pose proof (assignAll_length_mono l (assign stats (fst p) (snd p))) as M.
  rewrite JsFacts.assign_length in M. lia.
Qed.

Lemma assignAll_get_other (l : list Settled) (stats : list (option DayStat))
    (i : nat) :
  ~ In i (List.map fst l) -> get (assignAll l stats) i = get stats i.
Proof.
  revert stats. induction l as [|q l IH]; intros stats N; simpl;
    [reflexivity|].
  simpl in N. rewrite IH by tauto.
  apply JsFacts.get_assign_other. tauto.
Qed.

Lemma assignAll_get (l : list Settled) (stats : list (option DayStat))
    (i : nat) (stat : DayStat) :
  NoDup (List.map fst l) -> In (i, stat) l ->
  get (assignAll l stats) i = Some stat.
Proof.
  revert stats. induction l as [|q l IH]; intros stats D H; simpl;
    [destruct H|].
  simpl in D. inversion D as [|x xs Nq Dl]; subst.
  destruct H as [->|H].
  - simpl. rewrite assignAll_get_other by exact Nq.
    apply JsFacts.get_assign_same.
  - now apply IH.
Qed.

(** *** Routed and unrouted days *)

Lemma routedDays_sameSetup (w w' : World) (days : list Day.t) (k : nat) :
  sameSetup w w' -> routedDays w' days k = routedDays w days k.
Proof.
  intros S. revert k. induction days as [|day days IH]; intros k; simpl;
    [reflexivity|].
  now rewrite (routable_sameSetup w w' day S), IH.
Qed.

Lemma days_partition (w : World) (days : list Day.t) (k : nat) :
  Permutation (unroutedDays w days k ++ routedDays w days k)
    (seq k (List.length days)).
Proof.
  revert k. induction days as [|day days IH]; intros k; simpl; [constructor|].
  destruct (routable w day); simpl.
  - rewrite <- Permutation_middle. constructor. apply IH.
  - constructor. apply IH.
Qed.

Lemma in_unroutedDays (w : World) (days : list Day.t) (k i : nat) (day : Day.t) :
  nth_error days i = Some day -> routable w day = false ->
  In (k + i) (unroutedDays w days k).
Proof.
  revert k i. induction days as [|d days IH]; intros k [|i]; simpl;
    try discriminate.
  - intros [= ->] ->. left. lia.
  - intros H R. apply in_or_app. right.
    replace (k + S i) with (S k + i) by lia. now apply IH.
Qed.

Definition settleFound (e : nat * Summary) : Settled :=
  (fst e, routeStat (snd e)).

Lemma deliver_spec (events : list (nat * Summary)) (w : World) (r : Run) :
  (snd (deliver events (w, r)), callbacks (calls (fst (deliver events (w, r)))))
  = fold_left settle (List.map settleFound events) (r, callbacks (calls w)).
Proof.
  revert w r. induction events as [|e events IH]; intros w r; [reflexivity|].
  change (deliver (e :: events) (w, r))
    with (deliver events (routesfound (fst e) (snd e) (w, r))).
  unfold routesfound.
  pose proof (recordStat_spec (fst e) (routeStat (snd e)) w r)
    as (_ & _ & _ & _ & A).
  destruct (recordStat (fst e) (routeStat (snd e)) (w, r)) as [w1 r1].
  cbn [fst snd] in A. rewrite IH. cbn [List.map fold_left].
  rewrite A. reflexivity.
Qed.

Lemma clearMap_spec (w : World) :
  sameSetup w (clearMap w)
  /\ markers (clearMap w) = []
  /\ routeLayers (clearMap w) = []
  /\ exists removals,
       calls (clearMap w) = calls w ++ removals
       /\ forall c, In c removals ->
            (exists m, c = removeMarker m) \/ (exists r, c = removeRouter r).
Proof.
  assert (M : forall ms w0,
             let w1 := fold_left (fun w m => call (removeMarker m) w) ms w0 in
             sameSetup w0 w1
             /\ calls w1 = calls w0 ++ List.map removeMarker ms).
  { induction ms as [|m ms IH]; intros w0; simpl.
    - rewrite app_nil_r. split; [apply sameSetup_refl|reflexivity].
    - destruct (IH (call (removeMarker m) w0)) as [S C]. split; [exact S|].
      rewrite C. simpl. now rewrite <- app_assoc. }
  assert (R : forall rs w0,
             let w1 := fold_left (fun w r => call (removeRouter r) w) rs w0 in
             sameSetup w0 w1
             /\ calls w1 = calls w0 ++ List.map removeRouter rs).
  { induction rs as [|r rs IH]; intros w0; simpl.
    - rewrite app_nil_r. split; [apply sameSetup_refl|reflexivity].
    - destruct (IH (call (removeRouter r) w0)) as [S C]. split; [exact S|].
      rewrite C. simpl. now rewrite <- app_assoc. }
  unfold clearMap. destruct (leaflet w && map w); simpl.
  - destruct (M (markers w) w) as [S1 C1].
    destruct (R (routeLayers w)
                (fold_left (fun w m => call (removeMarker m) w) (markers w) w))
      as [S2 C2].
    split; [exact (sameSetup_trans _ _ _ S1 S2)|]. repeat split.
    exists (List.map removeMarker (markers w)
            ++ List.map removeRouter (routeLayers w)).
    split; [now rewrite C2, C1, app_assoc|].
    intros c Hc. apply in_app_or in Hc.
    destruct Hc as [Hc|Hc]; apply in_map_iff in Hc;
      destruct Hc as (x & <- & _); [left|right]; now eexists.
  - repeat split. exists []. rewrite app_nil_r. split; [reflexivity|].
    intros c [].
Qed.

(** *** One run of [addMarkersToMap] *)

Definition fitCall (itinerary : list Day.t) : list Call :=
  let bounds :=
    flat_map (fun day => List.map latLng (Day.locations day)) itinerary in
  if 0 <? List.length bounds then [fitBounds bounds] else [].

Definition freshRun (itinerary : list Day.t) (hasCallback : bool) : Run :=
  {| total := List.length itinerary; callback := hasCallback;
     dayStats := []; routingCount := 0 |}.

Lemma callbacks_removals (removals : list Call) :
  (forall c, In c removals ->
     (exists m, c = removeMarker m) \/ (exists r, c = removeRouter r)) ->
  callbacks removals = [].
Proof.
  induction removals as [|c l IH]; intros H; [reflexivity|].
  destruct (H c (or_introl eq_refl)) as [[m ->]|[r ->]]; simpl;
    apply IH; intros c' Hc'; apply H; now right.
Qed.

Lemma addMarkersToMap_spec (itinerary : list Day.t) (hasCallback : bool)
    (w : World) :
  leaflet w = true -> map w = true ->
  exists w' r' removals log,
    addMarkersToMap itinerary hasCallback w = (w', Some r')
    /\ sameSetup w w'
    /\ calls w' = calls w ++ removals ++ log ++ fitCall itinerary
    /\ (forall c, In c removals ->
          (exists m, c = removeMarker m) \/ (exists r, c = removeRouter r))
    /\ dayCalls 0 itinerary log
    /\ markers w' = allMarkers itinerary 0
    /\ (r', callbacks (calls w'))
       = fold_left settle
           (List.map settleZero (unroutedDays w itinerary 0))
           (freshRun itinerary hasCallback, callbacks (calls w)).
Proof.
  intros HL HM. unfold addMarkersToMap. rewrite HL, HM. cbn [negb orb].
  destruct (clearMap_spec w) as (S0 & M0 & _ & removals & C0 & R0).
  pose proof (forEachDay_spec itinerary 0 (clearMap w) []
                (freshRun itinerary hasCallback))
    as (S1 & (log & C1 & D1) & M1 & B1 & A1).
  fold (freshRun itinerary hasCallback).
  destruct (forEachDay itinerary 0
              (clearMap w, [], freshRun itinerary hasCallback))
    as [[w1 bounds] r1].
  cbn [fst snd] in S1, C1, M1, B1, A1. simpl in B1. subst bounds.
  rewrite (unroutedDays_sameSetup w (clearMap w) _ _ S0) in A1.
  rewrite C0, callbacks_app, (callbacks_removals removals R0), app_nil_r in A1.
  eexists. exists r1, removals, log. split; [reflexivity|].
  unfold fitCall.
  destruct (0 <? List.length
                   (flat_map (fun day => List.map latLng (Day.locations day))
                      itinerary)); simpl.
  - split; [exact (sameSetup_trans _ _ _ S0 S1)|].
    split; [now rewrite C1, C0, <- !app_assoc|].
    split; [exact R0|]. split; [exact D1|].
    split; [now rewrite M1, M0|].
    rewrite callbacks_app. simpl. rewrite app_nil_r. exact A1.
  - split; [exact (sameSetup_trans _ _ _ S0 S1)|].
    split; [now rewrite C1, C0, app_nil_r, <- !app_assoc|].
    split; [exact R0|]. split; [exact D1|].
    split; [now rewrite M1, M0|]. exact A1.
Qed.

(** Claim C1.  Take a run of [addMarkersToMap] on an itinerary of N >= 1
    days with the map available and a callback, followed by the
    [routesfound] events of the days a routing control was created for,
    each such day exactly once, in any order (the other days are settled
    as unroutable by the loop itself).  The callback is invoked exactly
    once, with an array of length N whose entry [i] holds the statistics
    of day [i]: zero for an unroutable day, the rounded figures of its own
    route for a routed one. *)
Theorem route_stats_reported_once (itinerary : list Day.t)
    (events : list (nat * Summary)) (w : World) :
  leaflet w = true -> map w = true ->
  itinerary <> [] ->
  Permutation (List.map fst events) (routedDays w itinerary 0) ->
  exists w1 r1 stats,
    addMarkersToMap itinerary true w = (w1, Some r1)
    /\ callbacks (calls (fst (deliver events (w1, r1))))
       = callbacks (calls w) ++ [stats]
    /\ List.length stats = List.length itinerary
    /\ forall i day,
         nth_error itinerary i = Some day ->
         (routable w day = false -> get stats i = Some zeroStat)
         /\ (forall route,
               In (i, route) events -> get stats i = Some (routeStat route)).
Proof.
  intros HL HM HN HP.
  destruct (addMarkersToMap_spec itinerary true w HL HM)
    as (w1 & r1 & removals & log & E & _ & _ & _ & _ & _ & A).
  pose proof (deliver_spec events w1 r1) as D.
  set (all := List.map settleZero (unroutedDays w itinerary 0)
              ++ List.map settleFound events).
  assert (F : (snd (deliver events (w1, r1)),
               callbacks (calls (fst (deliver events (w1, r1)))))
              = fold_left settle all
                  (freshRun itinerary true, callbacks (calls w))).
  { unfold all. now rewrite fold_left_app, <- A, D. }
  assert (Ix : List.map fst all
               = unroutedDays w itinerary 0 ++ List.map fst events).
  { unfold all. rewrite map_app, !map_map. simpl. now rewrite map_id. }
  assert (P : Permutation (List.map fst all) (seq 0 (List.length itinerary))).
  { rewrite Ix, HP. apply days_partition. }
  assert (LA : List.length all = List.length itinerary).
  { pose proof (Permutation_length P) as LP.
    now rewrite length_map, length_seq in LP. }
  assert (ND : NoDup (List.map fst all)).
  { apply (Permutation_NoDup (Permutation_sym P)). apply seq_NoDup. }
  assert (LT : forall p, In p all -> fst p < List.length itinerary).
  { intros p Hp. apply (in_map fst) in Hp.
    apply (Permutation_in _ P) in Hp. apply in_seq in Hp. lia. }
  destruct (exists_last (l := all)) as (l & p & Eall).
  { intros Z. rewrite Z in LA. destruct itinerary; [congruence|discriminate]. }
  exists w1, r1, (assignAll all []).
  split; [exact E|]. split; [|split].
  - apply (f_equal snd) in F. cbn [snd] in F. rewrite F, Eall.
    rewrite Eall, length_app in LA. simpl in LA.
    apply (settleAll_last l p (freshRun itinerary true)); simpl; [reflexivity|lia].
  - apply Nat.le_antisymm.
    + apply assignAll_length_le; [exact LT|simpl; lia].
    + assert (Hin : In (List.length itinerary - 1) (List.map fst all)).
      { apply (Permutation_in _ (Permutation_sym P)). apply in_seq.
        destruct itinerary; [congruence|simpl; lia]. }
      apply in_map_iff in Hin. destruct Hin as (q & Eq & Hq).
      pose proof (assignAll_length_gt all [] q Hq). lia.
  - intros i day Hday. split.
    + intros Rt. apply assignAll_get; [exact ND|].
      unfold all. apply in_or_app. left.
      change (i, zeroStat) with (settleZero i). apply in_map.
      exact (in_unroutedDays w itinerary 0 i day Hday Rt).
    + intros route He. apply assignAll_get; [exact ND|].
      unfold all. apply in_or_app. right.
      change (i, routeStat route) with (settleFound (i, route)).
      now apply in_map.
Qed.

(** *** The order of the calls *)

Lemma happensBefore_cross (l l' : list Call) (c1 c2 : Call) :
  In c1 l -> In c2 l' -> happensBefore (l ++ l') c1 c2.
Proof.
  intros H1 H2. apply in_split in H1. apply in_split in H2.
  destruct H1 as (a1 & b1 & ->). destruct H2 as (a2 & b2 & ->).
  exists a1, (b1 ++ a2), b2. now rewrite <- !app_assoc.
Qed.

Lemma happensBefore_within (p l q : list Call) (c1 c2 : Call) :
  happensBefore l c1 c2 -> happensBefore (p ++ l ++ q) c1 c2.
Proof.
  intros (l1 & l2 & l3 & ->). exists (p ++ l1), l2, (l3 ++ q).
  rewrite <- !app_assoc. simpl. rewrite <- !app_assoc. reflexivity.
Qed.

Lemma markersFrom_day (day : Day.t) (k : nat) (locations : list Loc.t)
    (j : nat) (m : Marker) :
  In m (markersFrom day k locations j) -> _dayIndex m = k.
Proof.
  revert j. induction locations as [|location locations IH]; intros j; simpl;
    [tauto|].
  intros [<-|H]; [reflexivity|now apply (IH (S j))].
Qed.

Lemma markersFrom_nth (day : Day.t) (k : nat) (locations : list Loc.t)
    (j i : nat) (location : Loc.t) :
  nth_error locations i = Some location ->
  In (markerFor day k location (j + i)) (markersFrom day k locations j).
Proof.
  revert j i. induction locations as [|l locations IH]; intros j [|i]; simpl;
    try discriminate.
  - intros [= ->]. left. now rewrite Nat.add_0_r.
  - intros H. right. replace (j + S i) with (S j + i) by lia. now apply IH.
Qed.

(** Where a call of the loop can come from. *)
Lemma dayCalls_in (k : nat) (days : list Day.t) (log : list Call) (c : Call) :
  dayCalls k days log -> In c log ->
  (exists m, c = addMarker m /\ k <= _dayIndex m)
  \/ (exists r, c = addRouting r /\ k <= routedDay r)
  \/ (exists stats, c = onRouteStats stats).
Proof.
  induction 1 as [k|k day days ending rest E _ IH]; simpl; [tauto|].
  rewrite !in_app_iff, in_map_iff. intros [(m & <- & Hm)|[Hc|Hc]].
  - left. exists m. split; [reflexivity|].
    now rewrite (markersFrom_day _ _ _ _ _ Hm).
  - destruct E as [->|E].
    + destruct Hc as [<-|[]]. right. left. eexists. split; [reflexivity|].
      simpl. lia.
    + right. right. now apply E.
  - destruct (IH Hc) as [(m & -> & L)|[(r & -> & L)|S]].
    + left. exists m. split; [reflexivity|lia].
    + right. left. exists r. split; [reflexivity|lia].
    + right. right. exact S.
Qed.

Lemma dayCalls_all_markers (k : nat) (days : list Day.t) (log : list Call)
    (i j : nat) (day : Day.t) (location : Loc.t) :
  dayCalls k days log ->
  nth_error days i = Some day ->
  nth_error (Day.locations day) j = Some location ->
  In (addMarker (markerFor day (k + i) location j)) log.
Proof.
  intros D. revert i. induction D as [k|k d days ending rest _ _ IH];
    intros [|i]; simpl; try discriminate.
  - intros [= ->] Hl. apply in_or_app. left. apply in_map.
    rewrite Nat.add_0_r. exact (markersFrom_nth day k _ 0 j location Hl).
  - intros Hd Hl. apply in_or_app. right. apply in_or_app. right.
    replace (k + S i) with (S k + i) by lia. now apply IH.
Qed.

Lemma dayCalls_order (k : nat) (days : list Day.t) (log : list Call)
    (r : Router) (m : Marker) :
  dayCalls k days log ->
  In (addRouting r) log -> In (addMarker m) log ->
  _dayIndex m <= routedDay r ->
  happensBefore log (addMarker m) (addRouting r).
Proof.
  induction 1 as [k|k day days ending rest E D IH]; simpl; [tauto|].
  set (placed := List.map addMarker (markersFrom day k (Day.locations day) 0)).
  intros Hr Hm L.
  assert (NoR : ~ In (addRouting r) placed).
  { unfold placed. rewrite in_map_iff. intros (x & [=] & _). }
  assert (NoM : ~ In (addMarker m) ending).
  { destruct E as [->|E]; [intros [[=]|[]]|].
    intros H. destruct (E _ H) as (x & [=]). }
  apply in_app_or in Hr. destruct Hr as [Hr|Hr]; [tauto|].
  apply in_app_or in Hm. destruct Hm as [Hm|Hm].
  - now apply happensBefore_cross.
  - apply in_app_or in Hm. destruct Hm as [Hm|Hm]; [tauto|].
    destruct (dayCalls_in _ _ _ _ D Hm)
      as [(m' & [= <-] & Lm)|[(x & [=] & _)|(x & [=])]].
    apply in_app_or in Hr. destruct Hr as [Hr|Hr].
    + destruct E as [->|E].
      * destruct Hr as [[= <-]|[]]. simpl in L. lia.
      * destruct (E _ Hr) as (x & [=]).
    + rewrite app_assoc.
      rewrite <- (app_nil_r ((placed ++ ending) ++ rest)), <- app_assoc.
      apply happensBefore_within. now apply IH.
Qed.

(** Claim C9, as the code has it.  In a run with the map available every
    location gets its marker; the markers of a day, and of the days before
    it, are all placed before the route request of that day is issued
    (requests of earlier days are issued while later days still lack
    their markers); and the viewport is fitted last, after every marker
    placement and every route request. *)
Theorem requests_follow_their_markers (itinerary : list Day.t)
    (hasCallback : bool) (w : World) :
  leaflet w = true -> map w = true ->
  exists log,
    calls (fst (addMarkersToMap itinerary hasCallback w)) = calls w ++ log
    /\ (forall i j day location,
          nth_error itinerary i = Some day ->
          nth_error (Day.locations day) j = Some location ->
          In (addMarker (markerFor day i location j)) log)
    /\ (forall r m,
          In (addRouting r) log -> In (addMarker m) log ->
          _dayIndex m <= routedDay r ->
          happensBefore log (addMarker m) (addRouting r))
    /\ (forall b c,
          In (fitBounds b) log -> In c log ->
          (exists m, c = addMarker m) \/ (exists r, c = addRouting r) ->
          happensBefore log c (fitBounds b)).
Proof.
  intros HL HM.
  destruct (addMarkersToMap_spec itinerary hasCallback w HL HM)
    as (w' & r' & removals & log & E & _ & C & R & D & _ & _).
  rewrite E. cbn [fst]. exists (removals ++ log ++ fitCall itinerary).
  split; [exact C|].
  assert (NoFit : forall b, ~ In (fitBounds b) (removals ++ log)).
  { intros b H. apply in_app_or in H. destruct H as [H|H].
    - destruct (R _ H) as [(x & [=])|(x & [=])].
    - destruct (dayCalls_in _ _ _ _ D H)
        as [(x & [=] & _)|[(x & [=] & _)|(x & [=])]]. }
  assert (InLog : forall c,
             (exists m, c = addMarker m) \/ (exists r, c = addRouting r) ->
             In c (removals ++ log ++ fitCall itinerary) -> In c log).
  { intros c K H. apply in_app_or in H. destruct H as [H|H].
    - destruct (R _ H) as [(x & ->)|(x & ->)];
        destruct K as [(y & [=])|(y & [=])].
    - apply in_app_or in H. destruct H as [H|H]; [exact H|].
      unfold fitCall in H.
      destruct (0 <? _) in H; [|destruct H].
      destruct H as [<-|[]]. destruct K as [(y & [=])|(y & [=])]. }
  split; [|split].
  - intros i j day location Hd Hl. apply in_or_app. right.
    apply in_or_app. left.
    exact (dayCalls_all_markers 0 itinerary log i j day location D Hd Hl).
  - intros r m Hr Hm L. apply happensBefore_within.
    apply (dayCalls_order 0 itinerary log r m D); [| |exact L].
    + apply InLog; [right; now eexists|exact Hr].
    + apply InLog; [left; now eexists|exact Hm].
  - intros b c Hb Hc K. rewrite app_assoc in Hb |- *.
    apply in_app_or in Hb. destruct Hb as [Hb|Hb]; [destruct (NoFit _ Hb)|].
    apply happensBefore_cross; [|exact Hb].
    apply in_or_app. right. now apply InLog.
Qed.

(** *** [highlightMarker] and the unavailable map *)

Lemma addMarkersToMap_unavailable (itinerary : list Day.t)
    (hasCallback : bool) (w : World) :
  leaflet w = false \/ map w = false ->
  addMarkersToMap itinerary hasCallback w = (w, None).
Proof.
  intros [H|H]; unfold addMarkersToMap; rewrite H; simpl;
    [reflexivity|now rewrite orb_true_r].
Qed.

Lemma highlightMarker_found (dayIndex locIndex : nat) (w : World)
    (guard marker : Marker) :
  nth_error (markers w) (dayIndex * 10 + locIndex) = Some guard ->
  find (fun m => (_dayIndex m =? dayIndex) && (_locIndex m =? locIndex))
       (markers w) = Some marker ->
  calls (highlightMarker dayIndex locIndex w)
  = calls w ++ [openPopup marker; setView (position marker) 14].
Proof.
  intros G F. unfold highlightMarker. rewrite G, F. simpl.
  now rewrite <- app_assoc.
Qed.

Lemma highlightMarker_untagged (dayIndex locIndex : nat) (w : World) :
  find (fun m => (_dayIndex m =? dayIndex) && (_locIndex m =? locIndex))
       (markers w) = None ->
  highlightMarker dayIndex locIndex w = w.
Proof.
  intros F. unfold highlightMarker. rewrite F.
  now destruct (nth_error (markers w) (dayIndex * 10 + locIndex)).
Qed.

Lemma highlightMarker_guarded (dayIndex locIndex : nat) (w : World) :
  List.length (markers w) <= dayIndex * 10 + locIndex ->
  highlightMarker dayIndex locIndex w = w.
Proof.
  intros L. unfold highlightMarker.
  now rewrite (proj2 (nth_error_None _ _) L).
Qed.

(** *** The claims on concrete runs *)

Definition online : World :=
  {| leaflet := true; routing := true; map := true;
     markers := []; routeLayers := []; calls := [] |}.

(** The page without the Leaflet script. *)
Definition unloaded : World :=
  {| leaflet := false; routing := false; map := false;
     markers := []; routeLayers := []; calls := [] |}.

Definition oneDay : list Day.t := Itinerary.itinerary ParseTravel.fallback.

Definition twoDays : list Day.t :=
  [ {| Day.day := 1; Day.date := "7월 25일"; Day.city := "강릉";
       Day.locations :=
         [ ParseTravel.fallbackLocation "경포해변" "9:00";
           ParseTravel.fallbackLocation "오죽헌" "11:00" ];
       Day.distance := 0%Q; Day.duration := 0%Q |};
    {| Day.day := 2; Day.date := "7월 26일"; Day.city := "강릉";
       Day.locations :=
         [ ParseTravel.fallbackLocation "안목해변" "9:00";
           ParseTravel.fallbackLocation "정동진" "11:00" ];
       Day.distance := 0%Q; Day.duration := 0%Q |} ].

(** The route of day 1 arrives before the route of day 0. *)
Definition outOfOrder : list (nat * Summary) :=
  [ (1, {| totalDistance := 23456%Q; totalTime := 2000%Q |});
    (0, {| totalDistance := 12345%Q; totalTime := 1234%Q |}) ].

Lemma route_stats_reported_once_witness :
  exists w1 r1 stats,
    addMarkersToMap twoDays true online = (w1, Some r1)
    /\ callbacks (calls (fst (deliver outOfOrder (w1, r1))))
       = callbacks (calls online) ++ [stats]
    /\ List.length stats = 2
    /\ forall i day,
         nth_error twoDays i = Some day ->
         (routable online day = false -> get stats i = Some zeroStat)
         /\ (forall route,
               In (i, route) outOfOrder ->
               get stats i = Some (routeStat route)).
Proof.
  apply (route_stats_reported_once twoDays outOfOrder online);
    [reflexivity|reflexivity|discriminate|apply perm_swap].
Defined.

(** An empty itinerary is the one case without a callback: the loop body
    never runs. *)
Lemma no_day_no_callback (hasCallback : bool) (w : World) :
  callbacks (calls (fst (addMarkersToMap [] hasCallback w)))
  = callbacks (calls w).
Proof.
  unfold addMarkersToMap. destruct (negb (leaflet w) || negb (map w));
    [reflexivity|]. cbn -[clearMap].
  destruct (clearMap_spec w) as (_ & _ & _ & removals & -> & R).
  now rewrite callbacks_app, (callbacks_removals removals R), app_nil_r.
Qed.

(** Claim C2 on the page without Leaflet: [addMarkersToMap] returns at
    once, the callback is not invoked and no statistics are produced. *)
Theorem addMarkersToMap_without_map_is_silent :
  addMarkersToMap oneDay true (initMap unloaded) = (unloaded, None)
  /\ callbacks (calls (fst (addMarkersToMap oneDay true (initMap unloaded))))
     = [].
Proof. split; reflexivity. Qed.

(** Claim C3 on a two-day itinerary: the marker tagged (1, 0) exists, but
    [markers[1 * 10 + 0]] does not, so [highlightMarker(1, 0)] returns
    before looking for it. *)
Theorem highlightMarker_second_day_ignored :
  let w := fst (addMarkersToMap twoDays true online) in
  (exists marker,
     find (fun m => (_dayIndex m =? 1) && (_locIndex m =? 0)) (markers w)
     = Some marker)
  /\ List.length (markers w) = 4
  /\ highlightMarker 1 0 w = w.
Proof.
  cbv zeta. split; [|split].
  - eexists. reflexivity.
  - reflexivity.
  - apply highlightMarker_guarded. vm_compute. lia.
Qed.

(** The same run with the first day: the guard passes and the popup of
    the marker tagged (0, 1) is opened at zoom 14. *)
Lemma highlightMarker_first_day :
  let w := fst (addMarkersToMap twoDays true online) in
  exists marker,
    _dayIndex marker = 0 /\ _locIndex marker = 1
    /\ calls (highlightMarker 0 1 w)
       = calls w ++ [openPopup marker; setView (position marker) 14].
Proof.
  cbv zeta. eexists. split; [|split]; [| |reflexivity]; reflexivity.
Qed.

(** The run of claim C9 on one day with two locations: the viewport is
    fitted after the route request was issued. *)
Lemma fitBounds_after_route_request :
  ~ (forall r c,
       happensBefore (calls (fst (addMarkersToMap oneDay true online)))
         (addRouting r) c ->
       isBase c = false).
Proof.
  intros H.
  assert (X : exists r b,
             happensBefore (calls (fst (addMarkersToMap oneDay true online)))
               (addRouting r) (fitBounds b)).
  { eexists. eexists. eexists [_; _], [], []. reflexivity. }
  destruct X as (r & b & X). specialize (H r (fitBounds b) X). discriminate H.
Qed.

Lemma requests_follow_their_markers_witness :
  exists log,
    calls (fst (addMarkersToMap twoDays true online)) = log
    /\ forall r m,
         In (addRouting r) log -> In (addMarker m) log ->
         _dayIndex m <= routedDay r ->
         happensBefore log (addMarker m) (addRouting r).
Proof.
  destruct (requests_follow_their_markers twoDays true online eq_refl eq_refl)
    as (log & E & _ & O & _).
  exists log. split; [exact E|exact O].
Defined.

End MapControlFacts.

(* ------------------------------------------------------------------ *)
(** ** Further properties of the map controller                        *)
(* ------------------------------------------------------------------ *)

Module MapRunFacts.
Import Js MapControl MapControlFacts.

(** *** The count of settled days, whatever arrives *)

Lemma settle_without_callback (r : Run) (fired : list (list (option DayStat)))
    (p : Settled) :
  callback r = false -> settle (r, fired) p = (counted r p, fired).
Proof.
  intros C. unfold settle, counted. cbn [routingCount total callback].
  rewrite C. now rewrite andb_false_r.
Qed.

(** The callback fires at the step that brings the count to [total], and
    at no other step. *)
Lemma settleAll_fired (l : list Settled) (r : Run)
    (fired : list (list (option DayStat))) :
  snd (fold_left settle l (r, fired))
  = if callback r && (routingCount r <? total r)
       && (total r <=? routingCount r + List.length l)
    then fired ++ [assignAll (firstn (total r - routingCount r) l) (dayStats r)]
    else fired.
Proof.
  revert r fired. induction l as [|p l IH]; intros r fired; cbn [fold_left].
  - cbn [snd List.length].
    destruct (Nat.ltb_spec (routingCount r) (total r));
      destruct (Nat.leb_spec (total r) (routingCount r + 0));
      rewrite ?andb_false_r; try reflexivity. lia.
  - destruct (Nat.eq_dec (S (routingCount r)) (total r)) as [E|N].
    + destruct (callback r) eqn:C.
      * rewrite (settle_fires r fired p E C), IH.
        cbn [counted callback routingCount total dayStats List.length].
        destruct (Nat.ltb_spec (S (routingCount r)) (total r)); [lia|].
        rewrite andb_false_r. cbn [andb].
        destruct (Nat.ltb_spec (routingCount r) (total r)); [|lia].
        destruct (Nat.leb_spec (total r) (routingCount r + S (List.length l)));
          [|lia].
        replace (total r - routingCount r) with 1 by lia. reflexivity.
      * rewrite (settle_without_callback r fired p C), IH.
        cbn [counted callback]. rewrite C. reflexivity.
    + rewrite (settle_silent r fired p N), IH.
      cbn [counted callback routingCount total dayStats List.length].
      destruct (callback r); [|reflexivity]. cbn [andb].
      destruct (Nat.ltb_spec (S (routingCount r)) (total r));
        destruct (Nat.ltb_spec (routingCount r) (total r)); try lia;
        cbn [andb]; [|reflexivity].
      destruct (Nat.leb_spec (total r) (S (routingCount r) + List.length l));
        destruct (Nat.leb_spec (total r) (routingCount r + S (List.length l)));
        try lia; [|reflexivity].
      replace (total r - routingCount r) with (S (total r - S (routingCount r)))
        by lia.
      reflexivity.
Qed.

(** Everything that settles in a run: the unrouted days, in the order of
    the loop, then the events. *)
Definition settledBy (w : World) (itinerary : list Day.t)
    (events : list (nat * Summary)) : list Settled :=
  List.map settleZero (unroutedDays w itinerary 0)
  ++ List.map settleFound events.

Lemma days_count (w : World) (days : list Day.t) (k : nat) :
  List.length (unroutedDays w days k) + List.length (routedDays w days k)
  = List.length days.
Proof.
  rewrite <- length_app, (Permutation_length (days_partition w days k)).
  apply length_seq.
Qed.

Lemma run_callbacks (itinerary : list Day.t) (hasCallback : bool)
    (events : list (nat * Summary)) (w : World) :
  leaflet w = true -> map w = true ->
  exists w1 r1,
    addMarkersToMap itinerary hasCallback w = (w1, Some r1)
    /\ callbacks (calls (fst (deliver events (w1, r1))))
       = callbacks (calls w)
         ++ (if hasCallback && (0 <? List.length itinerary)
                && (List.length (routedDays w itinerary 0)
                    <=? List.length events)
             then [assignAll (firstn (List.length itinerary)
                                (settledBy w itinerary events)) []]
             else []).
Proof.
  intros HL HM.
  destruct (addMarkersToMap_spec itinerary hasCallback w HL HM)
    as (w1 & r1 & removals & log & E & _ & _ & _ & _ & _ & A).
  exists w1, r1. split; [exact E|].
  pose proof (deliver_spec events w1 r1) as D.
  assert (F : callbacks (calls (fst (deliver events (w1, r1))))
              = snd (fold_left settle (settledBy w itinerary events)
                       (freshRun itinerary hasCallback, callbacks (calls w)))).
  { unfold settledBy. rewrite fold_left_app, <- A, <- D. reflexivity. }
  rewrite F, settleAll_fired.
  cbn [freshRun callback routingCount total dayStats].
  rewrite Nat.sub_0_r. unfold settledBy at 1.
  rewrite length_app, !length_map.
  pose proof (days_count w itinerary 0) as DC.
  destruct hasCallback; cbn [andb]; [|now rewrite app_nil_r].
  destruct (Nat.ltb_spec 0 (List.length itinerary)); cbn [andb];
    [|now rewrite app_nil_r].
  destruct (Nat.leb_spec (List.length itinerary)
              (0 + (List.length (unroutedDays w itinerary 0)
                    + List.length events)));
    destruct (Nat.leb_spec (List.length (routedDays w itinerary 0))
                (List.length events)); try lia;
    [reflexivity|now rewrite app_nil_r].
Qed.

Lemma routedDays_from (w : World) (days : list Day.t) (k i : nat) :
  In i (routedDays w days k) -> k <= i.
Proof.
  revert k. induction days as [|day days IH]; intros k; simpl; [tauto|].
  rewrite in_app_iff. intros [H|H].
  - destruct (routable w day); [|destruct H]. destruct H as [<-|[]]. lia.
  - specialize (IH _ H). lia.
Qed.

Lemma unroutedDays_from (w : World) (days : list Day.t) (k i : nat) :
  In i (unroutedDays w days k) -> k <= i.
Proof.
  revert k. induction days as [|day days IH]; intros k; simpl; [tauto|].
  rewrite in_app_iff. intros [H|H].
  - destruct (routable w day); [destruct H|]. destruct H as [<-|[]]. lia.
  - specialize (IH _ H). lia.
Qed.

Lemma routed_not_unrouted (w : World) (days : list Day.t) (k i : nat) :
  In i (routedDays w days k) -> ~ In i (unroutedDays w days k).
Proof.
  revert k. induction days as [|day days IH]; intros k; simpl; [tauto|].
  rewrite !in_app_iff. intros [H|H] [U|U].
  - destruct (routable w day); [destruct U|destruct H].
  - destruct (routable w day); [|destruct H]. destruct H as [<-|[]].
    apply unroutedDays_from in U. lia.
  - destruct (routable w day); [destruct U|]. destruct U as [<-|[]].
    apply routedDays_from in H. lia.
  - exact (IH _ H U).
Qed.

Lemma unrouted_all (w : World) (days : list Day.t) (k : nat) :
  Forall (fun day => routable w day = false) days ->
  routedDays w days k = [] /\ unroutedDays w days k = seq k (List.length days).
Proof.
  intros F. revert k. induction F as [|day days H _ IH]; intros k; simpl;
    [now split|].
  rewrite H. destruct (IH (S k)) as [-> ->]. now split.
Qed.

Lemma assign_at_end {A : Type} (l : list (option A)) (v : A) :
  assign l (List.length l) v = l ++ [Some v].
Proof. induction l as [|x l IH]; simpl; [reflexivity|now rewrite IH]. Qed.

Lemma assignAll_zeros (n k : nat) (stats : list (option DayStat)) :
  List.length stats = k ->
  assignAll (List.map settleZero (seq k n)) stats
  = stats ++ repeat (Some zeroStat) n.
Proof.
  revert k stats. induction n as [|n IH]; intros k stats L; simpl.
  - now rewrite app_nil_r.
  - unfold assignAll in *. simpl. rewrite <- L, assign_at_end.
    rewrite (IH (S (List.length stats))).
    + now rewrite <- app_assoc.
    + rewrite length_app. simpl. lia.
Qed.

(** The callback is never invoked twice in a run, whatever [routesfound]
    events arrive and however often: it is invoked exactly when a callback
    was given, the itinerary has a day, and at least as many events arrive
    as routing controls were created. *)
Theorem callback_at_most_once (itinerary : list Day.t) (hasCallback : bool)
    (events : list (nat * Summary)) (w : World) :
  leaflet w = true -> map w = true ->
  exists w1 r1 fired,
    addMarkersToMap itinerary hasCallback w = (w1, Some r1)
    /\ callbacks (calls (fst (deliver events (w1, r1))))
       = callbacks (calls w) ++ fired
    /\ List.length fired <= 1
    /\ (List.length fired = 1 <->
        hasCallback = true /\ itinerary <> []
        /\ List.length (routedDays w itinerary 0) <= List.length events).
Proof.
  intros HL HM.
  destruct (run_callbacks itinerary hasCallback events w HL HM)
    as (w1 & r1 & E & C).
  exists w1, r1. eexists. split; [exact E|]. split; [exact C|].
  destruct hasCallback; cbn [andb].
  - destruct (Nat.ltb_spec 0 (List.length itinerary)) as [P|P]; cbn [andb].
    + destruct (Nat.leb_spec (List.length (routedDays w itinerary 0))
                  (List.length events)); simpl.
      * split; [lia|]. split; [|reflexivity]. intros _.
        repeat split; try assumption. intros ->. simpl in P. lia.
      * split; [lia|]. split; [discriminate|]. intros (_ & _ & L). lia.
    + simpl. split; [lia|]. split; [discriminate|]. intros (_ & N & _).
      destruct itinerary; [congruence|simpl in P; lia].
  - simpl. split; [lia|]. split; [discriminate|]. intros (D & _). discriminate.
Qed.

(** The count is a count of events, not of days: when as many events
    arrive as routing controls were created but none of them is for the
    routed day [i] (another day answered more than once), the callback is
    still invoked, with no entry for day [i]. *)
Theorem callback_without_the_day (itinerary : list Day.t)
    (events : list (nat * Summary)) (w : World) (i : nat) :
  leaflet w = true -> map w = true ->
  In i (routedDays w itinerary 0) ->
  ~ In i (List.map fst events) ->
  List.length (routedDays w itinerary 0) <= List.length events ->
  exists w1 r1 stats,
    addMarkersToMap itinerary true w = (w1, Some r1)
    /\ callbacks (calls (fst (deliver events (w1, r1))))
       = callbacks (calls w) ++ [stats]
    /\ get stats i = None.
Proof.
  intros HL HM Hi Hn Hl.
  destruct (run_callbacks itinerary true events w HL HM) as (w1 & r1 & E & C).
  exists w1, r1. eexists. split; [exact E|].
  assert (P : 0 < List.length itinerary).
  { destruct itinerary; [destruct Hi|simpl; lia]. }
  cbn [andb] in C.
  destruct (Nat.ltb_spec 0 (List.length itinerary)); [|lia].
  destruct (Nat.leb_spec (List.length (routedDays w itinerary 0))
              (List.length events)); [|lia].
  split; [exact C|].
  rewrite assignAll_get_other; [apply JsFacts.get_nil|].
  intros Hin. apply in_map_iff in Hin. destruct Hin as (p & Ep & Hp).
  assert (Hall : In p (settledBy w itinerary events)).
  { rewrite <- (firstn_skipn (List.length itinerary)
                  (settledBy w itinerary events)).
    apply in_or_app. now left. }
  unfold settledBy in Hall. apply in_app_or in Hall.
  destruct Hall as [Hz|Hf]; apply in_map_iff in Hz || apply in_map_iff in Hf.
  - destruct Hz as (j & <- & Hj). simpl in Ep. subst j.
    exact (routed_not_unrouted w itinerary 0 i Hi Hj).
  - destruct Hf as (e & <- & He). simpl in Ep. apply Hn.
    apply in_map_iff. now exists e.
Qed.

(** *** The layers the module holds *)

(** The routing controls of the days [days], numbered from [k]. *)
Fixpoint routersFrom (w : World) (days : list Day.t) (k : nat) : list Router :=
  match days with
  | [] => []
  | day :: days' =>
      (if routable w day then [routerFor day k] else [])
      ++ routersFrom w days' (S k)
  end.

Lemma routersFrom_sameSetup (w w' : World) (days : list Day.t) (k : nat) :
  sameSetup w w' -> routersFrom w' days k = routersFrom w days k.
Proof.
  intros S. revert k. induction days as [|day days IH]; intros k; simpl;
    [reflexivity|].
  now rewrite (routable_sameSetup w w' day S), IH.
Qed.

Lemma forEachDay_routers (days : list Day.t) (k : nat) (w : World)
    (bounds : list LatLng) (r : Run) :
  routeLayers (fst (fst (forEachDay days k (w, bounds, r))))
  = routeLayers w ++ routersFrom w days k.
Proof.
  revert k w bounds r.
  induction days as [|day days IH]; intros k w bounds r.
  - simpl. now rewrite app_nil_r.
  - cbn [forEachDay routersFrom].
    pose proof (placeMarkers_spec day k (Day.locations day) 0 w bounds)
      as (S1 & _ & _ & R1 & _).
    destruct (placeMarkers day k (Day.locations day) 0 (w, bounds))
      as [w1 bounds1]. cbn [fst snd] in S1, R1.
    rewrite (routable_sameSetup w w1 day S1).
    destruct (routable w day).
    + set (w2 := pushRouter (routerFor day k)
                   (call (addRouting (routerFor day k)) w1)).
      assert (S2 : sameSetup w w2) by (unfold w2; simpl; exact S1).
      rewrite IH, (routersFrom_sameSetup w w2 _ _ S2).
      unfold w2. simpl. now rewrite R1, <- app_assoc.
    + pose proof (recordStat_spec k zeroStat w1 r) as (S2 & _ & R2 & _ & _).
      destruct (recordStat k zeroStat (w1, r)) as [w2 r2].
      cbn [fst snd] in S2, R2.
      rewrite IH, (routersFrom_sameSetup w w2 _ _ (sameSetup_trans _ _ _ S1 S2)).
      now rewrite R2, R1.
Qed.

Lemma calls_of_fold {X : Type} (f : X -> Call) (l : list X) (w : World) :
  let w' := fold_left (fun w x => call (f x) w) l w in
  calls w' = calls w ++ List.map f l
  /\ markers w' = markers w /\ routeLayers w' = routeLayers w.
Proof.
  revert w. induction l as [|x l IH]; intros w; simpl.
  - now rewrite app_nil_r.
  - destruct (IH (call (f x) w)) as (C & M & R). rewrite C, M, R. simpl.
    now rewrite <- app_assoc.
Qed.

Definition removals (w : World) : list Call :=
  if leaflet w && map w
  then List.map removeMarker (markers w)
       ++ List.map removeRouter (routeLayers w)
  else [].

Lemma clearMap_calls (w : World) :
  calls (clearMap w) = calls w ++ removals w.
Proof.
  unfold clearMap, removals. destruct (leaflet w && map w); simpl.
  - destruct (calls_of_fold removeMarker (markers w) w) as (C1 & _ & _).
    destruct (calls_of_fold removeRouter (routeLayers w)
                (fold_left (fun w m => call (removeMarker m) w) (markers w) w))
      as (C2 & _ & _).
    rewrite C2, C1. now rewrite app_assoc.
  - now rewrite app_nil_r.
Qed.

Lemma clearMap_fixed (w : World) :
  markers w = [] -> routeLayers w = [] -> clearMap w = w.
Proof.
  destruct w as [l r m ms rs cs]. simpl. intros -> ->.
  unfold clearMap. simpl. destruct (l && m); reflexivity.
Qed.

(** [clearMap] forgets every marker and routing control.  With the map
    available each of them is first taken off the map, once, the markers
    before the routing controls; without it nothing is called.  Clearing
    again changes nothing. *)
Theorem clearMap_removes_every_layer (w : World) :
  markers (clearMap w) = []
  /\ routeLayers (clearMap w) = []
  /\ calls (clearMap w) = calls w ++ removals w
  /\ clearMap (clearMap w) = clearMap w.
Proof.
  destruct (clearMap_spec w) as (_ & M & R & _).
  split; [exact M|]. split; [exact R|]. split; [apply clearMap_calls|].
  now apply clearMap_fixed.
Qed.

Lemma addMarkersToMap_layers (itinerary : list Day.t) (hasCallback : bool)
    (w : World) :
  leaflet w = true -> map w = true ->
  let w1 := fst (addMarkersToMap itinerary hasCallback w) in
  markers w1 = allMarkers itinerary 0
  /\ routeLayers w1 = routersFrom w itinerary 0
  /\ exists rest, calls w1 = calls w ++ removals w ++ rest.
Proof.
  intros HL HM. unfold addMarkersToMap. rewrite HL, HM. cbn [negb orb].
  destruct (clearMap_spec w) as (S0 & M0 & R0 & _).
  pose proof (clearMap_calls w) as C0.
  pose proof (forEachDay_spec itinerary 0 (clearMap w) []
                (freshRun itinerary hasCallback))
    as (_ & (log & C1 & _) & M1 & _ & _).
  pose proof (forEachDay_routers itinerary 0 (clearMap w) []
                (freshRun itinerary hasCallback)) as R1.
  fold (freshRun itinerary hasCallback).
  destruct (forEachDay itinerary 0
              (clearMap w, [], freshRun itinerary hasCallback))
    as [[w1 bounds] r1].
  cbn [fst snd] in C1, M1, R1.
  rewrite M0 in M1. rewrite R0, (routersFrom_sameSetup w _ _ _ S0) in R1.
  rewrite C0 in C1.
  destruct (0 <? List.length bounds); cbn [fst]; simpl.
  - repeat split; try assumption. eexists.
    rewrite C1, <- !app_assoc. reflexivity.
  - repeat split; try assumption. eexists.
    rewrite C1, <- !app_assoc. reflexivity.
Qed.

Lemma markersFrom_length (day : Day.t) (k : nat) (locations : list Loc.t)
    (j : nat) :
  List.length (markersFrom day k locations j) = List.length locations.
Proof.
  revert j. induction locations as [|l locations IH]; intros j; simpl;
    [reflexivity|now rewrite IH].
Qed.

Lemma allMarkers_length (days : list Day.t) (k : nat) :
  List.length (allMarkers days k) = List.length (flat_map Day.locations days).
Proof.
  revert k. induction days as [|day days IH]; intros k; simpl; [reflexivity|].
  now rewrite !length_app, markersFrom_length, IH.
Qed.

Lemma markersFrom_in (day : Day.t) (k : nat) (locations : list Loc.t)
    (j0 : nat) (m : Marker) :
  In m (markersFrom day k locations j0) ->
  exists j location,
    nth_error locations j = Some location
    /\ m = markerFor day k location (j0 + j).
Proof.
  revert j0. induction locations as [|l locations IH]; intros j0; simpl;
    [tauto|].
  intros [<-|H].
  - exists 0, l. split; [reflexivity|now rewrite Nat.add_0_r].
  - destruct (IH _ H) as (j & location & Hj & ->).
    exists (S j), location. split; [exact Hj|]. f_equal. lia.
Qed.

Lemma allMarkers_in (days : list Day.t) (k : nat) (m : Marker) :
  In m (allMarkers days k) <->
  exists i j day location,
    nth_error days i = Some day
    /\ nth_error (Day.locations day) j = Some location
    /\ m = markerFor day (k + i) location j.
Proof.
  revert k. induction days as [|d days IH]; intros k; simpl.
  - split; [tauto|]. intros ([|i] & j & day & location & H & _); discriminate.
  - rewrite in_app_iff, IH. split.
    + intros [H|(i & j & day & location & Hd & Hl & ->)].
      * destruct (markersFrom_in _ _ _ _ _ H) as (j & location & Hl & ->).
        exists 0, j, d, location. rewrite Nat.add_0_r. now repeat split.
      * exists (S i), j, day, location. repeat split; try assumption.
        f_equal. lia.
    + intros ([|i] & j & day & location & Hd & Hl & ->); simpl in Hd.
      * injection Hd as ->. left. rewrite Nat.add_0_r.
        exact (markersFrom_nth day k _ 0 j location Hl).
      * right. exists i, j, day, location. repeat split; try assumption.
        f_equal. lia.
Qed.

(** Whatever the module held before, after a run with the map available
    it holds exactly one marker for each location of the itinerary, in
    order, and the routing controls of the run; every marker and routing
    control it held before was taken off the map. *)
Theorem rerender_replaces_layers (itinerary : list Day.t) (hasCallback : bool)
    (w : World) :
  leaflet w = true -> map w = true ->
  let w1 := fst (addMarkersToMap itinerary hasCallback w) in
  List.length (markers w1) = List.length (flat_map Day.locations itinerary)
  /\ (forall m,
        In m (markers w1) <->
        exists i j day location,
          nth_error itinerary i = Some day
          /\ nth_error (Day.locations day) j = Some location
          /\ m = markerFor day i location j)
  /\ routeLayers w1 = routersFrom w itinerary 0
  /\ exists log,
       calls w1 = calls w ++ log
       /\ (forall m, In m (markers w) -> In (removeMarker m) log)
       /\ (forall r, In r (routeLayers w) -> In (removeRouter r) log).
Proof.
  intros HL HM w1.
  destruct (addMarkersToMap_layers itinerary hasCallback w HL HM)
    as (M & R & rest & C).
  fold w1 in M, R, C. split; [|split; [|split]].
  - rewrite M. apply allMarkers_length.
  - intros m. rewrite M. apply (allMarkers_in itinerary 0 m).
  - exact R.
  - exists (removals w ++ rest). split; [exact C|].
    unfold removals. rewrite HL, HM. simpl. split.
    + intros m Hm. apply in_or_app. left. apply in_or_app. left.
      now apply in_map.
    + intros r Hr. apply in_or_app. left. apply in_or_app. right.
      now apply in_map.
Qed.

(** *** [highlightMarker] after a run *)

Definition tagged (i j : nat) (m : Marker) : bool :=
  (_dayIndex m =? i) && (_locIndex m =? j).

Lemma find_app {A : Type} (p : A -> bool) (l l' : list A) :
  find p (l ++ l')
  = match find p l with Some x => Some x | None => find p l' end.
Proof.
  unfold find. induction l as [|x l IH]; simpl; [reflexivity|].
  now destruct (p x).
Qed.

Lemma find_markersFrom_other (day : Day.t) (k i j : nat)
    (locations : list Loc.t) (j0 : nat) :
  k <> i -> find (tagged i j) (markersFrom day k locations j0) = None.
Proof.
  intros N. unfold find. revert j0.
  induction locations as [|l locations IH]; intros j0; simpl; [reflexivity|].
  unfold tagged at 1. simpl.
  destruct (Nat.eqb_spec k i); [contradiction|]. simpl. apply IH.
Qed.

Lemma find_markersFrom (day : Day.t) (k j : nat) (locations : list Loc.t)
    (j0 : nat) (location : Loc.t) :
  nth_error locations j = Some location ->
  find (tagged k (j0 + j)) (markersFrom day k locations j0)
  = Some (markerFor day k location (j0 + j)).
Proof.
  unfold find. revert j j0.
  induction locations as [|l locations IH]; intros [|j] j0; simpl;
    try discriminate.
  - intros [= ->]. unfold tagged. simpl.
    now rewrite Nat.add_0_r, !Nat.eqb_refl.
  - intros H. unfold tagged at 1. simpl.
    destruct (Nat.eqb_spec j0 (j0 + S j)); [lia|].
    rewrite andb_false_r.
    replace (j0 + S j) with (S j0 + j) by lia. now apply IH.
Qed.

Lemma find_allMarkers (days : list Day.t) (k i j : nat) (day : Day.t)
    (location : Loc.t) :
  nth_error days i = Some day ->
  nth_error (Day.locations day) j = Some location ->
  find (tagged (k + i) j) (allMarkers days k)
  = Some (markerFor day (k + i) location j).
Proof.
  revert k i. induction days as [|d days IH]; intros k [|i]; simpl;
    try discriminate.
  - intros [= ->] Hl. rewrite find_app, Nat.add_0_r.
    pose proof (find_markersFrom day k j _ 0 location Hl) as F.
    simpl in F. now rewrite F.
  - intros Hd Hl. rewrite find_app.
    rewrite find_markersFrom_other by lia.
    replace (k + S i) with (S k + i) by lia. now apply IH.
Qed.

(** After a run, [highlightMarker(i, j)] for a location of the itinerary
    opens the popup of that location's own marker and centres the view on
    it at zoom 14, provided the itinerary has more than 10 i + j
    locations; otherwise it does nothing. *)
Theorem highlightMarker_after_render (itinerary : list Day.t)
    (hasCallback : bool) (w : World) (i j : nat) (day : Day.t)
    (location : Loc.t) :
  leaflet w = true -> map w = true ->
  nth_error itinerary i = Some day ->
  nth_error (Day.locations day) j = Some location ->
  let w1 := fst (addMarkersToMap itinerary hasCallback w) in
  let count := List.length (flat_map Day.locations itinerary) in
  (i * 10 + j < count ->
   calls (highlightMarker i j w1)
   = calls w1 ++ [openPopup (markerFor day i location j);
                  setView (latLng location) 14])
  /\ (count <= i * 10 + j -> highlightMarker i j w1 = w1).
Proof.
  intros HL HM Hd Hl w1 count.
  destruct (addMarkersToMap_layers itinerary hasCallback w HL HM)
    as (M & _ & _).
  fold w1 in M.
  assert (Len : List.length (markers w1) = count).
  { rewrite M. apply allMarkers_length. }
  split.
  - intros L.
    destruct (nth_error (markers w1) (i * 10 + j)) as [guard|] eqn:G.
    + rewrite (highlightMarker_found i j w1 guard
                 (markerFor day i location j) G); [reflexivity|].
      rewrite M. exact (find_allMarkers itinerary 0 i j day location Hd Hl).
    + apply nth_error_None in G. lia.
  - intros L. apply highlightMarker_guarded. lia.
Qed.

(** *** The viewport and the days without a route *)

Lemma coords_flat_map (days : list Day.t) :
  flat_map (fun day => List.map latLng (Day.locations day)) days
  = List.map latLng (flat_map Day.locations days).
Proof.
  induction days as [|d l IH]; simpl; [reflexivity|].
  now rewrite map_app, <- IH.
Qed.

(** A run fits the viewport exactly when the itinerary has a location,
    and then to the coordinates of all its locations, in order. *)
Theorem viewport_fits_all_locations (itinerary : list Day.t)
    (hasCallback : bool) (w : World) :
  leaflet w = true -> map w = true ->
  exists log,
    calls (fst (addMarkersToMap itinerary hasCallback w)) = calls w ++ log
    /\ forall bounds,
         In (fitBounds bounds) log <->
         bounds = List.map latLng (flat_map Day.locations itinerary)
         /\ flat_map Day.locations itinerary <> [].
Proof.
  intros HL HM.
  destruct (addMarkersToMap_spec itinerary hasCallback w HL HM)
    as (w' & r' & rem & log & E & _ & C & R & D & _ & _).
  rewrite E. cbn [fst]. exists (rem ++ log ++ fitCall itinerary).
  split; [exact C|]. intros bounds.
  pose proof (coords_flat_map itinerary) as Co.
  rewrite !in_app_iff. unfold fitCall. rewrite Co.
  split.
  - intros [H|[H|H]].
    + destruct (R _ H) as [(x & [=])|(x & [=])].
    + destruct (dayCalls_in _ _ _ _ D H)
        as [(x & [=] & _)|[(x & [=] & _)|(x & [=])]].
    + destruct (Nat.ltb_spec 0
                  (List.length
                     (List.map latLng (flat_map Day.locations itinerary))))
        as [P|P]; [|destruct H].
      destruct H as [[= <-]|[]]. split; [reflexivity|].
      intros Z. rewrite Z in P. simpl in P. lia.
  - intros [-> N]. right. right.
    destruct (Nat.ltb_spec 0
                (List.length
                   (List.map latLng (flat_map Day.locations itinerary))))
      as [P|P]; [now left|].
    rewrite length_map in P.
    destruct (flat_map Day.locations itinerary); [congruence|simpl in P; lia].
Qed.

(** When no day can be routed (the routing plugin is missing, or every
    day has fewer than two locations), the run itself invokes the
    callback, once, with a zero entry for each day, and creates no routing
    control. *)
Theorem unroutable_days_reported_at_once (itinerary : list Day.t) (w : World) :
  leaflet w = true -> map w = true ->
  itinerary <> [] ->
  Forall (fun day => routable w day = false) itinerary ->
  exists w1 r1,
    addMarkersToMap itinerary true w = (w1, Some r1)
    /\ callbacks (calls w1)
       = callbacks (calls w)
         ++ [repeat (Some zeroStat) (List.length itinerary)]
    /\ routeLayers w1 = [].
Proof.
  intros HL HM HN HF.
  destruct (unrouted_all w itinerary 0 HF) as [Rt Ut].
  destruct (run_callbacks itinerary true [] w HL HM) as (w1 & r1 & E & C).
  exists w1, r1. split; [exact E|]. split.
  - unfold deliver in C. simpl in C. rewrite C, Rt. simpl.
    destruct (Nat.ltb_spec 0 (List.length itinerary)) as [P|P];
      [|destruct itinerary; [congruence|simpl in P; lia]].
    simpl. do 2 f_equal. unfold settledBy. rewrite Ut. simpl.
    rewrite app_nil_r, firstn_all2 by (rewrite length_map, length_seq; lia).
    now rewrite (assignAll_zeros (List.length itinerary) 0 [] eq_refl).
  - destruct (addMarkersToMap_layers itinerary true w HL HM) as (_ & R & _).
    rewrite E in R. cbn [fst] in R. rewrite R.
    clear -HF. generalize 0 as k.
    induction HF as [|day days H _ IH]; intros k; simpl; [reflexivity|].
    now rewrite H, IH.
Qed.

(** *** Concrete runs *)

(** Leaflet without its routing plugin. *)
Definition noPlugin : World :=
  {| leaflet := true; routing := false; map := true;
     markers := []; routeLayers := []; calls := [] |}.

(** Two answers for day 0, none for day 1. *)
Definition sameDayTwice : list (nat * Summary) :=
  [ (0, {| totalDistance := 12345%Q; totalTime := 1234%Q |});
    (0, {| totalDistance := 12400%Q; totalTime := 1300%Q |}) ].

(** The module after a run on the one-day itinerary. *)
Definition rendered : World := fst (addMarkersToMap oneDay true online).

Lemma callback_at_most_once_witness :
  exists w1 r1 fired,
    addMarkersToMap twoDays true online = (w1, Some r1)
    /\ callbacks (calls (fst (deliver (outOfOrder ++ outOfOrder) (w1, r1))))
       = callbacks (calls online) ++ fired
    /\ List.length fired <= 1
    /\ (List.length fired = 1 <->
        true = true /\ twoDays <> []
        /\ List.length (routedDays online twoDays 0)
           <= List.length (outOfOrder ++ outOfOrder)).
Proof.
  apply (callback_at_most_once twoDays true (outOfOrder ++ outOfOrder) online);
    reflexivity.
Defined.

Lemma callback_without_the_day_witness :
  exists w1 r1 stats,
    addMarkersToMap twoDays true online = (w1, Some r1)
    /\ callbacks (calls (fst (deliver sameDayTwice (w1, r1))))
       = callbacks (calls online) ++ [stats]
    /\ get stats 1 = None.
Proof.
  apply (callback_without_the_day twoDays sameDayTwice online 1);
    try reflexivity.
  - vm_compute. right. left. reflexivity.
  - vm_compute. intros [H|[H|[]]]; discriminate.
Defined.

Lemma rerender_replaces_layers_witness :
  List.length (markers rendered) = 2
  /\ List.length (markers (fst (addMarkersToMap twoDays true rendered))) = 4
  /\ exists log,
       calls (fst (addMarkersToMap twoDays true rendered))
       = calls rendered ++ log
       /\ (forall m, In m (markers rendered) -> In (removeMarker m) log)
       /\ (forall r, In r (routeLayers rendered) -> In (removeRouter r) log).
Proof.
  split; [reflexivity|].
  destruct (rerender_replaces_layers twoDays true rendered eq_refl eq_refl)
    as (L & _ & _ & X).
  split; [exact L|exact X].
Defined.

Lemma highlightMarker_after_render_witness :
  calls (highlightMarker 0 1 (fst (addMarkersToMap twoDays true online)))
  = calls (fst (addMarkersToMap twoDays true online))
    ++ [openPopup
          (markerFor (nth 0 twoDays (Day.Make 0 "" "" [] 0%Q 0%Q)) 0
             (ParseTravel.fallbackLocation "오죽헌" "11:00") 1);
        setView (latLng (ParseTravel.fallbackLocation "오죽헌" "11:00")) 14].
Proof.
  apply (highlightMarker_after_render twoDays true online 0 1
           (nth 0 twoDays (Day.Make 0 "" "" [] 0%Q 0%Q))
           (ParseTravel.fallbackLocation "오죽헌" "11:00"));
    try reflexivity.
  vm_compute. lia.
Defined.

Lemma viewport_fits_all_locations_witness :
  exists log,
    calls (fst (addMarkersToMap twoDays true online)) = calls online ++ log
    /\ forall bounds,
         In (fitBounds bounds) log <->
         bounds = List.map latLng (flat_map Day.locations twoDays)
         /\ flat_map Day.locations twoDays <> [].
Proof.
  apply (viewport_fits_all_locations twoDays true online); reflexivity.
Defined.

Lemma unroutable_days_reported_at_once_witness :
  exists w1 r1,
    addMarkersToMap twoDays true noPlugin = (w1, Some r1)
    /\ callbacks (calls w1)
       = callbacks (calls noPlugin) ++ [repeat (Some zeroStat) 2]
    /\ routeLayers w1 = [].
Proof.
  apply (unroutable_days_reported_at_once twoDays noPlugin);
    try reflexivity.
  - discriminate.
  - repeat constructor.
Defined.

End MapRunFacts.

(* ------------------------------------------------------------------ *)
(** ** Further properties of the synthesizer                           *)
(* ------------------------------------------------------------------ *)

Module SynthesisFacts.
Import Js ParseTravel ParseTravelFacts.

(** The coordinates of the city are numbers of degrees. *)
Definition geographic (c : City.t) : Prop :=
  (Qabs (City.lat c) <= 180)%Q /\ (Qabs (City.lng c) <= 180)%Q.

(** What the roundings of the sum may add to a hundredth of a degree. *)
Definition slack : Q := (1 # 1000000000000)%Q.

(** A location lies within a hundredth of a degree of the city in each
    axis, up to [slack]. *)
Definition near (c : City.t) (l : Loc.t) : Prop :=
  (Qabs (Loc.lat l - City.lat c) <= (1 # 100) + slack)%Q
  /\ (Qabs (Loc.lng l - City.lng c) <= (1 # 100) + slack)%Q.

(** The times of the locations of one kind, in the order of [locations]. *)
Definition timesOf (keep : Loc.t -> bool) (d : Day.t) : list string :=
  List.map Loc.time (filter keep (Day.locations d)).

Definition isSpotLoc (l : Loc.t) : bool := negb (isFood (Loc.type l)).
Definition isFoodLoc (l : Loc.t) : bool := isFood (Loc.type l).

(** ["{hour + 2k}{minutes}"] for [k] below [n]. *)
Definition schedule (hour : nat) (minutes : string) (n : nat) : list string :=
  List.map (fun k => (ofNat (hour + k * 2) ++ minutes)%string) (seq 0 n).

Section WithHost.
Variable host : Host.

(** *** From the loop body to the itinerary *)

Lemma generateDays_each (catalog : Catalog.t) (detectedCities : list City.t)
    (dates : list string) (P : nat -> Day.t -> Prop) :
  (forall i g d g',
      generateDay host catalog detectedCities dates i g = (Normal d, g') ->
      P i d) ->
  forall todo itinerary g res g',
    generateDays host catalog detectedCities dates todo itinerary g
      = (Normal res, g') ->
    exists ds, res = itinerary ++ ds /\ Forall2 P todo ds.
Proof.
  intros HP. induction todo as [|i todo IH]; intros itinerary g res g'; simpl.
  - intros [= <- _]. exists []. rewrite app_nil_r. split; [reflexivity|constructor].
  - unfold bind.
    destruct (generateDay host catalog detectedCities dates i g)
      as [[d|e] g1] eqn:E; [|discriminate].
    intros H. destruct (IH _ _ _ _ H) as (ds & -> & F).
    exists (d :: ds). rewrite <- app_assoc. split; [reflexivity|].
    constructor; [exact (HP _ _ _ _ E)|exact F].
Qed.

Lemma parseTravelTry_each (catalog : Catalog.t) (input : string) (g : rng)
    (r : Itinerary.t) (g' : rng) (P : nat -> Day.t -> Prop) :
  parseTravelTry host catalog input g = (Normal r, g') ->
  (forall i g0 d g1,
      generateDay host catalog (Itinerary.cities r) (detectDates input) i g0
        = (Normal d, g1) ->
      P i d) ->
  forall i d, nth_error (Itinerary.itinerary r) i = Some d -> P i d.
Proof.
  unfold parseTravelTry, bind. rewrite detectedOrDefault_spec.
  destruct (effectiveCities catalog input) as [detected|]; [|discriminate].
  destruct (generateDays host catalog detected (detectDates input)
              (seq 0 (maxDays (detectDates input) detected)) [] g)
    as [[ds|e] g1] eqn:E; [|discriminate].
  simpl. destruct (List.length ds =? 0); [discriminate|].
  intros [= <- _] HP i d Hd. simpl in *.
  destruct (generateDays_each catalog detected (detectDates input) P HP
              _ _ _ _ _ E) as (ds' & -> & F).
  simpl in Hd. destruct (Forall2_nth_error _ _ _ _ _ F Hd) as (a & Ha & Pa).
  apply nth_error_seq0 in Ha. destruct Ha as [-> _]. exact Pa.
Qed.

(** *** One day *)

Lemma mapiR_Forall {A B : Type} (f : A -> nat -> Rand B) (Q : B -> Prop) :
  (forall x i g, Q (fst (f x i g))) ->
  forall l i g, Forall Q (fst (mapiR f i l g)).
Proof.
  intros HQ. induction l as [|x l IH]; intros i g; simpl; [constructor|].
  unfold bindR, retR. specialize (HQ x i g).
  destruct (f x i g) as [y g1]. specialize (IH (S i) g1).
  destruct (mapiR f (S i) l g1) as [ys g2]. simpl in *. now constructor.
Qed.

Lemma mapiR_times (c : City.t) (t : LocType) (hour : nat) (minutes : string)
    (names : list string) (i : nat) (g : rng) :
  List.map Loc.time (fst (mapiR (makeLocation c t hour minutes) i names g))
  = List.map (fun k => (ofNat (hour + k * 2) ++ minutes)%string)
      (seq i (List.length names)).
Proof.
  revert i g. induction names as [|n names IH]; intros i g; simpl;
    [reflexivity|].
  unfold bindR, retR.
  assert (T : Loc.time (fst (makeLocation c t hour minutes n i g))
              = (ofNat (hour + i * 2) ++ minutes)%string) by reflexivity.
  destruct (makeLocation c t hour minutes n i g) as [y g1].
  specialize (IH (S i) g1).
  destruct (mapiR (makeLocation c t hour minutes) (S i) names g1) as [ys g2].
  simpl in *. now rewrite T, IH.
Qed.

Lemma makeLocation_near (c : City.t) (t : LocType) (hour : nat)
    (minutes name : string) (idx : nat) (g : rng) :
  geographic c ->
  near c (fst (makeLocation c t hour minutes name idx g)).
Proof.
  intros [Hlat Hlng].
  unfold makeLocation, bindR, retR, random, near, slack.
  cbn [fst snd Loc.lat Loc.lng].
  destruct (JsFacts.sample_bounds (g 0)) as [L0 U0].
  destruct (JsFacts.sample_bounds (g 1)) as [L1 U1].
  split; now apply JsFacts.jitter_error.
Qed.

Lemma project_of_kind {B : Type} (f : Loc.t -> B) (keep : Loc.t -> bool)
    (locations mine others : list Loc.t) :
  Permutation locations (mine ++ others) ->
  Forall (fun l => keep l = true) mine ->
  Forall (fun l => keep l = false) others ->
  Permutation (List.map f (filter keep locations)) (List.map f mine).
Proof.
  intros P Hm Ho. apply Permutation_map.
  rewrite (Permutation_filter keep _ _ P), filter_app.
  rewrite (filter_all _ _ Hm), (filter_none _ _ Ho), app_nil_r. reflexivity.
Qed.

(** What a day is made of: the city of its turn, and the shuffled spots
    and foods built from the chosen names. *)
Lemma generateDay_inv (catalog : Catalog.t) (detectedCities : list City.t)
    (dates : list string) (i : nat) (g : rng) (d : Day.t) (g' : rng) :
  generateDay host catalog detectedCities dates i g = (Normal d, g') ->
  exists c chosenSpots gs chosenFoods gf,
    nth_error detectedCities (i mod List.length detectedCities) = Some c
    /\ Day.city d = City.name c
    /\ Permutation (Day.locations d)
         (fst (mapiR (makeLocation c spot 9 ":00") 0 chosenSpots gs)
          ++ fst (mapiR (makeLocation c food 11 ":30") 0 chosenFoods gf)).
Proof.
  unfold generateDay.
  destruct (nth_error detectedCities (i mod List.length detectedCities))
    as [c|] eqn:Hc; [|discriminate].
  unfold lift, bindR.
  destruct (randomCount 2 g) as [n2 g1].
  destruct (randomCount 1 g1) as [n1 g2].
  match goal with |- context [getRandomItems host ?arr ?n g2] =>
    destruct (getRandomItems host arr n g2) as [chosenSpots g3] end.
  destruct (mapiR (makeLocation c spot 9 ":00") 0 chosenSpots g3)
    as [spots g4] eqn:ES.
  match goal with |- context [getRandomItems host ?arr ?n g4] =>
    destruct (getRandomItems host arr n g4) as [chosenFoods g5] end.
  destruct (mapiR (makeLocation c food 11 ":30") 0 chosenFoods g5)
    as [foods g6] eqn:EF.
  match goal with |- context [sort host Loc.t ?cmp ?l g6] =>
    pose proof (sort_permutes host Loc.t cmp l g6) as PL;
    destruct (sort host Loc.t cmp l g6) as [locations g7] end.
  unfold retR. intros [= <- _]. simpl in *.
  exists c, chosenSpots, g3, chosenFoods, g5.
  rewrite ES, EF. now repeat split.
Qed.

Lemma generateDay_near (catalog : Catalog.t) (detectedCities : list City.t)
    (dates : list string) (i : nat) (g : rng) (d : Day.t) (g' : rng) :
  generateDay host catalog detectedCities dates i g = (Normal d, g') ->
  exists c,
    nth_error detectedCities (i mod List.length detectedCities) = Some c
    /\ Day.city d = City.name c
    /\ Forall (fun l => Loc.city l = Day.city d /\ (geographic c -> near c l))
         (Day.locations d).
Proof.
  intros H. destruct (generateDay_inv _ _ _ _ _ _ _ H)
    as (c & ns & gs & nf & gf & Hc & Hn & P).
  exists c. split; [exact Hc|]. split; [exact Hn|].
  rewrite Hn. symmetry in P. apply (Permutation_Forall P).
  apply Forall_app. split; apply mapiR_Forall; intros x k g0;
    (split; [apply (makeLocation_spec c _ _ _ x k g0)
            |intros G; now apply makeLocation_near]).
Qed.

Lemma generateDay_times (catalog : Catalog.t) (detectedCities : list City.t)
    (dates : list string) (i : nat) (g : rng) (d : Day.t) (g' : rng) :
  generateDay host catalog detectedCities dates i g = (Normal d, g') ->
  Permutation (timesOf isSpotLoc d)
    (schedule 9 ":00" (List.length (spotNames d)))
  /\ Permutation (timesOf isFoodLoc d)
       (schedule 11 ":30" (List.length (foodNames d))).
Proof.
  intros H. destruct (generateDay_inv _ _ _ _ _ _ _ H)
    as (c & ns & gs & nf & gf & _ & _ & P).
  pose proof (mapiR_makeLocation c spot 9 ":00" ns 0 gs) as [NS TS].
  pose proof (mapiR_makeLocation c food 11 ":30" nf 0 gf) as [NF TF].
  pose proof (mapiR_times c spot 9 ":00" ns 0 gs) as MS.
  pose proof (mapiR_times c food 11 ":30" nf 0 gf) as MF.
  set (spots := fst (mapiR (makeLocation c spot 9 ":00") 0 ns gs)) in *.
  set (foods := fst (mapiR (makeLocation c food 11 ":30") 0 nf gf)) in *.
  assert (KS : Forall (fun l => isSpotLoc l = true) spots).
  { eapply Forall_impl; [|exact TS]. unfold isSpotLoc. now intros l ->. }
  assert (KF : Forall (fun l => isSpotLoc l = false) foods).
  { eapply Forall_impl; [|exact TF]. unfold isSpotLoc. now intros l ->. }
  assert (KS' : Forall (fun l => isFoodLoc l = false) spots).
  { eapply Forall_impl; [|exact TS]. unfold isFoodLoc. now intros l ->. }
  assert (KF' : Forall (fun l => isFoodLoc l = true) foods).
  { eapply Forall_impl; [|exact TF]. unfold isFoodLoc. now intros l ->. }
  assert (P' : Permutation (Day.locations d) (foods ++ spots)).
  { rewrite P. apply Permutation_app_comm. }
  assert (LS : List.length (spotNames d) = List.length ns).
  { change (spotNames d)
      with (List.map Loc.name (filter isSpotLoc (Day.locations d))).
    rewrite (Permutation_length
               (project_of_kind Loc.name isSpotLoc _ _ _ P KS KF)).
    now rewrite NS. }
  assert (LF : List.length (foodNames d) = List.length nf).
  { change (foodNames d)
      with (List.map Loc.name (filter isFoodLoc (Day.locations d))).
    rewrite (Permutation_length
               (project_of_kind Loc.name isFoodLoc _ _ _ P' KF' KS')).
    now rewrite NF. }
  unfold timesOf, schedule. rewrite LS, LF. split.
  - now rewrite (project_of_kind Loc.time isSpotLoc _ _ _ P KS KF), MS.
  - now rewrite (project_of_kind Loc.time isFoodLoc _ _ _ P' KF' KS'), MF.
Qed.

(** *** Matches are pieces of the input *)

Lemma prefix_take (n : nat) (s : string) : String.prefix (take n s) s = true.
Proof.
  revert s. induction n as [|n IH]; intros [|c s]; simpl; try reflexivity.
  destruct (ascii_dec c c); [apply IH|congruence].
Qed.

Lemma includes_prefix (s t : string) :
  String.prefix t s = true -> includes s t = true.
Proof. intros H. destruct s; cbn [includes]; now rewrite H. Qed.

Lemma includes_later (c : ascii) (s t : string) :
  includes s t = true -> includes (String c s) t = true.
Proof. intros H. cbn [includes]. rewrite H. apply orb_true_r. Qed.

Lemma exec_prefix (r : regex) (s m : string) :
  exec r s = Some m -> String.prefix m s = true.
Proof.
  unfold exec. destruct (ends r s); [discriminate|].
  intros [= <-]. apply prefix_take.
Qed.

Lemma matchAll_includes (r : regex) (skip : nat) (s m : string) :
  In m (matchAll r skip s) -> includes s m = true.
Proof.
  revert skip. induction s as [|c s IH]; intros skip; simpl matchAll.
  - destruct skip; [|intros []]. destruct (exec r "") as [m'|] eqn:E;
      [|intros []].
    intros [<-|[]]. apply includes_prefix. exact (exec_prefix r _ _ E).
  - destruct skip as [|k].
    + destruct (exec r (String c s)) as [m'|] eqn:E.
      * intros [<-|H].
        -- apply includes_prefix. exact (exec_prefix r _ _ E).
        -- apply includes_later. exact (IH _ H).
      * intros H. apply includes_later. exact (IH _ H).
    + intros H. apply includes_later. exact (IH _ H).
Qed.

(** *** The itinerary as a whole *)

Lemma maxDays_at_most (dates : list string) (detectedCities : list City.t) :
  maxDays dates detectedCities <= 5
  /\ (List.length detectedCities <= 1 -> maxDays dates detectedCities <= 3).
Proof.
  unfold maxDays.
  destruct (Nat.ltb_spec 1 (List.length detectedCities)); split; lia.
Qed.

(** An itinerary the [try] block returns has
    min(number of dates in effect, 5 if several cities were detected, else
    3) days: never fewer than two, never more than five, and at most three
    unless at least two cities were detected. *)
Theorem generated_day_count (catalog : Catalog.t) (input : string) (g : rng)
    (r : Itinerary.t) (g' : rng) :
  parseTravelTry host catalog input g = (Normal r, g') ->
  List.length (Itinerary.itinerary r)
  = Nat.min (List.length (detectDates input))
      (if 1 <? List.length (Itinerary.cities r) then 5 else 3)
  /\ 2 <= List.length (Itinerary.itinerary r) <= 5
  /\ (List.length (detectCities (Catalog.cities catalog) input) <= 1 ->
      List.length (Itinerary.itinerary r) <= 3).
Proof.
  intros T.
  destruct (parseTravelTry_cases host catalog input g r g' T)
    as (detected & E & C & F).
  pose proof (Forall2_length F) as L. rewrite length_seq in L.
  pose proof (maxDays_bounds (detectDates input) detected
                (detectDates_length input)) as B.
  pose proof (maxDays_at_most (detectDates input) detected) as [U5 U3].
  rewrite <- L, C. split; [reflexivity|]. split; [lia|].
  intros H. apply U3. unfold effectiveCities in E.
  destruct (detectCities (Catalog.cities catalog) input) as [|c l].
  - destruct (nth_error (Catalog.cities catalog) 3); [|discriminate].
    injection E as <-. simpl. lia.
  - injection E as <-. exact H.
Qed.

(** The cities of an itinerary the [try] block returns: there is at least
    one, the first is the primary city, all come from the table, every day
    is in one of them, and either each is named in the input or the only
    one is the table's element 3. *)
Theorem returned_cities (catalog : Catalog.t) (input : string) (g : rng)
    (r : Itinerary.t) (g' : rng) :
  parseTravelTry host catalog input g = (Normal r, g') ->
  exists c rest,
    Itinerary.cities r = c :: rest
    /\ Itinerary.primaryCity r = Some c
    /\ (forall x, In x (Itinerary.cities r) -> In x (Catalog.cities catalog))
    /\ (forall d, In d (Itinerary.itinerary r) ->
          exists x, In x (Itinerary.cities r) /\ Day.city d = City.name x)
    /\ ((forall x, In x (Itinerary.cities r) ->
           includes input (City.name x) = true)
        \/ (detectCities (Catalog.cities catalog) input = []
            /\ nth_error (Catalog.cities catalog) 3 = Some c /\ rest = [])).
Proof.
  intros T.
  destruct (effectiveCities catalog input) as [detected|] eqn:E;
    [|rewrite (parseTravelTry_throws host catalog input g E) in T; discriminate].
  destruct (parseTravelTry_returns host catalog input g detected E)
    as (ds & g1 & T1 & F).
  rewrite T1 in T. injection T as <- _. simpl.
  assert (Days : forall d, In d ds ->
                   exists x, In x detected /\ Day.city d = City.name x).
  { intros d Hd. apply In_nth_error in Hd. destruct Hd as [i Hd].
    destruct (generated_at _ _ _ _ _ _ _ F Hd) as [G _].
    destruct (gen_city _ _ _ _ _ G) as (x & Hx & Hn).
    exists x. split; [eapply nth_error_In; eassumption|exact Hn]. }
  unfold effectiveCities in E.
  destruct (detectCities (Catalog.cities catalog) input) as [|c l] eqn:DC.
  - destruct (nth_error (Catalog.cities catalog) 3) as [c|] eqn:N3;
      [|discriminate].
    injection E as <-. exists c, []. repeat split; try assumption.
    + intros x [<-|[]]. eapply nth_error_In; eassumption.
    + right. now repeat split.
  - injection E as <-. exists c, l. repeat split; try assumption.
    + intros x Hx. rewrite <- DC in Hx. unfold detectCities in Hx.
      now apply filter_In in Hx.
    + left. intros x Hx. rewrite <- DC in Hx. unfold detectCities in Hx.
      now apply filter_In in Hx.
Qed.

(** Every location of a generated day belongs to the city of that day's
    turn, [cities[i mod count]]: it carries the city's name, and when the
    city's coordinates are numbers of degrees (at most 180 in magnitude)
    each of its coordinates lies within 0.01 of the city's, up to the
    rounding of the sum in doubles (less than 1e-12).  The margin of 0.01
    itself is not kept to the last digit. *)
Theorem locations_near_their_city (catalog : Catalog.t) (input : string)
    (g : rng) (r : Itinerary.t) (g' : rng) (i : nat) (d : Day.t) :
  parseTravelTry host catalog input g = (Normal r, g') ->
  nth_error (Itinerary.itinerary r) i = Some d ->
  exists c,
    nth_error (Itinerary.cities r) (i mod List.length (Itinerary.cities r))
    = Some c
    /\ Day.city d = City.name c
    /\ forall l, In l (Day.locations d) ->
         Loc.city l = Day.city d /\ (geographic c -> near c l).
Proof.
  intros T Hd.
  pose proof (parseTravelTry_each catalog input g r g'
                (fun i d =>
                   exists c,
                     nth_error (Itinerary.cities r)
                       (i mod List.length (Itinerary.cities r)) = Some c
                     /\ Day.city d = City.name c
                     /\ Forall (fun l => Loc.city l = Day.city d
                                         /\ (geographic c -> near c l))
                          (Day.locations d))
                T) as H.
  destruct (H (fun i g0 d g1 E => generateDay_near _ _ _ _ _ _ _ E) i d Hd)
    as (c & Hc & Hn & Fa).
  exists c. split; [exact Hc|]. split; [exact Hn|].
  now apply Forall_forall.
Qed.

(** The times of a generated day: its spots are scheduled at 9:00, 11:00
    (and 13:00 for a third spot), its food stops at 11:30 (and 13:30), in
    some order within [locations]. *)
Theorem day_schedule (catalog : Catalog.t) (input : string) (g : rng)
    (r : Itinerary.t) (g' : rng) (d : Day.t) :
  parseTravelTry host catalog input g = (Normal r, g') ->
  In d (Itinerary.itinerary r) ->
  Permutation (timesOf isSpotLoc d)
    (schedule 9 ":00" (List.length (spotNames d)))
  /\ Permutation (timesOf isFoodLoc d)
       (schedule 11 ":30" (List.length (foodNames d))).
Proof.
  intros T Hd. apply In_nth_error in Hd. destruct Hd as [i Hd].
  apply (parseTravelTry_each catalog input g r g'
           (fun _ d =>
              Permutation (timesOf isSpotLoc d)
                (schedule 9 ":00" (List.length (spotNames d)))
              /\ Permutation (timesOf isFoodLoc d)
                   (schedule 11 ":30" (List.length (foodNames d))))
           T (fun i g0 d g1 E => generateDay_times _ _ _ _ _ _ _ E) i d Hd).
Qed.

Lemma dates_prefix (catalog : Catalog.t) (detectedCities : list City.t)
    (dates : list string) (n : nat) (ds : list Day.t) :
  Forall2 (generated catalog detectedCities dates) (seq 0 n) ds ->
  n <= List.length dates ->
  (forall d, In d dates -> d <> "") ->
  List.map Day.date ds = firstn n dates.
Proof.
  intros F L N. apply nth_error_ext. intros i.
  pose proof (Forall2_length F) as Len. rewrite length_seq in Len.
  rewrite nth_error_map, nth_error_firstn.
  destruct (nth_error ds i) as [d|] eqn:E; simpl.
  - destruct (generated_at _ _ _ _ _ _ _ F E) as [G Li].
    destruct (Nat.ltb_spec i n); [|lia].
    rewrite (gen_date _ _ _ _ _ G). symmetry.
    apply dateOrLabel_defined; [exact N|lia].
  - apply nth_error_None in E. destruct (Nat.ltb_spec i n); [lia|reflexivity].
Qed.

(** With fewer than two dates in the input (a single date included) the
    detected dates are dropped: the days carry the default dates, in
    order. *)
Theorem default_dates_when_fewer_than_two (catalog : Catalog.t)
    (input : string) (g : rng) (r : Itinerary.t) (g' : rng) :
  List.length (matchGlobal input datePattern) < 2 ->
  parseTravelTry host catalog input g = (Normal r, g') ->
  List.map Day.date (Itinerary.itinerary r)
  = firstn (List.length (Itinerary.itinerary r)) defaultDates.
Proof.
  intros L T.
  destruct (parseTravelTry_cases host catalog input g r g' T)
    as (detected & _ & _ & F).
  assert (DD : detectDates input = defaultDates).
  { unfold detectDates.
    destruct (Nat.ltb_spec (List.length (matchGlobal input datePattern)) 2);
      [reflexivity|lia]. }
  pose proof (maxDays_bounds (detectDates input) detected
                (detectDates_length input)) as B.
  pose proof (Forall2_length F) as Len. rewrite length_seq in Len.
  rewrite <- Len, <- DD.
  apply (dates_prefix catalog detected (detectDates input) _ _ F); [lia|].
  apply detectDates_nonempty.
Qed.

(** The date of a generated day is never made up: it is one of the five
    default dates or a non-empty piece of the input. *)
Theorem dates_come_from_input (catalog : Catalog.t) (input : string)
    (g : rng) (r : Itinerary.t) (g' : rng) (d : Day.t) :
  parseTravelTry host catalog input g = (Normal r, g') ->
  In d (Itinerary.itinerary r) ->
  Day.date d <> ""
  /\ (In (Day.date d) defaultDates \/ includes input (Day.date d) = true).
Proof.
  intros T Hd.
  destruct (parseTravelTry_cases host catalog input g r g' T)
    as (detected & _ & _ & F).
  apply In_nth_error in Hd. destruct Hd as [i Hd].
  destruct (generated_at _ _ _ _ _ _ _ F Hd) as [G Li].
  pose proof (maxDays_bounds (detectDates input) detected
                (detectDates_length input)) as B.
  assert (E : nth_error (detectDates input) i = Some (Day.date d)).
  { rewrite (gen_date _ _ _ _ _ G).
    apply dateOrLabel_defined; [apply detectDates_nonempty|lia]. }
  apply nth_error_In in E. split; [exact (detectDates_nonempty _ _ E)|].
  unfold detectDates in E.
  destruct (List.length (matchGlobal input datePattern) <? 2);
    [now left|right].
  exact (matchAll_includes datePattern 0 input _ E).
Qed.

(** [getRandomItems(arr, count)] returns min(count, arr.length) elements
    of [arr], none taken from the same position twice; asked for at least
    as many as there are, it returns all of them in some order. *)
Theorem getRandomItems_sample {A : Type} (arr : list A) (count : nat)
    (g : rng) :
  let items := fst (getRandomItems host arr count g) in
  List.length items = Nat.min count (List.length arr)
  /\ (exists rest, Permutation (items ++ rest) arr)
  /\ (List.length arr <= count -> Permutation items arr).
Proof.
  intros items. destruct (getRandomItems_spec host arr count g) as [L [rest P]].
  fold items in L, P. split; [exact L|]. split; [now exists rest|].
  intros Hc. assert (R : rest = []).
  { apply length_zero_iff_nil.
    pose proof (Permutation_length P) as LP. rewrite length_app in LP. lia. }
  subst rest. now rewrite app_nil_r in P.
Qed.

End WithHost.

(** *** Concrete runs *)

Import Sample.

Definition singleDateInput : string := "강릉 7월 30일 출발".

Definition ranDated : Itinerary.t :=
  parseTravel insertionHost catalog datedInput alternating.

Definition afterDated : rng :=
  snd (parseTravelTry insertionHost catalog datedInput alternating).

Definition ranSingle : Itinerary.t :=
  parseTravel insertionHost catalog singleDateInput alternating.

Definition afterSingle : rng :=
  snd (parseTravelTry insertionHost catalog singleDateInput alternating).

Lemma generated_day_count_witness :
  List.length (Itinerary.itinerary ranDated) = 3
  /\ 2 <= List.length (Itinerary.itinerary ranDated) <= 5.
Proof.
  split; [reflexivity|].
  apply (generated_day_count insertionHost catalog datedInput alternating
           ranDated afterDated eq_refl).
Defined.

Lemma returned_cities_witness :
  exists c rest,
    Itinerary.cities ranDated = c :: rest
    /\ Itinerary.primaryCity ranDated = Some c
    /\ City.name c = "강릉".
Proof.
  destruct (returned_cities insertionHost catalog datedInput alternating
              ranDated afterDated eq_refl) as (c & rest & E & P & _).
  exists c, rest. split; [exact E|]. split; [exact P|].
  vm_compute in E. now injection E as <- _.
Defined.

(** [Math.random()] answering 0 every time. *)
Definition zeros : rng := fun _ => Unit01 0%Q eq_refl.

(** The margin of a hundredth is not kept to the last digit: for 서울, at
    126.978 degrees of longitude, and a sample of 0 the browser computes
    126.96799999999999, which is below 126.968. *)
Example longitude_below_the_hundredth :
  exists seoul l,
    nth_error cities 0 = Some seoul
    /\ l = fst (makeLocation seoul spot 9 ":00" "남산" 0 zeros)
    /\ City.lng seoul = (126978 # 1000)%Q
    /\ Loc.lng l = (4467289355374821 # 35184372088832)%Q
    /\ (Loc.lng l < City.lng seoul - (1 # 100))%Q
    /\ near seoul l.
Proof.
  eexists. eexists. split; [reflexivity|]. split; [reflexivity|].
  split; [reflexivity|]. split; [now vm_compute|]. split; now vm_compute.
Qed.

Lemma locations_near_their_city_witness :
  exists d c,
    nth_error (Itinerary.itinerary ranDated) 2 = Some d
    /\ nth_error (Itinerary.cities ranDated) 0 = Some c
    /\ Day.city d = City.name c
    /\ geographic c
    /\ forall l, In l (Day.locations d) ->
         Loc.city l = Day.city d /\ (geographic c -> near c l).
Proof.
  eexists.
  destruct (locations_near_their_city insertionHost catalog datedInput
              alternating ranDated afterDated 2 _ eq_refl eq_refl)
    as (c & Hc & Hn & Hl).
  exists c. split; [reflexivity|]. split; [exact Hc|]. split; [exact Hn|].
  split; [|exact Hl].
  assert (E : Some c = nth_error (Itinerary.cities ranDated) 0)
    by (rewrite <- Hc; reflexivity).
  injection E as ->. now vm_compute.
Defined.

Definition firstDay : Day.t :=
  hd (Day.Make 0 "" "" [] 0%Q 0%Q) (Itinerary.itinerary ranDated).

Lemma day_schedule_witness :
  Permutation (timesOf isSpotLoc firstDay) ["9:00"; "11:00"]
  /\ Permutation (timesOf isFoodLoc firstDay) ["11:30"; "13:30"].
Proof.
  exact (day_schedule insertionHost catalog datedInput alternating
           ranDated afterDated firstDay eq_refl (or_introl eq_refl)).
Defined.

Lemma default_dates_when_fewer_than_two_witness :
  matchGlobal singleDateInput datePattern = ["7월 30일"]
  /\ List.map Day.date (Itinerary.itinerary ranSingle)
     = ["7월 25일"; "7월 26일"; "7월 27일"].
Proof.
  split; [reflexivity|].
  apply (default_dates_when_fewer_than_two insertionHost catalog
           singleDateInput alternating ranSingle afterSingle);
    [vm_compute; lia|reflexivity].
Defined.

Lemma dates_come_from_input_witness :
  exists d,
    nth_error (Itinerary.itinerary ranDated) 1 = Some d
    /\ Day.date d = "7월 26일"
    /\ Day.date d <> ""
    /\ (In (Day.date d) defaultDates
        \/ includes datedInput (Day.date d) = true).
Proof.
  eexists. split; [reflexivity|]. split; [reflexivity|].
  apply (dates_come_from_input insertionHost catalog datedInput alternating
           ranDated afterDated _ eq_refl).
  right. left. reflexivity.
Defined.

End SynthesisFacts.

(* ------------------------------------------------------------------ *)
(** ** Sharing and downloading                                         *)
(* ------------------------------------------------------------------ *)

Module ShareDownload.
Import Js.

(** What the functions do to the browser. *)
Inductive Effect : Type :=
| share (title text : string)      (* navigator.share({ title, text }) *)
| writeText (text : string)        (* navigator.clipboard.writeText(text) *)
| alert (message : string).

Definition nl : string := MapControl.newline.

(** ["  ${loc.time} - ${loc.name}\n"]. *)
Definition locLine (loc : Loc.t) : string :=
  ("  " ++ Loc.time loc ++ " - " ++ Loc.name loc ++ nl)%string.

(** ["📅 Day ${day.day} - ${day.date} (${day.city})\n"]. *)
Definition dayLine (day : Day.t) : string :=
  ("📅 Day " ++ ofNat (Day.day day) ++ " - " ++ Day.date day
     ++ " (" ++ Day.city day ++ ")" ++ nl)%string.

(** What one turn of the outer [forEach] appends. *)
Definition dayBlock (day : Day.t) : string :=
  (dayLine day ++ String.concat "" (List.map locLine (Day.locations day))
     ++ nl)%string.

Definition shareText (currentItinerary : Itinerary.t) : string :=
  ("✈️ AI가 생성한 동해안 여행 계획" ++ nl ++ nl
     ++ String.concat ""
          (List.map dayBlock (Itinerary.itinerary currentItinerary))
     ++ "🚀 TripAI에서 생성됨")%string.

(** [shareItinerary(currentItinerary)]: [canShare] tells whether
    [navigator.share] is there, [written] whether the promise of
    [writeText] is fulfilled; [None] is a [null] itinerary. *)
Definition shareItinerary (canShare written : bool)
    (currentItinerary : option Itinerary.t) : list Effect :=
  match currentItinerary with
  | None => []
  | Some it =>
      if canShare
      then [share "AI 여행 계획" (shareText it)]
      else writeText (shareText it)
           :: (if written
               then [alert "여행 계획이 클립보드에 복사되었습니다!"]
               else [])
  end.

(** [downloadItinerary(currentItinerary)]: nothing is implemented. *)
Definition downloadItinerary (currentItinerary : option Itinerary.t)
  : list Effect := [].

End ShareDownload.

Module ShareDownloadFacts.
Import Js ShareDownload.

Lemma append_assoc (a b c : string) :
  ((a ++ b) ++ c = a ++ b ++ c)%string.
Proof. induction a as [|x a IH]; simpl; [reflexivity|now rewrite IH]. Qed.

(** *** The lines of the shared text *)

(** [text.split("\n")]. *)
Fixpoint lines (s : string) : list string :=
  match s with
  | EmptyString => [""]
  | String c s' =>
      if Ascii.eqb c (ascii_of_nat 10) then "" :: lines s'
      else match lines s' with
           | l :: ls => String c l :: ls
           | [] => [String c ""]
           end
  end.

(** There is no line break in [s]. *)
Fixpoint oneLine (s : string) : bool :=
  match s with
  | EmptyString => true
  | String c s' => negb (Ascii.eqb c (ascii_of_nat 10)) && oneLine s'
  end.

(** No date, city, time or name of the plan holds a line break. *)
Definition oneLineEach (it : Itinerary.t) : bool :=
  forallb (fun day =>
             oneLine (Day.date day) && oneLine (Day.city day)
             && forallb (fun loc => oneLine (Loc.time loc)
                                    && oneLine (Loc.name loc))
                  (Day.locations day))
    (Itinerary.itinerary it).

Lemma lines_line (a b : string) :
  oneLine a = true -> lines (a ++ nl ++ b) = a :: lines b.
Proof.
  induction a as [|c a IH]; cbn [oneLine]; intros H.
  - reflexivity.
  - apply andb_true_iff in H. destruct H as [C H].
    cbn [append lines]. apply negb_true_iff in C. rewrite C.
    now rewrite (IH H).
Qed.

Lemma lines_last (a : string) : oneLine a = true -> lines a = [a].
Proof.
  induction a as [|c a IH]; cbn [oneLine]; intros H; [reflexivity|].
  apply andb_true_iff in H. destruct H as [C H].
  cbn [lines]. apply negb_true_iff in C. now rewrite C, (IH H).
Qed.

Lemma oneLine_app (a b : string) :
  oneLine (a ++ b) = oneLine a && oneLine b.
Proof.
  induction a as [|c a IH]; cbn [append oneLine]; [reflexivity|].
  now rewrite IH, andb_assoc.
Qed.

Lemma oneLine_digits (d : Decimal.uint) :
  oneLine (NilEmpty.string_of_uint d) = true.
Proof. induction d; simpl; [reflexivity|assumption..]. Qed.

Lemma oneLine_ofNat (n : nat) : oneLine (ofNat n) = true.
Proof. apply oneLine_digits. Qed.

Lemma concat_cons (x : string) (l : list string) :
  String.concat "" (x :: l) = (x ++ String.concat "" l)%string.
Proof.
  destruct l as [|y l]; [|reflexivity]. simpl.
  induction x as [|c x IH]; simpl; [reflexivity|now rewrite <- IH].
Qed.

Lemma line_break_last (a b c d rest : string) :
  ((a ++ b ++ c ++ d ++ nl) ++ rest
   = (a ++ b ++ c ++ d) ++ nl ++ rest)%string.
Proof. now rewrite !append_assoc. Qed.

Lemma lines_locations (locs : list Loc.t) (rest : string) :
  forallb (fun loc => oneLine (Loc.time loc) && oneLine (Loc.name loc)) locs
  = true ->
  lines (String.concat "" (List.map locLine locs) ++ rest)
  = List.map (fun loc =>
                ("  " ++ Loc.time loc ++ " - " ++ Loc.name loc)%string) locs
    ++ lines rest.
Proof.
  induction locs as [|loc locs IH]; cbn [forallb List.map]; intros H.
  - reflexivity.
  - apply andb_true_iff in H. destruct H as [H1 H2].
    apply andb_true_iff in H1. destruct H1 as [Ht Hn].
    rewrite concat_cons, append_assoc. unfold locLine at 1.
    rewrite line_break_last, lines_line.
    + cbn [app]. f_equal. now apply IH.
    + rewrite !oneLine_app, Ht, Hn. reflexivity.
Qed.

Lemma heading_break (a b c d e f g rest : string) :
  ((a ++ b ++ c ++ d ++ e ++ f ++ g ++ nl) ++ rest
   = (a ++ b ++ c ++ d ++ e ++ f ++ g) ++ nl ++ rest)%string.
Proof. now rewrite !append_assoc. Qed.

Lemma lines_nl (rest : string) : lines (nl ++ rest) = "" :: lines rest.
Proof. reflexivity. Qed.

(** The lines of what one turn of the outer [forEach] appends. *)
Lemma lines_days (days : list Day.t) (rest : string) :
  forallb (fun day =>
             oneLine (Day.date day) && oneLine (Day.city day)
             && forallb (fun loc => oneLine (Loc.time loc)
                                    && oneLine (Loc.name loc))
                  (Day.locations day)) days = true ->
  lines (String.concat "" (List.map dayBlock days) ++ rest)
  = flat_map
      (fun day =>
         ("📅 Day " ++ ofNat (Day.day day) ++ " - " ++ Day.date day
            ++ " (" ++ Day.city day ++ ")")%string
         :: List.map (fun loc =>
                        ("  " ++ Loc.time loc ++ " - " ++ Loc.name loc)%string)
              (Day.locations day)
         ++ [""]) days
    ++ lines rest.
Proof.
  induction days as [|day days IH]; cbn [forallb List.map flat_map];
    intros H.
  - reflexivity.
  - apply andb_true_iff in H. destruct H as [H1 H2].
    apply andb_true_iff in H1. destruct H1 as [H1 Hl].
    apply andb_true_iff in H1. destruct H1 as [Hd Hc].
    rewrite concat_cons, append_assoc. unfold dayBlock at 1, dayLine.
    rewrite append_assoc, heading_break, lines_line.
    + rewrite append_assoc, (lines_locations _ _ Hl), lines_nl.
      cbn [app]. f_equal. rewrite (IH H2), <- !app_assoc. reflexivity.
    + rewrite !oneLine_app, oneLine_ofNat, Hd, Hc. reflexivity.
Qed.

(** The text shared is, line by line: the title, an empty line, then for
    every day of the plan in order its heading "📅 Day n - date (city)",
    one line "  time - name" for each of its locations in order and an
    empty line, and the signature at the end; no date, city, time or name
    holding a line break.  It goes to [navigator.share] when that exists,
    and otherwise to the clipboard, followed by the alert once the write
    succeeded. *)
Theorem shared_text_lists_every_location (canShare written : bool)
    (it : Itinerary.t) :
  oneLineEach it = true ->
  exists text,
    shareItinerary canShare written (Some it)
    = (if canShare then [share "AI 여행 계획" text]
       else if written
            then [writeText text;
                  alert "여행 계획이 클립보드에 복사되었습니다!"]
            else [writeText text])
    /\ lines text
       = "✈️ AI가 생성한 동해안 여행 계획" :: ""
         :: flat_map
              (fun day =>
                 ("📅 Day " ++ ofNat (Day.day day) ++ " - " ++ Day.date day
                    ++ " (" ++ Day.city day ++ ")")%string
                 :: List.map
                      (fun loc =>
                         ("  " ++ Loc.time loc ++ " - "
                            ++ Loc.name loc)%string)
                      (Day.locations day)
                 ++ [""])
              (Itinerary.itinerary it)
         ++ ["🚀 TripAI에서 생성됨"].
Proof.
  intros H. exists (shareText it). split.
  - unfold shareItinerary. now destruct canShare, written.
  - unfold shareText.
    rewrite (lines_line "✈️ AI가 생성한 동해안 여행 계획" _ eq_refl).
    rewrite lines_nl. f_equal. f_equal.
    now rewrite (lines_days _ _ H).
Qed.

Lemma shared_text_lists_every_location_witness :
  exists text,
    shareItinerary false true (Some ParseTravel.fallback)
    = [writeText text; alert "여행 계획이 클립보드에 복사되었습니다!"]
    /\ lines text
       = [ "✈️ AI가 생성한 동해안 여행 계획";
           "";
           "📅 Day 1 - 여행 1일차 (강릉)";
           "  09:00 - 경포해변";
           "  11:00 - 오죽헌";
           "";
           "🚀 TripAI에서 생성됨" ].
Proof.
  exact (shared_text_lists_every_location false true ParseTravel.fallback
           eq_refl).
Defined.

End ShareDownloadFacts.

(* ------------------------------------------------------------------ *)
(** ** script.js: the single-file version of the page                  *)
(* ------------------------------------------------------------------ *)

Module ScriptJs.
Import Js ParseTravel.

Module Loc.
Record t : Type := Make {
  name : string;
  lat : Q;
  lng : Q;
  time : string;
  city : string
}.
End Loc.

Module Day.
Record t : Type := Make {
  day : nat;
  date : string;
  city : string;
  locations : list Loc.t
}.
End Day.

Module Plan.
Record t : Type := Make {
  cities : list City.t;
  primaryCity : option City.t;
  itinerary : list Day.t
}.
End Plan.

(** The two tables at the head of [parseTravel]. *)
Definition cities : list City.t :=
  [ City.Make "서울" (375665 # 10000)%Q (126978 # 1000)%Q;
    City.Make "부산" (351796 # 10000)%Q (1290756 # 10000)%Q;
    City.Make "제주도" (334996 # 10000)%Q (1265312 # 10000)%Q;
    City.Make "강릉" (377519 # 10000)%Q (1288761 # 10000)%Q;
    City.Make "속초" (38207 # 1000)%Q (1285918 # 10000)%Q;
    City.Make "양양" (380754 # 10000)%Q (128619 # 1000)%Q;
    City.Make "전주" (358242 # 10000)%Q (127148 # 1000)%Q;
    City.Make "경주" (358562 # 10000)%Q (1292247 # 10000)%Q;
    City.Make "여수" (347604 # 10000)%Q (1276622 # 10000)%Q ].

Definition attractions : list (string * list string) :=
  [ ("부산",
      ["해운대 해수욕장"; "감천문화마을"; "태종대"; "광안리 해변"; "자갈치시장"]);
    ("서울",
      ["경복궁"; "명동"; "홍대"; "강남"; "남산타워"]);
    ("제주도",
      ["성산일출봉"; "한라산"; "중문 해수욕장"; "우도"; "천지연폭포"]);
    ("강릉",
      ["경포해변"; "오죽헌"; "안목해변"; "정동진"; "강릉 커피거리"]);
    ("속초",
      ["속초해수욕장"; "설악산 국립공원"; "속초 중앙시장"; "외옹치 해변"]);
    ("양양",
      ["낙산해수욕장"; "설악산 대청봉"; "양양 서피비치"; "오색온천"]);
    ("전주",
      ["한옥마을"; "전주 비빔밥"; "오목대"; "경기전"]);
    ("경주",
      ["불국사"; "석굴암"; "첨성대"; "안압지"]);
    ("여수",
      ["여수 엑스포"; "오동도"; "향일암"; "돌산대교"]) ].

Fixpoint lookup (table : list (string * list string)) (key : string)
  : option (list string) :=
  match table with
  | [] => None
  | (k, v) :: table' => if String.eqb k key then Some v else lookup table' key
  end.

Definition placeholders : list string := ["관광지 A"; "관광지 B"].

(** The object pushed for [cityAttractions[j]]. *)
Definition makeLocation (currentCity : City.t) (name : string) (j : nat)
  : Rand Loc.t :=
  r1 <~ random ;;
  r2 <~ random ;;
  retR {| Loc.name := name;
          Loc.lat := fadd (number (City.lat currentCity))
                       (fmul (fsub r1 (1 # 2)) (number (2 # 100)));
          Loc.lng := fadd (number (City.lng currentCity))
                       (fmul (fsub r2 (1 # 2)) (number (2 # 100)));
          Loc.time := (ofNat (9 + j * 2) ++ ":00")%string;
          Loc.city := City.name currentCity |}.

(** The body of the outer loop.  The inner loop runs [j] over the first
    [numLocations] indices of [cityAttractions], all of them within the
    array. *)
Definition generateDay (detectedCities : list City.t) (dates : list string)
    (i : nat) : M Day.t :=
  let cityIndex := i mod List.length detectedCities in
  match nth_error detectedCities cityIndex with
  | None => throw TypeError
  | Some currentCity =>
      let cityAttractions :=
        match lookup attractions (City.name currentCity) with
        | Some names => names
        | None => placeholders
        end in
      let numLocations := Nat.min (List.length cityAttractions) 3 in
      lift (
        dayLocations <~ mapiR (makeLocation currentCity) 0
                          (firstn numLocations cityAttractions) ;;
        retR {| Day.day := i + 1;
                Day.date := dateOrLabel dates i;
                Day.city := City.name currentCity;
                Day.locations := dayLocations |})
  end.

Fixpoint generateDays (detectedCities : list City.t) (dates : list string)
    (todo : list nat) (itinerary : list Day.t) : M (list Day.t) :=
  match todo with
  | [] => ret itinerary
  | i :: todo' =>
      d <- generateDay detectedCities dates i ;;
      generateDays detectedCities dates todo' (itinerary ++ [d])
  end.

(** The [try] block; detection of cities and dates is the code
    [parseTravel.js] kept. *)
Definition parseTravelTry (input : string) : M Plan.t :=
  detectedCities <- detectedOrDefault cities input ;;
  let dates := detectDates input in
  let maxDays := maxDays dates detectedCities in
  itinerary <- generateDays detectedCities dates (seq 0 maxDays) [] ;;
  let result :=
    {| Plan.cities := detectedCities;
       Plan.primaryCity := nth_error detectedCities 0;
       Plan.itinerary := itinerary |} in
  if List.length (Plan.itinerary result) =? 0
  then throw (Error "일정이 생성되지 않았습니다")
  else ret result.

Definition fallbackLocation (name time : string) : Loc.t :=
  {| Loc.name := name;
     Loc.lat := (377519 # 10000)%Q;
     Loc.lng := (1288761 # 10000)%Q;
     Loc.time := time;
     Loc.city := "강릉" |}.

Definition fallback : Plan.t :=
  {| Plan.cities := [gangneung];
     Plan.primaryCity := Some gangneung;
     Plan.itinerary :=
       [ {| Day.day := 1;
            Day.date := "여행 1일차";
            Day.city := "강릉";
            Day.locations :=
              [ fallbackLocation "경포해변" "09:00";
                fallbackLocation "오죽헌" "11:00" ] |} ] |}.

Definition parseTravel (input : string) (g : rng) : Plan.t :=
  match parseTravelTry input g with
  | (Normal result, _) => result
  | (Throw _, _) => fallback
  end.

End ScriptJs.

Module ScriptJsFacts.
Import Js ParseTravel ParseTravelFacts ScriptJs.

(** The tables as a catalog, to share the facts about detection. *)
Definition table : Catalog.t :=
  {| Catalog.cities := cities; Catalog.attractions := [] |}.

Lemma every_city_listed (c : City.t) :
  In c cities ->
  exists names,
    lookup attractions (City.name c) = Some names
    /\ 3 <= List.length names.
Proof.
  assert (A : forallb
                (fun c => match lookup attractions (City.name c) with
                          | Some names => 3 <=? List.length names
                          | None => false
                          end) cities = true) by reflexivity.
  rewrite forallb_forall in A. intros H. specialize (A c H).
  destruct (lookup attractions (City.name c)) as [names|]; [|discriminate].
  exists names. split; [reflexivity|now apply Nat.leb_le].
Qed.

Lemma detected_always (input : string) :
  exists detectedCities,
    effectiveCities table input = Some detectedCities
    /\ detectedCities <> []
    /\ (forall c, In c detectedCities -> In c cities).
Proof.
  unfold effectiveCities. simpl Catalog.cities.
  destruct (detectCities cities input) as [|c l] eqn:D.
  - exists [City.Make "강릉" (377519 # 10000)%Q (1288761 # 10000)%Q].
    split; [reflexivity|]. split; [discriminate|].
    intros c [<-|[]]. simpl. tauto.
  - exists (c :: l). split; [reflexivity|]. split; [discriminate|].
    intros x Hx. rewrite <- D in Hx. unfold detectCities in Hx.
    now apply filter_In in Hx.
Qed.

Lemma mapiR_script (c : City.t) (names : list string) (i : nat) (g : rng) :
  let ls := fst (mapiR (makeLocation c) i names g) in
  List.map Loc.name ls = names
  /\ List.map Loc.time ls
     = List.map (fun k => (ofNat (9 + k * 2) ++ ":00")%string)
         (seq i (List.length names))
  /\ Forall (fun l => Loc.city l = City.name c) ls.
Proof.
  revert i g. induction names as [|n names IH]; intros i g; simpl.
  - repeat split. constructor.
  - unfold bindR, retR.
    assert (T : let y := fst (makeLocation c n i g) in
                Loc.name y = n
                /\ Loc.time y = (ofNat (9 + i * 2) ++ ":00")%string
                /\ Loc.city y = City.name c) by now repeat split.
    destruct (makeLocation c n i g) as [y g1]. simpl in T.
    destruct T as (T1 & T2 & T3). specialize (IH (S i) g1).
    destruct (mapiR (makeLocation c) (S i) names g1) as [ys g2].
    simpl in *. destruct IH as (I1 & I2 & I3).
    rewrite T1, T2, I1, I2. repeat split. now constructor.
Qed.

(** What the loop body for [i] pushes. *)
Record scripted (detectedCities : list City.t) (dates : list string)
    (i : nat) (d : Day.t) : Prop := {
  scr_day : Day.day d = i + 1;
  scr_date : Day.date d = dateOrLabel dates i;
  scr_content :
    exists c names,
      nth_error detectedCities (i mod List.length detectedCities) = Some c
      /\ Day.city d = City.name c
      /\ lookup attractions (City.name c) = Some names
      /\ List.map Loc.name (Day.locations d) = firstn 3 names
      /\ List.map Loc.time (Day.locations d) = ["9:00"; "11:00"; "13:00"]
      /\ Forall (fun l => Loc.city l = City.name c) (Day.locations d)
}.

Lemma generateDay_script (detectedCities : list City.t) (dates : list string)
    (i : nat) (g : rng) :
  detectedCities <> [] ->
  (forall c, In c detectedCities -> In c cities) ->
  exists d g',
    generateDay detectedCities dates i g = (Normal d, g')
    /\ scripted detectedCities dates i d.
Proof.
  intros N Sub.
  destruct (round_robin_defined detectedCities i N) as [c Hc].
  destruct (every_city_listed c (Sub c (nth_error_In _ _ Hc)))
    as (names & L & L3).
  unfold generateDay. rewrite Hc, L. unfold lift, bindR, retR.
  replace (Nat.min (List.length names) 3) with 3 by lia.
  pose proof (mapiR_script c (firstn 3 names) 0 g) as (M1 & M2 & M3).
  rewrite length_firstn in M2.
  replace (Nat.min 3 (List.length names)) with 3 in M2 by lia.
  destruct (mapiR (makeLocation c) 0 (firstn 3 names) g) as [ls g1].
  cbn [fst] in M1, M2, M3. eexists. eexists. split; [reflexivity|].
  constructor; cbn [Day.day Day.date Day.city Day.locations]; try reflexivity.
  exists c, names. repeat split; try assumption.
Qed.

Lemma generateDays_script (detectedCities : list City.t) (dates : list string)
    (todo : list nat) (itinerary : list Day.t) (g : rng) :
  detectedCities <> [] ->
  (forall c, In c detectedCities -> In c cities) ->
  exists ds g',
    generateDays detectedCities dates todo itinerary g
      = (Normal (itinerary ++ ds), g')
    /\ Forall2 (scripted detectedCities dates) todo ds.
Proof.
  intros N Sub. revert itinerary g.
  induction todo as [|i todo IH]; intros itinerary g; simpl.
  - exists [], g. rewrite app_nil_r. split; [reflexivity|constructor].
  - destruct (generateDay_script detectedCities dates i g N Sub)
      as (d & g1 & E & G).
    unfold bind. rewrite E.
    destruct (IH (itinerary ++ [d]) g1) as (ds & g2 & E2 & F).
    exists (d :: ds), g2. rewrite E2, <- app_assoc.
    split; [reflexivity|now constructor].
Qed.

Lemma parseTravelTry_script (input : string) (g : rng) :
  exists detectedCities ds g',
    parseTravelTry input g
      = (Normal {| Plan.cities := detectedCities;
                   Plan.primaryCity := nth_error detectedCities 0;
                   Plan.itinerary := ds |}, g')
    /\ effectiveCities table input = Some detectedCities
    /\ Forall2 (scripted detectedCities (detectDates input))
         (seq 0 (maxDays (detectDates input) detectedCities)) ds.
Proof.
  destruct (detected_always input) as (detected & E & N & Sub).
  unfold parseTravelTry, bind.
  pose proof (detectedOrDefault_spec table input g) as DS.
  cbn [Catalog.cities table] in DS. rewrite DS, E.
  destruct (generateDays_script detected (detectDates input)
              (seq 0 (maxDays (detectDates input) detected)) [] g N Sub)
    as (ds & g' & E2 & F).
  rewrite E2. simpl. exists detected, ds, g'.
  pose proof (Forall2_length F) as L. rewrite length_seq in L.
  pose proof (maxDays_bounds (detectDates input) detected
                (detectDates_length input)) as B.
  destruct (Nat.eqb_spec (List.length ds) 0); [lia|]. now repeat split.
Qed.

(** The single-file [parseTravel] never takes its [catch] block: its
    table has an element 3 and every city of the table has attractions, so
    for every input it returns a generated plan of two to five days, at
    most three unless two cities were detected. *)
Theorem script_parseTravel_always_generates (input : string) (g : rng) :
  exists r g',
    parseTravelTry input g = (Normal r, g')
    /\ parseTravel input g = r
    /\ Plan.cities r <> []
    /\ 2 <= List.length (Plan.itinerary r) <= 5
    /\ (List.length (Plan.cities r) <= 1 ->
        List.length (Plan.itinerary r) <= 3).
Proof.
  destruct (parseTravelTry_script input g) as (detected & ds & g' & T & E & F).
  eexists. exists g'. split; [exact T|].
  split; [unfold parseTravel; now rewrite T|]. simpl.
  split; [exact (effectiveCities_nonempty _ _ _ E)|].
  pose proof (Forall2_length F) as L. rewrite length_seq in L.
  pose proof (maxDays_bounds (detectDates input) detected
                (detectDates_length input)) as B.
  rewrite <- L. split; [|].
  - unfold maxDays in *. destruct (1 <? List.length detected); lia.
  - unfold maxDays. destruct (Nat.ltb_spec 1 (List.length detected)); lia.
Qed.

(** Every day of the single-file [parseTravel] has exactly three
    locations: the first three attractions of its city, in the order of
    the table, at 9:00, 11:00 and 13:00; the placeholder attractions are
    never used. *)
Theorem script_day_has_first_three_attractions (input : string) (g : rng)
    (d : Day.t) :
  In d (Plan.itinerary (parseTravel input g)) ->
  exists c names,
    In c cities
    /\ Day.city d = City.name c
    /\ lookup attractions (City.name c) = Some names
    /\ List.map Loc.name (Day.locations d) = firstn 3 names
    /\ List.length (Day.locations d) = 3
    /\ List.map Loc.time (Day.locations d) = ["9:00"; "11:00"; "13:00"]
    /\ forall l, In l (Day.locations d) -> Loc.city l = Day.city d.
Proof.
  destruct (parseTravelTry_script input g) as (detected & ds & g' & T & E & F).
  unfold parseTravel. rewrite T. simpl. intros Hd.
  apply In_nth_error in Hd. destruct Hd as [i Hd].
  destruct (Forall2_nth_error _ _ _ _ _ F Hd) as (a & _ & S).
  destruct (scr_content _ _ _ _ S) as (c & names & Hc & Hn & L & N & Tm & Ct).
  destruct (detected_always input) as (detected' & E' & _ & Sub).
  rewrite E in E'. injection E' as <-.
  exists c, names. repeat split; try assumption.
  - apply Sub. eapply nth_error_In; eassumption.
  - rewrite <- (length_map Loc.time), Tm. reflexivity.
  - rewrite Hn. now apply Forall_forall.
Qed.

Lemma script_day_has_first_three_attractions_witness :
  exists d,
    nth_error (Plan.itinerary (parseTravel "속초 1박" Sample.alternating)) 0
    = Some d
    /\ List.map Loc.name (Day.locations d)
       = ["속초해수욕장"; "설악산 국립공원"; "속초 중앙시장"]
    /\ exists c names,
         In c cities
         /\ Day.city d = City.name c
         /\ lookup attractions (City.name c) = Some names
         /\ List.map Loc.name (Day.locations d) = firstn 3 names
         /\ List.length (Day.locations d) = 3
         /\ List.map Loc.time (Day.locations d) = ["9:00"; "11:00"; "13:00"]
         /\ forall l, In l (Day.locations d) -> Loc.city l = Day.city d.
Proof.
  eexists. split; [reflexivity|]. split; [reflexivity|].
  apply (script_day_has_first_three_attractions "속초 1박" Sample.alternating).
  left. reflexivity.
Defined.

End ScriptJsFacts.

(* ------------------------------------------------------------------ *)
(** ** Text primitives of the page scripts                             *)
(* ------------------------------------------------------------------ *)

Module JsText.
Import Js.

(** [s.trimStart()]: white space and line terminators are dropped from
    the front, one character at a time. *)
Fixpoint dropSpaces (fuel : nat) (s : string) : string :=
  match fuel with
  | 0 => s
  | S fuel' =>
      match firstStrip whiteSpace s with
      | s' :: _ => dropSpaces fuel' s'
      | [] => s
      end
  end.

Definition trimStart (s : string) : string := dropSpaces (String.length s) s.

(** [!s.trim()]: nothing is left of [s] once the white space at both ends
    is dropped, that is, once it is dropped from the front. *)
Definition blank (s : string) : bool := String.eqb (trimStart s) "".

(** The value of a digit in the given radix. *)
Definition digitValue (radix : nat) (c : ascii) : option nat :=
  let n := nat_of_ascii c in
  let v :=
    if (48 <=? n) && (n <=? 57) then Some (n - 48)
    else if (97 <=? n) && (n <=? 122) then Some (n - 87)
    else if (65 <=? n) && (n <=? 90) then Some (n - 55)
    else None in
  match v with
  | Some d => if d <? radix then Some d else None
  | None => None
  end.

(** The number written by the longest prefix of digits of [s]. *)
Fixpoint digitsValue (radix : nat) (s : string) (acc : nat) : nat :=
  match s with
  | String c s' =>
      match digitValue radix c with
      | Some d => digitsValue radix s' (radix * acc + d)
      | None => acc
      end
  | EmptyString => acc
  end.

Definition startsWithDigit (radix : nat) (s : string) : bool :=
  match s with
  | String c _ =>
      match digitValue radix c with Some _ => true | None => false end
  | EmptyString => false
  end.

(** [parseInt(s)] without a radix: leading white space, a sign, a [0x] or
    [0X] prefix for radix 16, then the longest prefix of digits; [None] is
    [NaN]. *)
Definition parseInt (s : string) : option Z :=
  let s1 := trimStart s in
  let (negative, s2) :=
    match strip "-" s1, strip "+" s1 with
    | Some rest, _ => (true, rest)
    | None, Some rest => (false, rest)
    | None, None => (false, s1)
    end in
  let (radix, s3) :=
    match strip "0x" s2, strip "0X" s2 with
    | Some rest, _ => (16, rest)
    | None, Some rest => (16, rest)
    | None, None => (10, s2)
    end in
  if startsWithDigit radix s3
  then
    let v := Z.of_nat (digitsValue radix s3 0) in
    Some (if negative then (- v)%Z else v)
  else None.

End JsText.

(* ------------------------------------------------------------------ *)
(** ** itinerary.js                                                    *)
(* ------------------------------------------------------------------ *)

Module ItineraryJs.
Import Js JsText MapControl.

(** A rendered [.location-item]: its two data attributes, the class and
    the icon of its type, and the time and the name it shows. *)
Record Item : Type := {
  dataDay : string;
  dataLoc : string;
  locType : LocType;
  icon : string;
  itemTime : string;
  itemName : string
}.

(** A rendered [.itinerary-card]: the text of its heading, the numbers
    put before "km" and "분", and its location items. *)
Record Card : Type := {
  dayDate : string;
  shownDistance : Q;
  shownDuration : Q;
  items : list Item
}.

Fixpoint mapi {A B : Type} (f : A -> nat -> B) (i : nat) (l : list A)
  : list B :=
  match l with
  | [] => []
  | x :: l' => f x i :: mapi f (S i) l'
  end.

Definition renderItem (dayIdx : nat) (loc : Loc.t) (locIdx : nat) : Item :=
  {| dataDay := ofNat dayIdx;
     dataLoc := ofNat locIdx;
     locType := Loc.type loc;
     icon := if isFood (Loc.type loc) then "🍴" else "📍";
     itemTime := Loc.time loc;
     itemName := Loc.name loc |}.

Definition renderCard (dayStats : list (option DayStat)) (day : Day.t)
    (dayIdx : nat) : Card :=
  let stat :=
    match get dayStats dayIdx with
    | Some stat => stat
    | None => zeroStat
    end in
  {| dayDate := ("Day " ++ ofNat (Day.day day) ++ " - " ++ Day.date day
                   ++ " (" ++ Day.city day ++ ")")%string;
     shownDistance := distance stat;
     shownDuration := duration stat;
     items := mapi (renderItem dayIdx) 0 (Day.locations day) |}.

(** [displayItinerary(parsed, dayStats)]: the cards written into
    [#itinerary], as the document holds them once the markup is parsed.
    Without a second argument [dayStats] is the empty array. *)
Definition displayItinerary (itinerary : list Day.t)
    (dayStats : list (option DayStat)) : list Card :=
  mapi (renderCard dayStats) 0 itinerary.

(** The click handler of an item.  A [NaN] or negative index matches no
    marker: [markers[NaN]] is [undefined] and no tag is negative. *)
Definition click (item : Item) (w : World) : World :=
  match parseInt (dataDay item), parseInt (dataLoc item) with
  | Some dayIdx, Some locIdx =>
      if (0 <=? dayIdx)%Z && (0 <=? locIdx)%Z
      then highlightMarker (Z.to_nat dayIdx) (Z.to_nat locIdx) w
      else w
  | _, _ => w
  end.

End ItineraryJs.

Module ItineraryJsFacts.
Import Js JsText MapControl ItineraryJs.

(** *** Reading back a printed index *)

Lemma digitsValue_of_uint (d : Decimal.uint) (acc : nat) :
  digitsValue 10 (NilEmpty.string_of_uint d) acc = Nat.of_uint_acc d acc.
Proof.
  revert acc. induction d as [|d IH|d IH|d IH|d IH|d IH|d IH|d IH|d IH|d IH|d IH];
    intros acc; cbn [NilEmpty.string_of_uint digitsValue Nat.of_uint_acc];
    [reflexivity|..];
    cbn [digitValue nat_of_ascii]; cbv zeta;
    match goal with
    | |- context [digitValue 10 ?c] =>
        change (digitValue 10 c)
          with (ltac:(let v := eval vm_compute in (digitValue 10 c) in exact v))
    end;
    cbv iota beta; rewrite IH, Nat.tail_mul_spec; f_equal; lia.
Qed.

Lemma no_x (d : Decimal.uint) :
  strip "x" (NilEmpty.string_of_uint d) = None
  /\ strip "X" (NilEmpty.string_of_uint d) = None.
Proof. destruct d; split; reflexivity. Qed.

Lemma printed_is_plain (d : Decimal.uint) :
  d <> Decimal.Nil ->
  let s := NilEmpty.string_of_uint d in
  firstStrip whiteSpace s = []
  /\ strip "-" s = None /\ strip "+" s = None
  /\ strip "0x" s = None /\ strip "0X" s = None
  /\ startsWithDigit 10 s = true.
Proof.
  intros N. destruct d as [|d|d|d|d|d|d|d|d|d|d]; [congruence|..];
    cbn [NilEmpty.string_of_uint]; cbv zeta;
    (repeat split; try reflexivity);
    cbn [strip]; cbn; apply no_x.
Qed.

Lemma to_uint_not_nil (n : nat) : Nat.to_uint n <> Decimal.Nil.
Proof.
  intros E. pose proof (Unsigned.of_to n) as H. rewrite E in H.
  simpl in H. subst n. discriminate E.
Qed.

Lemma trimStart_plain (s : string) :
  firstStrip whiteSpace s = [] -> trimStart s = s.
Proof.
  intros H. unfold trimStart.
  destruct (String.length s); cbn [dropSpaces]; [reflexivity|].
  now rewrite H.
Qed.

Lemma parseInt_ofNat (n : nat) :
  parseInt (ofNat n) = Some (Z.of_nat n).
Proof.
  unfold ofNat.
  destruct (printed_is_plain (Nat.to_uint n) (to_uint_not_nil n))
    as (W & M & P & X1 & X2 & D).
  unfold parseInt. rewrite (trimStart_plain _ W), M, P, X1, X2, D.
  rewrite digitsValue_of_uint.
  change (Nat.of_uint_acc (Nat.to_uint n) 0) with (Nat.of_uint (Nat.to_uint n)).
  now rewrite Unsigned.of_to.
Qed.

(** *** Cards and clicks *)

Lemma mapi_nth {A B : Type} (f : A -> nat -> B) (k : nat) (l : list A)
    (i : nat) :
  nth_error (mapi f k l) i
  = option_map (fun x => f x (k + i)) (nth_error l i).
Proof.
  revert k i. induction l as [|x l IH]; intros k [|i]; simpl;
    try reflexivity.
  - now rewrite Nat.add_0_r.
  - rewrite IH. now replace (S k + i) with (k + S i) by lia.
Qed.

Lemma mapi_length {A B : Type} (f : A -> nat -> B) (k : nat) (l : list A) :
  List.length (mapi f k l) = List.length l.
Proof.
  revert k. induction l as [|x l IH]; intros k; simpl;
    [reflexivity|now rewrite IH].
Qed.

Lemma click_rendered (dayIdx locIdx : nat) (loc : Loc.t) (w : World) :
  click (renderItem dayIdx loc locIdx) w = highlightMarker dayIdx locIdx w.
Proof.
  unfold click, renderItem. cbn [dataDay dataLoc].
  rewrite !parseInt_ofNat.
  destruct (Z.leb_spec 0 (Z.of_nat dayIdx)); [|lia].
  destruct (Z.leb_spec 0 (Z.of_nat locIdx)); [|lia].
  cbn [andb]. now rewrite !Nat2Z.id.
Qed.

(** Every location of the itinerary gets an item in the card of its day,
    showing its time and name, and a click on that item calls
    [highlightMarker] with the indices of exactly that location: the
    indices written into [data-day] and [data-loc] are read back
    unchanged. *)
Theorem click_reaches_its_location (itinerary : list Day.t)
    (dayStats : list (option DayStat)) (i j : nat) (day : Day.t)
    (loc : Loc.t) :
  nth_error itinerary i = Some day ->
  nth_error (Day.locations day) j = Some loc ->
  exists card item,
    nth_error (displayItinerary itinerary dayStats) i = Some card
    /\ nth_error (items card) j = Some item
    /\ itemTime item = Loc.time loc /\ itemName item = Loc.name loc
    /\ forall w, click item w = highlightMarker i j w.
Proof.
  intros Hd Hl. unfold displayItinerary.
  exists (renderCard dayStats day i), (renderItem i loc j).
  split; [now rewrite mapi_nth, Hd|].
  split; [cbn [renderCard items]; now rewrite mapi_nth, Hl|].
  split; [reflexivity|]. split; [reflexivity|].
  intros w. apply click_rendered.
Qed.

Lemma click_reaches_its_location_witness :
  exists card item,
    nth_error (displayItinerary MapControlFacts.twoDays []) 1 = Some card
    /\ nth_error (items card) 0 = Some item
    /\ itemTime item = "9:00" /\ itemName item = "안목해변"
    /\ forall w, click item w = highlightMarker 1 0 w.
Proof.
  apply (click_reaches_its_location MapControlFacts.twoDays [] 1 0
           (nth 1 MapControlFacts.twoDays (Day.Make 0 "" "" [] 0%Q 0%Q))
           (ParseTravel.fallbackLocation "안목해변" "9:00"));
    reflexivity.
Defined.

End ItineraryJsFacts.

(* ------------------------------------------------------------------ *)
(** ** main.js                                                         *)
(* ------------------------------------------------------------------ *)

Module MainJs.
Import Js JsText ParseTravel MapControl ItineraryJs.

(** The value of [currentItinerary]: [null], a result of [parseTravel],
    or the object literal of the [catch] block of [generatePlan]. *)
Inductive Current : Type :=
| noItinerary
| parsedItinerary (parsed : Itinerary.t)
| fallbackItinerary.

(** What [#map] was overwritten with, if it was. *)
Inductive Notice : Type :=
| leafletMissing          (* the message of [initMap] *)
| stillLoading.           (* the message of the [catch] block *)

(** The page: the map module, the variables of [main.js], and what the
    document shows.  [generating] stands for the four settings that go
    together (button disabled and relabelled, loading indicator shown, map
    hidden); [rendered] lists the calls of [displayItinerary], oldest
    first, the last being what [#itinerary] holds. *)
Record Page : Type := {
  world : World;
  currentItinerary : Current;
  currentDayStats : list (option DayStat);
  rendered : list (list Card);
  shareShown : bool;
  generating : bool;
  mapNotice : option Notice;
  alerts : list string
}.

(** The cards [displayItinerary(fallbackItinerary)] writes: one day, two
    spots, no statistics. *)
Definition fallbackCards : list Card :=
  [ {| dayDate := "Day 1 - 7월 25일 (강릉)";
       shownDistance := 0%Q;
       shownDuration := 0%Q;
       items :=
         [ {| dataDay := "0"; dataLoc := "0"; locType := spot;
              icon := "📍"; itemTime := "09:00"; itemName := "경포해변" |};
           {| dataDay := "0"; dataLoc := "1"; locType := spot;
              icon := "📍"; itemTime := "12:00"; itemName := "오죽헌" |} ] |} ].

(** The callback [generatePlan] hands to [addMarkersToMap]. *)
Definition onStats (parsed : Itinerary.t) (p : Page)
    (dayStats : list (option DayStat)) : Page :=
  {| world := world p;
     currentItinerary := currentItinerary p;
     currentDayStats := dayStats;
     rendered := rendered p
                 ++ [displayItinerary (Itinerary.itinerary parsed) dayStats];
     shareShown := true;
     generating := generating p;
     mapNotice := mapNotice p;
     alerts := alerts p |}.

(** The task run 100 ms after the plan was parsed, followed by the
    [routesfound] events that arrive afterwards.  The callback only writes
    variables of the page that the map module never reads, so its
    invocations are replayed, in order, from the log of the run.
    [initMap] and [addMarkersToMap] catch what they throw, so the [catch]
    block around them is never entered. *)
Definition mapTask (parsed : Itinerary.t) (events : list (nat * Summary))
    (p : Page) : Page :=
  let w1 := initMap (world p) in
  let notice := if leaflet (world p) then mapNotice p else Some leafletMissing in
  let w3 :=
    match addMarkersToMap (Itinerary.itinerary parsed) true w1 with
    | (w2, Some run) => fst (deliver events (w2, run))
    | (w2, None) => w2
    end in
  let invoked :=
    skipn (List.length (callbacks (calls (world p)))) (callbacks (calls w3)) in
  fold_left (onStats parsed) invoked
    {| world := w3;
       currentItinerary := currentItinerary p;
       currentDayStats := currentDayStats p;
       rendered := rendered p;
       shareShown := shareShown p;
       generating := generating p;
       mapNotice := notice;
       alerts := alerts p |}.

(** [generatePlan()] for the text [input] of [#travelInput], run to the
    end: the check of the input, the task after 1500 ms with the [catch]
    and [finally] blocks that follow the promise, then the map task. *)
Definition generatePlan (host : Host) (catalog : Catalog.t) (input : string)
    (g : rng) (events : list (nat * Summary)) (p : Page) : Page :=
  if blank input
  then
    {| world := world p;
       currentItinerary := currentItinerary p;
       currentDayStats := currentDayStats p;
       rendered := rendered p;
       shareShown := shareShown p;
       generating := generating p;
       mapNotice := mapNotice p;
       alerts := alerts p ++ ["여행 정보를 입력해주세요!"] |}
  else
    let parsed := parseTravel host catalog input g in
    if List.length (Itinerary.itinerary parsed) =? 0
    then
      {| world := world p;
         currentItinerary := fallbackItinerary;
         currentDayStats := currentDayStats p;
         rendered := rendered p ++ [fallbackCards];
         shareShown := true;
         generating := false;
         mapNotice := Some stillLoading;
         alerts := alerts p |}
    else
      mapTask parsed events
        {| world := world p;
           currentItinerary := parsedItinerary parsed;
           currentDayStats := currentDayStats p;
           rendered := rendered p;
           shareShown := shareShown p;
           generating := false;
           mapNotice := mapNotice p;
           alerts := alerts p |}.

End MainJs.

Module MainJsFacts.
Import Js JsText ParseTravel ParseTravelFacts MapControl MapControlFacts.
Import MapRunFacts ItineraryJs ItineraryJsFacts MainJs.

Lemma parseTravel_has_days (host : Host) (catalog : Catalog.t)
    (input : string) (g : rng) :
  List.length (Itinerary.itinerary (parseTravel host catalog input g)) <> 0.
Proof.
  destruct (parseTravel_returns host catalog input g)
    as [(r & g' & T & ->)|(_ & ->)]; [|discriminate].
  destruct (parseTravelTry_cases host catalog input g r g' T)
    as (detected & _ & _ & F).
  pose proof (Forall2_length F) as L. rewrite length_seq in L.
  pose proof (maxDays_bounds (detectDates input) detected
                (detectDates_length input)). lia.
Qed.

Lemma routable_initMap (w : World) (day : Day.t) :
  routable (initMap w) day = routable w day.
Proof.
  unfold routable, initMap. destruct (leaflet w) eqn:E; [reflexivity|].
  now rewrite E.
Qed.

Lemma routedDays_initMap (w : World) (days : list Day.t) (k : nat) :
  routedDays (initMap w) days k = routedDays w days k.
Proof.
  revert k. induction days as [|day days IH]; intros k;
    cbn [routedDays]; [reflexivity|].
  now rewrite IH, routable_initMap.
Qed.

Lemma replay_keeps (parsed : Itinerary.t)
    (invoked : list (list (option DayStat))) (p : Page) :
  world (fold_left (onStats parsed) invoked p) = world p
  /\ currentItinerary (fold_left (onStats parsed) invoked p)
     = currentItinerary p
  /\ generating (fold_left (onStats parsed) invoked p) = generating p
  /\ mapNotice (fold_left (onStats parsed) invoked p) = mapNotice p
  /\ alerts (fold_left (onStats parsed) invoked p) = alerts p
  /\ rendered (fold_left (onStats parsed) invoked p)
     = rendered p
       ++ List.map (displayItinerary (Itinerary.itinerary parsed)) invoked.
Proof.
  revert p. induction invoked as [|stats l IH]; intros p;
    cbn [fold_left List.map].
  - rewrite app_nil_r. now repeat split.
  - destruct (IH (onStats parsed p stats)) as (W & C & G & N & A & R).
    rewrite W, C, G, N, A, R. cbn [onStats world currentItinerary generating
      mapNotice alerts rendered]. rewrite <- app_assoc. now repeat split.
Qed.

Lemma skipn_own_length {A : Type} (l l' : list A) :
  skipn (List.length l) (l ++ l') = l'.
Proof. induction l as [|x l IH]; simpl; [reflexivity|exact IH]. Qed.

(** The statistics of a run in which every routed day answers once. *)
Lemma complete_run (itinerary : list Day.t) (events : list (nat * Summary))
    (w : World) :
  leaflet w = true -> map w = true -> itinerary <> [] ->
  Permutation (List.map fst events) (routedDays w itinerary 0) ->
  exists w1 r1 stats,
    addMarkersToMap itinerary true w = (w1, Some r1)
    /\ callbacks (calls (fst (deliver events (w1, r1))))
       = callbacks (calls w) ++ [stats]
    /\ forall i day,
         nth_error itinerary i = Some day ->
         (routable w day = false -> get stats i = Some zeroStat)
         /\ (forall route,
               In (i, route) events -> get stats i = Some (routeStat route)).
Proof.
  intros HL HM HN HP.
  destruct (run_callbacks itinerary true events w HL HM) as (w1 & r1 & E & C).
  exists w1, r1. eexists. split; [exact E|].
  pose proof (Permutation_length HP) as LE. rewrite length_map in LE.
  cbn [andb] in C.
  destruct (Nat.ltb_spec 0 (List.length itinerary));
    [|destruct itinerary; [congruence|simpl in *; lia]].
  destruct (Nat.leb_spec (List.length (routedDays w itinerary 0))
              (List.length events)); [|lia].
  split; [exact C|].
  assert (Ix : List.map fst (settledBy w itinerary events)
               = unroutedDays w itinerary 0 ++ List.map fst events).
  { unfold settledBy. rewrite map_app, !map_map. simpl. now rewrite map_id. }
  assert (P : Permutation (List.map fst (settledBy w itinerary events))
                (seq 0 (List.length itinerary))).
  { rewrite Ix, HP. apply days_partition. }
  assert (LA : List.length (settledBy w itinerary events)
               = List.length itinerary).
  { pose proof (Permutation_length P) as LP.
    now rewrite length_map, length_seq in LP. }
  rewrite firstn_all2 by lia.
  assert (ND : NoDup (List.map fst (settledBy w itinerary events))).
  { apply (Permutation_NoDup (Permutation_sym P)). apply seq_NoDup. }
  intros i day Hday. split.
  - intros Rt. apply assignAll_get; [exact ND|].
    unfold settledBy. apply in_or_app. left.
    change (i, zeroStat) with (settleZero i). apply in_map.
    exact (in_unroutedDays w itinerary 0 i day Hday Rt).
  - intros route He. apply assignAll_get; [exact ND|].
    unfold settledBy. apply in_or_app. right.
    change (i, routeStat route) with (settleFound (i, route)).
    now apply in_map.
Qed.

Lemma initMap_online (w : World) :
  leaflet w = true ->
  leaflet (initMap w) = true /\ map (initMap w) = true
  /\ calls (initMap w) = calls w.
Proof. intros H. unfold initMap. rewrite H. now repeat split. Qed.

(** What the callback is invoked with during the map task. *)
Definition invokedWith (parsed : Itinerary.t) (events : list (nat * Summary))
    (w : World) : list (list (option DayStat)) :=
  if leaflet w
  then
    if (0 <? List.length (Itinerary.itinerary parsed))
       && (List.length (routedDays w (Itinerary.itinerary parsed) 0)
           <=? List.length events)
    then [assignAll
            (firstn (List.length (Itinerary.itinerary parsed))
               (settledBy (initMap w) (Itinerary.itinerary parsed) events))
            []]
    else []
  else [].

Lemma mapTask_replays (parsed : Itinerary.t) (events : list (nat * Summary))
    (p : Page) :
  exists w3,
    mapTask parsed events p
    = fold_left (onStats parsed) (invokedWith parsed events (world p))
        {| world := w3;
           currentItinerary := currentItinerary p;
           currentDayStats := currentDayStats p;
           rendered := rendered p;
           shareShown := shareShown p;
           generating := generating p;
           mapNotice := if leaflet (world p) then mapNotice p
                        else Some leafletMissing;
           alerts := alerts p |}.
Proof.
  unfold mapTask, invokedWith. destruct (leaflet (world p)) eqn:HL.
  - destruct (initMap_online (world p) HL) as (L1 & M1 & C1).
    destruct (run_callbacks (Itinerary.itinerary parsed) true events
                (initMap (world p)) L1 M1) as (w1 & r1 & E & C).
    rewrite E. cbn [andb] in C. rewrite C1, routedDays_initMap in C.
    rewrite C, skipn_own_length. now eexists.
  - assert (I : initMap (world p) = world p)
      by (unfold initMap; now rewrite HL).
    rewrite I, (addMarkersToMap_unavailable _ true (world p) (or_introl HL)).
    replace (skipn _ _) with (@nil (list (option DayStat))).
    + now eexists.
    + symmetry. apply skipn_all.
Qed.

Lemma generatePlan_runs (host : Host) (catalog : Catalog.t) (input : string)
    (g : rng) (events : list (nat * Summary)) (p : Page) :
  blank input = false ->
  generatePlan host catalog input g events p
  = mapTask (parseTravel host catalog input g) events
      {| world := world p;
         currentItinerary :=
           parsedItinerary (parseTravel host catalog input g);
         currentDayStats := currentDayStats p;
         rendered := rendered p;
         shareShown := shareShown p;
         generating := false;
         mapNotice := mapNotice p;
         alerts := alerts p |}.
Proof.
  intros B. unfold generatePlan. rewrite B. cbv zeta.
  destruct (Nat.eqb_spec
              (List.length
                 (Itinerary.itinerary (parseTravel host catalog input g))) 0)
    as [E|_]; [|reflexivity].
  now destruct (parseTravel_has_days host catalog input g).
Qed.

(** For an input that is not blank [generatePlan] never takes its own
    fallback: [parseTravel] always hands it a plan with a day.  The plan
    parsed becomes [currentItinerary], the controls are restored, nothing
    is alerted, and the plan is displayed at most once, whatever route
    answers arrive and whatever state the map is in. *)
Theorem generatePlan_keeps_the_parsed_plan (host : Host)
    (catalog : Catalog.t) (input : string) (g : rng)
    (events : list (nat * Summary)) (p : Page) :
  blank input = false ->
  currentItinerary (generatePlan host catalog input g events p)
  = parsedItinerary (parseTravel host catalog input g)
  /\ generating (generatePlan host catalog input g events p) = false
  /\ alerts (generatePlan host catalog input g events p) = alerts p
  /\ (rendered (generatePlan host catalog input g events p) = rendered p
      \/ exists dayStats,
           rendered (generatePlan host catalog input g events p)
           = rendered p
             ++ [displayItinerary
                   (Itinerary.itinerary (parseTravel host catalog input g))
                   dayStats]).
Proof.
  intros B. rewrite (generatePlan_runs host catalog input g events p B).
  destruct (mapTask_replays (parseTravel host catalog input g) events
              {| world := world p;
                 currentItinerary :=
                   parsedItinerary (parseTravel host catalog input g);
                 currentDayStats := currentDayStats p;
                 rendered := rendered p;
                 shareShown := shareShown p;
                 generating := false;
                 mapNotice := mapNotice p;
                 alerts := alerts p |}) as (w3 & ->).
  match goal with
  | |- context [fold_left (onStats ?q) ?l ?p0] =>
      destruct (replay_keeps q l p0) as (_ & C & G & _ & A & R)
  end.
  rewrite C, G, A, R.
  cbn [world currentItinerary generating alerts rendered].
  repeat (split; [reflexivity|]).
  unfold invokedWith.
  destruct (leaflet (world p)); [|left; apply app_nil_r].
  match goal with
  | |- context [if ?c then [?x] else []] => destruct c
  end.
  - right. now eexists.
  - left. apply app_nil_r.
Qed.

(** Without the Leaflet script [generatePlan] displays nothing at all for
    an input that is not blank: the plan is parsed and kept, the map area
    shows the message of [initMap], and no itinerary is written, since only
    the callback of [addMarkersToMap] writes one and it is never called. *)
Theorem without_leaflet_no_plan_is_displayed (host : Host)
    (catalog : Catalog.t) (input : string) (g : rng)
    (events : list (nat * Summary)) (p : Page) :
  blank input = false ->
  leaflet (world p) = false ->
  rendered (generatePlan host catalog input g events p) = rendered p
  /\ shareShown (generatePlan host catalog input g events p) = shareShown p
  /\ currentDayStats (generatePlan host catalog input g events p)
     = currentDayStats p
  /\ mapNotice (generatePlan host catalog input g events p)
     = Some leafletMissing
  /\ calls (world (generatePlan host catalog input g events p))
     = calls (world p).
Proof.
  intros B HL. rewrite (generatePlan_runs host catalog input g events p B).
  unfold mapTask. cbn [world currentItinerary currentDayStats rendered
    shareShown generating mapNotice alerts].
  assert (I : initMap (world p) = world p)
    by (unfold initMap; now rewrite HL).
  rewrite I, (addMarkersToMap_unavailable _ true (world p) (or_introl HL)).
  replace (skipn _ _) with (@nil (list (option DayStat)))
    by (symmetry; apply skipn_all).
  rewrite HL. now repeat split.
Qed.

(** With the map available and one route answer for every day that has a
    routing control, in any order, [generatePlan] displays the parsed plan
    exactly once, one card a day: the card of a day that has no control
    shows 0 km and 0 minutes, the card of a routed day shows the rounded
    figures of that day's own answer. *)
Theorem plan_displayed_once_with_route_figures (host : Host)
    (catalog : Catalog.t) (input : string) (g : rng)
    (events : list (nat * Summary)) (p : Page) :
  blank input = false ->
  leaflet (world p) = true ->
  Permutation (List.map fst events)
    (routedDays (world p)
       (Itinerary.itinerary (parseTravel host catalog input g)) 0) ->
  exists view,
    rendered (generatePlan host catalog input g events p)
    = rendered p ++ [view]
    /\ List.length view
       = List.length (Itinerary.itinerary (parseTravel host catalog input g))
    /\ forall i day,
         nth_error (Itinerary.itinerary (parseTravel host catalog input g)) i
         = Some day ->
         exists card,
           nth_error view i = Some card
           /\ (routable (world p) day = false ->
               shownDistance card = 0%Q /\ shownDuration card = 0%Q)
           /\ (forall route,
                 In (i, route) events ->
                 shownDistance card = distance (routeStat route)
                 /\ shownDuration card = duration (routeStat route)).
Proof.
  intros B HL HP. rewrite (generatePlan_runs host catalog input g events p B).
  set (parsed := parseTravel host catalog input g) in *.
  destruct (initMap_online (world p) HL) as (L1 & M1 & C1).
  assert (HN : Itinerary.itinerary parsed <> []).
  { intros E. apply (parseTravel_has_days host catalog input g).
    fold parsed. now rewrite E. }
  rewrite <- (routedDays_initMap (world p)) in HP.
  destruct (complete_run (Itinerary.itinerary parsed) events
              (initMap (world p)) L1 M1 HN HP)
    as (w1 & r1 & stats & E & C & S).
  unfold mapTask. cbn [world currentItinerary currentDayStats rendered
    shareShown generating mapNotice alerts].
  rewrite E, C, C1, skipn_own_length. cbn [fold_left onStats rendered].
  eexists. split; [reflexivity|]. split.
  - unfold displayItinerary. apply mapi_length.
  - intros i day Hday. unfold displayItinerary.
    rewrite mapi_nth, Hday. cbn [option_map Nat.add].
    eexists. split; [reflexivity|].
    destruct (S i day Hday) as (Z0 & F). split.
    + intros Rt. rewrite <- (routable_initMap (world p)) in Rt.
      unfold renderCard. rewrite (Z0 Rt). now split.
    + intros route He. unfold renderCard. rewrite (F route He). now split.
Qed.

(** A page on which nothing has been generated yet. *)
Definition freshPage (w : World) : Page :=
  {| world := w;
     currentItinerary := noItinerary;
     currentDayStats := [];
     rendered := [];
     shareShown := false;
     generating := false;
     mapNotice := None;
     alerts := [] |}.

(** The Leaflet scripts loaded, [initMap] not yet called. *)
Definition loaded : World :=
  {| leaflet := true; routing := true; map := false;
     markers := []; routeLayers := []; calls := [] |}.

(** One answer a day, the second day's first. *)
Definition threeAnswers : list (nat * Summary) :=
  [ (1, {| totalDistance := 20400%Q; totalTime := 2460%Q |});
    (0, {| totalDistance := 12345%Q; totalTime := 1234%Q |});
    (2, {| totalDistance := 8049%Q; totalTime := 910%Q |}) ].

Lemma generatePlan_keeps_the_parsed_plan_witness :
  currentItinerary
    (generatePlan Sample.insertionHost Sample.catalog
       SynthesisFacts.singleDateInput Sample.alternating threeAnswers
       (freshPage loaded))
  = parsedItinerary
      (parseTravel Sample.insertionHost Sample.catalog
         SynthesisFacts.singleDateInput Sample.alternating)
  /\ generating
       (generatePlan Sample.insertionHost Sample.catalog
          SynthesisFacts.singleDateInput Sample.alternating threeAnswers
          (freshPage loaded)) = false
  /\ alerts
       (generatePlan Sample.insertionHost Sample.catalog
          SynthesisFacts.singleDateInput Sample.alternating threeAnswers
          (freshPage loaded)) = alerts (freshPage loaded)
  /\ (rendered
        (generatePlan Sample.insertionHost Sample.catalog
           SynthesisFacts.singleDateInput Sample.alternating threeAnswers
           (freshPage loaded)) = rendered (freshPage loaded)
      \/ exists dayStats,
           rendered
             (generatePlan Sample.insertionHost Sample.catalog
                SynthesisFacts.singleDateInput Sample.alternating
                threeAnswers (freshPage loaded))
           = rendered (freshPage loaded)
             ++ [displayItinerary
                   (Itinerary.itinerary
                      (parseTravel Sample.insertionHost Sample.catalog
                         SynthesisFacts.singleDateInput Sample.alternating))
                   dayStats]).
Proof.
  apply (generatePlan_keeps_the_parsed_plan Sample.insertionHost
           Sample.catalog SynthesisFacts.singleDateInput Sample.alternating
           threeAnswers (freshPage loaded)).
  reflexivity.
Defined.

Lemma without_leaflet_no_plan_is_displayed_witness :
  rendered
    (generatePlan Sample.insertionHost Sample.catalog
       SynthesisFacts.singleDateInput Sample.alternating []
       (freshPage unloaded)) = rendered (freshPage unloaded)
  /\ shareShown
       (generatePlan Sample.insertionHost Sample.catalog
          SynthesisFacts.singleDateInput Sample.alternating []
          (freshPage unloaded)) = shareShown (freshPage unloaded)
  /\ currentDayStats
       (generatePlan Sample.insertionHost Sample.catalog
          SynthesisFacts.singleDateInput Sample.alternating []
          (freshPage unloaded)) = currentDayStats (freshPage unloaded)
  /\ mapNotice
       (generatePlan Sample.insertionHost Sample.catalog
          SynthesisFacts.singleDateInput Sample.alternating []
          (freshPage unloaded)) = Some leafletMissing
  /\ calls
       (world
          (generatePlan Sample.insertionHost Sample.catalog
             SynthesisFacts.singleDateInput Sample.alternating []
             (freshPage unloaded))) = calls (world (freshPage unloaded)).
Proof.
  apply (without_leaflet_no_plan_is_displayed Sample.insertionHost
           Sample.catalog SynthesisFacts.singleDateInput Sample.alternating
           [] (freshPage unloaded)); reflexivity.
Defined.

Lemma plan_displayed_once_with_route_figures_witness :
  exists view,
    rendered
      (generatePlan Sample.insertionHost Sample.catalog
         SynthesisFacts.singleDateInput Sample.alternating threeAnswers
         (freshPage loaded))
    = rendered (freshPage loaded) ++ [view]
    /\ List.length view
       = List.length
           (Itinerary.itinerary
              (parseTravel Sample.insertionHost Sample.catalog
                 SynthesisFacts.singleDateInput Sample.alternating))
    /\ forall i day,
         nth_error
           (Itinerary.itinerary
              (parseTravel Sample.insertionHost Sample.catalog
                 SynthesisFacts.singleDateInput Sample.alternating)) i
         = Some day ->
         exists card,
           nth_error view i = Some card
           /\ (routable (world (freshPage loaded)) day = false ->
               shownDistance card = 0%Q /\ shownDuration card = 0%Q)
           /\ (forall route,
                 In (i, route) threeAnswers ->
                 shownDistance card = distance (routeStat route)
                 /\ shownDuration card = duration (routeStat route)).
Proof.
  apply (plan_displayed_once_with_route_figures Sample.insertionHost
           Sample.catalog SynthesisFacts.singleDateInput Sample.alternating
           threeAnswers (freshPage loaded)).
  - reflexivity.
  - reflexivity.
  - vm_compute. apply perm_swap.
Defined.

End MainJsFacts.
